(** * Steam download monitor (Task_2/steam_script.py): a shallow embedding

    The script observes the on-disk footprint of a Steam installation and
    prints, once per tick, the application being downloaded, a status and a
    throughput.  This file embeds the functions of the script and proves
    properties of them.

    Modelling conventions.
    - A Python [float] is an IEEE-754 binary64 number: a [spec_float] of the
      Standard Library with precision 53 and maximal exponent 1024, with the
      library's correctly rounded operations.  Statements about values are
      made on the rational a number denotes ([F64.to_Q]).
    - A Python [int] is a [Z]; a counter that only grows from zero is a [nat].
    - A Python [str] is a [string]; a character stands for a code point
      below 256, and the character classes ([isspace], [isdigit], [lower],
      line boundaries) are those of Python on these code points.
    - The file system is an oracle record read by the functions, one per
      tick; a call that can raise returns an [option], [None] standing for
      the exception.  A directory listing is the sequence of entries its
      scan yields before it ends or fails.  Paths are joined as on POSIX.
    - The machine is a second oracle record, read once when the
      installation is located: the platform, the home directory and the
      environment as the expansions they give, the registry, and the
      [os.path.join] of the platform.
    - Every exception of the script is caught where it is raised, except
      the [OverflowError] of an integer too large for a [float]; that one
      ends the loop, and is a [None] result here. *)

From Stdlib Require Import ZArith QArith Qabs Qround Qpower Bool List Lia Ascii String.
From Stdlib Require Import SpecFloat DecimalString Permutation Sorted Lqa.
Import ListNotations.

#[local] Set Warnings "-register-all".

Local Open Scope Z_scope.

(** ** Binary64 numbers *)

Module F64.

Definition prec : Z := 53.
Definition emax : Z := 1024.

Definition float := spec_float.

Definition div : float -> float -> float := SFdiv prec emax.
Definition sub : float -> float -> float := SFsub prec emax.
Definition abs : float -> float := SFabs.
Definition ltb : float -> float -> bool := SFltb.
Definition leb : float -> float -> bool := SFleb.
Definition eqb : float -> float -> bool := SFeqb.

(** The number of the format nearest to an integer [n], ties to even;
    an infinity when [n] is out of range. *)
Definition of_Z (n : Z) : float := binary_normalize prec emax n 0 false.

(** The conversion of an [int] operand in arithmetic with a [float];
    [None] is the [OverflowError] raised when the integer is out of
    range. *)
Definition of_int (n : Z) : option float :=
  match of_Z n with
  | S754_infinity _ => None
  | x => Some x
  end.

Definition zero : float := S754_zero false.
Definition one : float := Eval vm_compute in of_Z 1.
Definition f1024 : float := Eval vm_compute in of_Z 1024.
(** The literal [1e-6]: the binary64 number nearest to 10^-6. *)
Definition f1e_6 : float := Eval vm_compute in div (of_Z 1) (of_Z 1000000).

Definition valid (x : float) : bool := valid_binary prec emax x.

Definition is_finite (x : float) : bool :=
  match x with
  | S754_zero _ | S754_finite _ _ _ => true
  | _ => false
  end.

(** The rational a finite number denotes (0 for the others). *)
Definition to_Q (x : float) : Q :=
  match x with
  | S754_finite s m e => (inject_Z (cond_Zopp s (Zpos m)) * 2 ^ e)%Q
  | _ => 0%Q
  end.

(** A number of the format that is neither infinite nor NaN. *)
Definition real (x : float) : Prop :=
  valid x = true /\ is_finite x = true.

(** The sign bit. *)
Definition sign (x : float) : bool :=
  match x with
  | S754_zero s | S754_infinity s | S754_finite s _ _ => s
  | S754_nan => false
  end.

(** The magnitude of a finite number with mantissa [m] and exponent [e]. *)
Definition mag (m : positive) (e : Z) : Q := (inject_Z (Zpos m) * 2 ^ e)%Q.

(** Python's [max(a, b)]: the first argument unless the second is greater. *)
Definition max (a b : float) : float := if ltb a b then b else a.

End F64.

Abbreviation float := F64.float.

(** ** Text *)

Local Open Scope string_scope.

Module Text.

Definition code (c : ascii) : N := N_of_ascii c.

Definition dquote : ascii := ascii_of_N 34.
Definition backslash : ascii := ascii_of_N 92.
Definition newline : ascii := ascii_of_N 10.
Definition slash : ascii := ascii_of_N 47.

Definition in_range (lo hi : N) (c : ascii) : bool :=
  (N.leb lo (code c) && N.leb (code c) hi)%bool.

(** [str.isspace] on one character, which is also the class [\s] of [re]
    for text patterns: TAB..CR, FS..US, space, NEL and NBSP. *)
Definition is_space (c : ascii) : bool :=
  (in_range 9 13 c || in_range 28 32 c
   || N.eqb (code c) 133 || N.eqb (code c) 160)%bool.

(** The class [\d] of [re] and the digits [int] reads. *)
Definition is_decimal (c : ascii) : bool := in_range 48 57 c.

(** [str.isdigit] on one character: the decimal digits and the superscript
    digits two, three and one. *)
Definition is_digit_char (c : ascii) : bool :=
  (is_decimal c || N.eqb (code c) 178 || N.eqb (code c) 179
   || N.eqb (code c) 185)%bool.

Fixpoint forallb_str (p : ascii -> bool) (s : string) : bool :=
  match s with
  | EmptyString => true
  | String c s' => (p c && forallb_str p s')%bool
  end.

Definition is_empty (s : string) : bool :=
  match s with EmptyString => true | _ => false end.

(** [s.isdigit()]: at least one character, every one a digit. *)
Definition isdigit (s : string) : bool :=
  (negb (is_empty s) && forallb_str is_digit_char s)%bool.

Fixpoint int_digits (s : string) (acc : Z) : option Z :=
  match s with
  | EmptyString => Some acc
  | String c s' =>
      if is_decimal c
      then int_digits s' (10 * acc + Z.of_N (code c) - 48)%Z
      else None
  end.

(** [int(s)] for a string that passed [isdigit]; [None] is [ValueError]
    (a superscript digit is a digit for [isdigit] and not for [int]). *)
Definition int_of_str (s : string) : option Z :=
  if is_empty s then None else int_digits s 0%Z.

(** [str(n)] for an integer. *)
Definition str (n : Z) : string := NilZero.string_of_int (Z.to_int n).

(** [c.lower()] on one character. *)
Definition lower_char (c : ascii) : ascii :=
  if (in_range 65 90 c
      || (in_range 192 222 c && negb (N.eqb (code c) 215)))%bool
  then ascii_of_N (code c + 32)
  else c.

Fixpoint lower (s : string) : string :=
  match s with
  | EmptyString => EmptyString
  | String c s' => String (lower_char c) (lower s')
  end.

(** [sub in s]. *)
Fixpoint contains (sub s : string) : bool :=
  (prefix sub s ||
   match s with
   | EmptyString => false
   | String _ s' => contains sub s'
   end)%bool.

(** Greedy run of characters satisfying [p]: the run and what follows. *)
Fixpoint span (p : ascii -> bool) (s : string) : string * string :=
  match s with
  | EmptyString => (EmptyString, EmptyString)
  | String c s' =>
      if p c then let '(a, b) := span p s' in (String c a, b)
      else (EmptyString, s)
  end.

Definition skip_space (s : string) : string := snd (span is_space s).

Definition not_quote (c : ascii) : bool := negb (Ascii.eqb c dquote).

Definition expect (c : ascii) (s : string) : option string :=
  match s with
  | String c' s' => if Ascii.eqb c c' then Some s' else None
  | EmptyString => None
  end.

(** [s.replace] of two backslashes by one: every pair, taken from the
    left without overlap, becomes one.  [skip] says that the character at
    the head was consumed as the second of a pair. *)
Fixpoint replace_backslashes (s : string) (skip : bool) : string :=
  match s with
  | EmptyString => EmptyString
  | String c s' =>
      if skip then replace_backslashes s' false
      else
        match s' with
        | String c' _ =>
            if (Ascii.eqb c backslash && Ascii.eqb c' backslash)%bool
            then String backslash (replace_backslashes s' true)
            else String c (replace_backslashes s' false)
        | EmptyString => String c EmptyString
        end
  end.

(** Line boundaries of [str.splitlines]: LF, VT, FF, CR, FS, GS, RS, NEL,
    and CR LF as one. *)
Definition is_linebreak (c : ascii) : bool :=
  (in_range 10 13 c || in_range 28 30 c || N.eqb (code c) 133)%bool.

Definition is_cr (c : ascii) : bool := N.eqb (code c) 13.
Definition is_lf (c : ascii) : bool := N.eqb (code c) 10.

(** [s.splitlines()]; [after_cr] says that the previous character was a
    CR that ended a line, so that a LF here belongs to it. *)
Fixpoint splitlines_from (s : string) (after_cr : bool) : list string :=
  match s with
  | EmptyString => []
  | String c s' =>
      if (after_cr && is_lf c)%bool then splitlines_from s' false
      else if is_linebreak c then EmptyString :: splitlines_from s' (is_cr c)
      else
        match splitlines_from s' false with
        | [] => [String c EmptyString]
        | l :: ls => String c l :: ls
        end
  end.

Definition splitlines (s : string) : list string := splitlines_from s false.

(** The lines a text file yields when iterated: each ends with its LF,
    except possibly the last. *)
Fixpoint readlines (s : string) : list string :=
  match s with
  | EmptyString => []
  | String c s' =>
      if is_lf c then String c EmptyString :: readlines s'
      else
        match readlines s' with
        | [] => [String c EmptyString]
        | l :: ls => String c l :: ls
        end
  end.

(** *** The three patterns of the script

    Each pattern is a sequence of greedy runs over classes that exclude the
    character required next, so the leftmost match is found without
    backtracking. *)

Definition bind {A B} (o : option A) (k : A -> option B) : option B :=
  match o with Some a => k a | None => None end.

(** Optional spaces, then a quoted run of one or more characters other
    than the quote: the run and what follows its closing quote. *)
Definition quoted_nonempty (s : string) : option (string * string) :=
  bind (expect dquote (skip_space s)) (fun r =>
  let '(g, r') := span not_quote r in
  if is_empty g then None
  else bind (expect dquote r') (fun r'' => Some (g, r''))).

(** [_kv_re.match(line)]: spaces, a quoted non-empty key, spaces, a quoted
    value that may be empty, spaces, end of the line; both groups. *)
Definition kv_match (line : string) : option (string * string) :=
  bind (quoted_nonempty line) (fun '(k, r) =>
  bind (expect dquote (skip_space r)) (fun r1 =>
  let '(v, r2) := span not_quote r1 in
  bind (expect dquote r2) (fun r3 =>
  if is_empty (skip_space r3) then Some (k, v) else None))).

(** A literal matched under [re.IGNORECASE]. *)
Fixpoint expect_nocase (lit s : string) : option string :=
  match lit, s with
  | EmptyString, _ => Some s
  | String a lit', String c s' =>
      if Ascii.eqb (lower_char a) (lower_char c)
      then expect_nocase lit' s' else None
  | String _ _, EmptyString => None
  end.

(** The first pattern of [parse_libraryfolders_vdf], tried at the head of
    [s]: a quote, spaces, the word path in any case, spaces, a quote, then
    spaces and a quoted non-empty value; the value and what follows. *)
Definition path_entry (s : string) : option (string * string) :=
  bind (expect dquote s) (fun r0 =>
  bind (expect_nocase "path" (skip_space r0)) (fun r1 =>
  bind (expect dquote (skip_space r1)) quoted_nonempty)).

(** The second pattern, tried at the head of [s]: the key is a run of one
    or more decimal digits instead of the word path. *)
Definition index_entry (s : string) : option (string * string) :=
  bind (expect dquote s) (fun r0 =>
  let '(d, r1) := span is_decimal (skip_space r0) in
  if is_empty d then None
  else bind (expect dquote (skip_space r1)) quoted_nonempty).

(** [re.finditer]: the groups of the matches from left to right, without
    overlap.  [skip] counts the characters still inside the last match. *)
Fixpoint finditer (m : string -> option (string * string)) (s : string)
    (skip : nat) : list string :=
  match s with
  | EmptyString => []
  | String _ s' =>
      match skip with
      | S k => finditer m s' k
      | O =>
          match m s with
          | Some (g, rest) =>
              g :: finditer m s' (String.length s - String.length rest - 1)
          | None => finditer m s' 0
          end
      end
  end.

End Text.


(** ** The file system, as the script reads it *)

(** An entry yielded by [os.scandir], with what the script asks of it (no
    call follows symbolic links).  A directory carries the outcome of
    scanning it in turn, [None] when that raises. *)
Inductive DirEntry : Type :=
| ESymlink (name : string)
| EFile (name : string) (st_size : option Z)
| EDir (name : string) (st_mtime : option float)
       (children : option (list DirEntry))
| EOther (name : string)
| EFaulty (name : string).
(* [EFile n None], [EDir n None c]: [stat] raises.  [EFaulty]: the type
   queries [is_symlink], [is_file] and [is_dir] raise. *)

Record FileSystem : Type := {
  isdir : string -> bool;                        (* os.path.isdir *)
  isfile : string -> bool;                       (* os.path.isfile *)
  realpath : string -> option string;            (* os.path.realpath *)
  scandir : string -> option (list DirEntry);    (* os.scandir, exhausted *)
  read_text : string -> option string;           (* open(p, "r").read() *)
  read_tail : string -> Z -> option string       (* the last bytes, decoded *)
}.

(** [os.path.join] of two components, POSIX flavour. *)
Fixpoint ends_with_slash (s : string) : bool :=
  match s with
  | EmptyString => false
  | String c EmptyString => Ascii.eqb c Text.slash
  | String _ s' => ends_with_slash s'
  end.

Definition path_join (a b : string) : string :=
  match b with
  | String c _ =>
      if Ascii.eqb c Text.slash then b
      else if (Text.is_empty a || ends_with_slash a)%bool then a ++ b
      else a ++ String Text.slash b
  | EmptyString =>
      if (Text.is_empty a || ends_with_slash a)%bool then a
      else a ++ String Text.slash EmptyString
  end.

(** ** The functions of the script *)

Definition units : list string := ["B/s"; "KB/s"; "MB/s"; "GB/s"].

(** Nearest integer, ties to the even one. *)
Definition round_half_even (q : Q) : Z :=
  let n := Qnum q in
  let d := Zpos (Qden q) in
  let f := (n / d)%Z in
  match (2 * (n mod d) ?= d)%Z with
  | Lt => f
  | Gt => (f + 1)%Z
  | Eq => if Z.even f then f else (f + 1)%Z
  end.

(** The hundredths shown for a finite value: its magnitude times 100,
    correctly rounded. *)
Definition hundredths (x : float) : Z :=
  round_half_even (F64.to_Q (F64.abs x) * 100).

Definition two_digits (n : Z) : string :=
  if (n <? 10)%Z then "0" ++ Text.str n else Text.str n.

Definition fixed2 (negative : bool) (h : Z) : string :=
  (if negative then "-" else EmptyString)
  ++ Text.str (h / 100) ++ "." ++ two_digits (h mod 100).

(** The format specification [.2f]. *)
Definition format_2f (x : float) : string :=
  match x with
  | S754_nan => "nan"
  | S754_infinity s => if s then "-inf" else "inf"
  | S754_zero s => fixed2 s 0
  | S754_finite s _ _ => fixed2 s (hundredths x)
  end.

(** The [while] loop of [real_speed].  It runs at most [len(units) - 1]
    times, so [len(units)] rounds of fuel never run out. *)
Fixpoint scale_loop (fuel : nat) (val : float) (i : nat) : float * nat :=
  match fuel with
  | O => (val, i)
  | S fuel' =>
      if (F64.leb F64.f1024 val && (i <? List.length units - 1)%nat)%bool
      then scale_loop fuel' (F64.div val F64.f1024) (S i)
      else (val, i)
  end.

Definition real_speed_scaled (bytes_per_sec : float) : float * nat :=
  let bytes_per_sec :=
    if F64.ltb bytes_per_sec F64.zero then F64.zero else bytes_per_sec in
  scale_loop (List.length units) bytes_per_sec 0.

Definition real_speed (bytes_per_sec : float) : string :=
  let '(val, i) := real_speed_scaled bytes_per_sec in
  format_2f val ++ " " ++ nth i units EmptyString.

(** The number of bytes in the unit of index [i]. *)
Definition unit_factor (i : nat) : Q := inject_Z (1024 ^ Z.of_nat i).

(** What a rendering shows: the number before the unit, and the number of
    bytes per second the whole stands for. *)
Definition displayed_value (x : float) : Q :=
  (inject_Z (hundredths (fst (real_speed_scaled x))) / 100)%Q.

Definition unit_index (x : float) : nat := snd (real_speed_scaled x).

Definition rendered_magnitude (x : float) : Q :=
  (displayed_value x * unit_factor (unit_index x))%Q.

Definition safe_realpath (fs : FileSystem) (p : string) : string :=
  match realpath fs p with
  | Some r => r
  | None => p
  end.

(** The [for entry in it] loop of [folder_size_bytes]: the stack holds the
    directories still to scan, each as the outcome of scanning it, the top
    first. *)
Fixpoint scan_entries (es : list DirEntry) (total : Z)
    (stack : list (option (list DirEntry)))
  : Z * list (option (list DirEntry)) :=
  match es with
  | [] => (total, stack)
  | e :: es' =>
      match e with
      | EFile _ (Some size) => scan_entries es' (total + size)%Z stack
      | EDir _ _ sub => scan_entries es' total (sub :: stack)
      | _ => scan_entries es' total stack
      end
  end.

(** The [while stack] loop; [None] when the fuel runs out. *)
Fixpoint walk (fuel : nat) (stack : list (option (list DirEntry)))
    (total : Z) : option Z :=
  match stack with
  | [] => Some total
  | cur :: rest =>
      match fuel with
      | O => None
      | S fuel' =>
          match cur with
          | None => walk fuel' rest total
          | Some es =>
              let '(total', stack') := scan_entries es total rest in
              walk fuel' stack' total'
          end
      end
  end.

(** The number of directories under a listing, itself included. *)
Fixpoint dirs_of_entry (e : DirEntry) : nat :=
  match e with
  | EDir _ _ sub =>
      S (match sub with
         | Some es => list_sum (map dirs_of_entry es)
         | None => O
         end)
  | _ => O
  end.

Definition dirs_of (d : option (list DirEntry)) : nat :=
  S (match d with
     | Some es => list_sum (map dirs_of_entry es)
     | None => O
     end).

Definition folder_size_bytes (fs : FileSystem) (path : string) : Z :=
  let root := scandir fs path in
  match walk (dirs_of root) [root] 0 with
  | Some total => total
  | None => 0%Z
  end.

Definition sumZ (l : list Z) : Z := fold_right Z.add 0 l.

(** The bytes under an entry, and under a directory given by the outcome of
    scanning it: regular files that can be examined, at any depth, symbolic
    links apart. *)
Fixpoint entry_total (e : DirEntry) : Z :=
  match e with
  | EFile _ (Some size) => size
  | EDir _ _ (Some es) => sumZ (map entry_total es)
  | _ => 0
  end.

Definition tree_total (d : option (list DirEntry)) : Z :=
  match d with
  | Some es => sumZ (map entry_total es)
  | None => 0
  end.

Definition last_file_symbols (fs : FileSystem) (path : string) : string :=
  match read_tail fs path 200000 with
  | Some text => text
  | None => EmptyString
  end.

(** A [dict] from strings to strings: the bindings, the latest first, so
    that a lookup finds the value assigned last. *)
Definition dict : Type := list (string * string).

Definition dict_set (k v : string) (d : dict) : dict := (k, v) :: d.

Fixpoint dict_get (k : string) (d : dict) : option string :=
  match d with
  | [] => None
  | (k', v) :: d' => if String.eqb k k' then Some v else dict_get k d'
  end.

Fixpoint parse_lines (lines : list string) (out : dict) : dict :=
  match lines with
  | [] => out
  | line :: rest =>
      match Text.kv_match line with
      | Some (k, v) => parse_lines rest (dict_set k v out)
      | None => parse_lines rest out
      end
  end.

Definition parse_key_value_file (fs : FileSystem) (path : string) : dict :=
  match read_text fs path with
  | Some text => parse_lines (Text.readlines text) []
  | None => []
  end.

(** One of the two [for m in re.finditer(...)] loops of
    [parse_libraryfolders_vdf], over the captured groups. *)
Fixpoint append_libraries (fs : FileSystem) (groups : list string)
    (libs : list string) : list string :=
  match groups with
  | [] => libs
  | g :: rest =>
      let p := safe_realpath fs (Text.replace_backslashes g false) in
      if (negb (Text.is_empty p) && isdir fs p)%bool
      then append_libraries fs rest (libs ++ [p])
      else append_libraries fs rest libs
  end.

Definition mem (p : string) (seen : list string) : bool :=
  existsb (String.eqb p) seen.

(** The de-duplication loop, with its set [seen] and its list [out]. *)
Fixpoint dedup_loop (libs seen out : list string) : list string :=
  match libs with
  | [] => out
  | p :: rest =>
      if mem p seen then dedup_loop rest seen out
      else dedup_loop rest (p :: seen) (out ++ [p])
  end.

(** The list [libs] of [parse_libraryfolders_vdf] before de-duplication. *)
Definition vdf_libs (fs : FileSystem) (text : string) : list string :=
  let libs := append_libraries fs (Text.finditer Text.path_entry text 0) [] in
  append_libraries fs (Text.finditer Text.index_entry text 0) libs.

Definition parse_libraryfolders_vdf (fs : FileSystem) (path : string)
  : list string :=
  if negb (isfile fs path) then []
  else
    match read_text fs path with
    | None => []
    | Some text => dedup_loop (vdf_libs fs text) [] []
    end.

(** Each distinct element once, in the order of the first occurrences. *)
Fixpoint first_seen (l : list string) : list string :=
  match l with
  | [] => []
  | p :: rest => p :: filter (fun q => negb (String.eqb q p)) (first_seen rest)
  end.

(** The value of [libs] when the de-duplication loop of
    [parse_libraryfolders_vdf] starts; empty when the function has returned
    before. *)
Definition vdf_libs_of (fs : FileSystem) (path : string) : list string :=
  if negb (isfile fs path) then []
  else
    match read_text fs path with
    | None => []
    | Some text => vdf_libs fs text
    end.

Inductive Status : Type := downloading | paused | unknown.

Record DownloadInfo : Type := {
  appid : Z;
  name : string;
  status : Status;
  speed_bps : float
}.

Definition manifest_name (appid : Z) : string :=
  "appmanifest_" ++ Text.str appid ++ ".acf".

Definition fallback_name (appid : Z) : string := "AppID " ++ Text.str appid.

Fixpoint resolve_app_name (fs : FileSystem) (appid : Z)
    (steamapps_folders : list string) : string :=
  match steamapps_folders with
  | [] => fallback_name appid
  | sa :: rest =>
      let p := path_join sa (manifest_name appid) in
      if isfile fs p then
        match dict_get "name" (parse_key_value_file fs p) with
        | Some name =>
            if Text.is_empty name then resolve_app_name fs appid rest
            else name
        | None => resolve_app_name fs appid rest
        end
      else resolve_app_name fs appid rest
  end.

(** The display name the manifest of one library gives for an application:
    [None] when the library has no manifest for it, or the manifest has no
    name, or an empty one. *)
Definition manifest_display_name (fs : FileSystem) (appid : Z) (sa : string)
  : option string :=
  let p := path_join sa (manifest_name appid) in
  if isfile fs p then
    match dict_get "name" (parse_key_value_file fs p) with
    | Some n => if Text.is_empty n then None else Some n
    | None => None
    end
  else None.

(** C5 as the specification words it: only the first manifest found is
    consulted. *)
Fixpoint resolve_name_as_specified (fs : FileSystem) (appid : Z)
    (steamapps_folders : list string) : string :=
  match steamapps_folders with
  | [] => fallback_name appid
  | sa :: rest =>
      let p := path_join sa (manifest_name appid) in
      if isfile fs p then
        match dict_get "name" (parse_key_value_file fs p) with
        | Some n => n
        | None => fallback_name appid
        end
      else resolve_name_as_specified fs appid rest
  end.

(** A candidate: the tuple [(mtime, appid)]. *)
Definition candidate : Type := (float * Z)%type.

(** The loop over one [downloading] directory.  An exception raised by
    [is_dir] or by [int] leaves the loop with what was appended so far. *)
Fixpoint scan_downloading (es : list DirEntry) (candidates : list candidate)
  : list candidate :=
  match es with
  | [] => candidates
  | e :: rest =>
      match e with
      | EFaulty _ => candidates
      | EDir name st_mtime _ =>
          if Text.isdigit name then
            match Text.int_of_str name with
            | None => candidates
            | Some appid =>
                let mtime :=
                  match st_mtime with
                  | Some t => t
                  | None => F64.zero
                  end in
                scan_downloading rest (candidates ++ [(mtime, appid)])
            end
          else scan_downloading rest candidates
      | _ => scan_downloading rest candidates
      end
  end.

Fixpoint collect_candidates (fs : FileSystem) (steamapps_folders : list string)
    (candidates : list candidate) : list candidate :=
  match steamapps_folders with
  | [] => candidates
  | sa :: rest =>
      let downloading_dir := path_join sa "downloading" in
      if negb (isdir fs downloading_dir)
      then collect_candidates fs rest candidates
      else
        match scandir fs downloading_dir with
        | None => collect_candidates fs rest candidates
        | Some es =>
            collect_candidates fs rest (scan_downloading es candidates)
        end
  end.

(** [a < b] on tuples: the first components decide unless they are equal. *)
Definition candidate_ltb (a b : candidate) : bool :=
  if F64.eqb (fst a) (fst b) then (snd a <? snd b)%Z
  else F64.ltb (fst a) (fst b).

(** [list.sort(reverse=True)]: a stable sort into descending order. *)
Fixpoint insert_desc (x : candidate) (l : list candidate) : list candidate :=
  match l with
  | [] => [x]
  | y :: l' => if candidate_ltb x y then y :: insert_desc x l' else x :: l
  end.

Fixpoint sort_reverse (l : list candidate) : list candidate :=
  match l with
  | [] => []
  | x :: l' => insert_desc x (sort_reverse l')
  end.

Definition select_candidate (candidates : list candidate) : option Z :=
  match sort_reverse candidates with
  | [] => None
  | (_, appid) :: _ => Some appid
  end.

Definition detect_appid_from_downloading_dir (fs : FileSystem)
    (steamapps_folders : list string) : option Z :=
  select_candidate (collect_candidates fs steamapps_folders []).

(** [a] does not rank above [b]: an earlier modification time, or the same
    one and an application id that is not larger. *)
Definition cand_le (a b : candidate) : Prop :=
  (F64.to_Q (fst a) < F64.to_Q (fst b))%Q
  \/ ((F64.to_Q (fst a) == F64.to_Q (fst b))%Q /\ (snd a <= snd b)%Z).

Definition real_mtimes (cs : list candidate) : Prop :=
  Forall (fun c => F64.real (fst c)) cs.

(** An entry at which the scan of a [downloading] directory stops. *)
Definition interrupts (e : DirEntry) : bool :=
  match e with
  | EFaulty _ => true
  | EDir name _ _ =>
      (Text.isdigit name
       && match Text.int_of_str name with None => true | Some _ => false end)%bool
  | _ => false
  end.

Fixpoint get_downloading_folder (fs : FileSystem)
    (steamapps_folders : list string) (appid : Z) : option string :=
  match steamapps_folders with
  | [] => None
  | sa :: rest =>
      let p := path_join (path_join sa "downloading") (Text.str appid) in
      if isdir fs p then Some p else get_downloading_folder fs rest appid
  end.

(** The loop over the last lines of the log, the most recent first. *)
Fixpoint scan_log (lines : list string) : option Status :=
  match lines with
  | [] => None
  | ln :: rest =>
      let low := Text.lower ln in
      if Text.contains "pause" low then Some paused
      else if (Text.contains "downloading" low
               || Text.contains "download" low)%bool
      then
        if negb (Text.contains "pause" low) then Some downloading
        else scan_log rest
      else scan_log rest
  end.

Definition detect_status_from_content_log (fs : FileSystem)
    (steam_path : string) (appid : option Z) : option Status :=
  let log_path := path_join (path_join steam_path "logs") "content_log.txt" in
  if negb (isfile fs log_path) then None
  else
    let text := last_file_symbols fs log_path in
    let lines := Text.splitlines text in
    let lines :=
      match appid with
      | Some a => filter (Text.contains (Text.str a)) lines
      | None => lines
      end in
    scan_log (rev (skipn (List.length lines - 800) lines)).

(** ** The monitoring loop *)

(** The variables [monitor_steam_downloads] carries from one iteration of
    its loop to the next. *)
Record State : Type := {
  last_size : option Z;
  last_appid : option Z;
  last_time : float;
  zero_streak : nat
}.

(** What one iteration observes: the file system, and the clock
    ([time.time()]) read when a download is detected. *)
Record Tick : Type := {
  tick_fs : FileSystem;
  tick_now : float
}.

Definition status_eqb (a b : Status) : bool :=
  match a, b with
  | downloading, downloading | paused, paused | unknown, unknown => true
  | _, _ => false
  end.

(** [last_appid == appid], where [last_appid] may be [None]. *)
Definition same_appid (last : option Z) (appid : Z) : bool :=
  match last with
  | Some a => (a =? appid)%Z
  | None => false
  end.

(** The block under [if dl_folder:], down to the assignment of
    [last_size]: the speed, the status and the new [last_size]; [None] when
    the division raises [OverflowError]. *)
Definition measure (fs : FileSystem) (st : State) (appid : Z) (now : float)
    (dl_folder : option string) (status : Status)
  : option (float * Status * option Z) :=
  match dl_folder with
  | Some d =>
      if Text.is_empty d then Some (F64.zero, status, None)
      else
        let cur_size := folder_size_bytes fs d in
        match last_size st with
        | Some prev =>
            if same_appid (last_appid st) appid then
              let dt := F64.max F64.f1e_6 (F64.sub now (last_time st)) in
              match F64.of_int (cur_size - prev) with
              | None => None
              | Some delta =>
                  let speed := F64.div delta dt in
                  if ((cur_size =? prev)%Z && status_eqb status unknown)%bool
                  then Some (speed, paused, Some cur_size)
                  else Some (speed, status, Some cur_size)
              end
            else Some (F64.zero, status, Some cur_size)
        | None => Some (F64.zero, status, Some cur_size)
        end
  | None => Some (F64.zero, status, None)
  end.

(** The low-speed counter and the status once the speed is measured. *)
Definition next_streak (speed : float) (streak : nat) : nat :=
  if F64.ltb (F64.abs speed) F64.f1024 then S streak else O.

Definition reconcile (speed : float) (streak : nat) (status : Status)
  : Status :=
  let status := if (2 <=? streak)%nat then paused else status in
  if (F64.ltb (F64.abs speed) F64.one && status_eqb status unknown)%bool
  then paused else status.

(** The body of the [for] loop: the next state and the sample printed (no
    sample when the line says that no download is active); [None] when the
    iteration raises. *)
Definition monitor_tick (steam_path : string) (steamapps_folders : list string)
    (st : State) (t : Tick) : option (State * option DownloadInfo) :=
  let fs := tick_fs t in
  match detect_appid_from_downloading_dir fs steamapps_folders with
  | None =>
      Some ({| last_size := None; last_appid := None;
               last_time := last_time st; zero_streak := zero_streak st |},
            None)
  | Some appid =>
      let name := resolve_app_name fs appid steamapps_folders in
      let dl_folder := get_downloading_folder fs steamapps_folders appid in
      let status :=
        match detect_status_from_content_log fs steam_path (Some appid) with
        | Some s => s
        | None => unknown
        end in
      let now := tick_now t in
      match measure fs st appid now dl_folder status with
      | None => None
      | Some (speed, status, size) =>
          let streak := next_streak speed (zero_streak st) in
          let status := reconcile speed streak status in
          Some ({| last_size := size; last_appid := Some appid;
                   last_time := now; zero_streak := streak |},
                Some {| appid := appid; name := name; status := status;
                        speed_bps := speed |})
      end
  end.

(** A printed line. *)
Inductive Line : Type :=
| NoActiveDownload
| Report (name : string) (status : Status) (speed : string).

Definition print_line (sample : option DownloadInfo) : Line :=
  match sample with
  | None => NoActiveDownload
  | Some info => Report (name info) (status info) (real_speed (speed_bps info))
  end.

(** The [for] loop: the state it ends with, [None] when an iteration
    raised and ended it, and the samples printed until then. *)
Fixpoint monitor_loop (steam_path : string) (steamapps_folders : list string)
    (st : State) (ticks : list Tick)
  : option State * list (option DownloadInfo) :=
  match ticks with
  | [] => (Some st, [])
  | t :: rest =>
      match monitor_tick steam_path steamapps_folders st t with
      | None => (None, [])
      | Some (st', sample) =>
          let '(final, samples) :=
            monitor_loop steam_path steamapps_folders st' rest in
          (final, sample :: samples)
      end
  end.

Definition initial_state (start : float) : State :=
  {| last_size := None; last_appid := None;
     last_time := start; zero_streak := O |}.

(** [monitor_steam_downloads], from the point where the install root and
    the libraries are known: the lines printed by the loop. *)
Definition monitor_steam_downloads (steam_path : string)
    (steamapps_folders : list string) (start : float) (ticks : list Tick)
  : list Line :=
  map print_line
    (snd (monitor_loop steam_path steamapps_folders (initial_state start)
            ticks)).

(** ** Concrete installations, used to exercise the statements below *)

Module Scenario.

Definition nl : string := String Text.newline EmptyString.
Definition quoted (s : string) : string :=
  String Text.dquote s ++ String Text.dquote EmptyString.

Definition steam_path : string := "/s".
Definition folders : list string := ["/s/steamapps"].

(** One library in which application 570 is being downloaded: [size] bytes
    in one file so far, and the tail of the content log when there is one. *)
Definition downloading_570 (size : Z) (log : option string) : FileSystem := {|
  isdir p :=
    (String.eqb p "/s/steamapps/downloading"
     || String.eqb p "/s/steamapps/downloading/570")%bool;
  isfile p :=
    match log with
    | Some _ => String.eqb p "/s/logs/content_log.txt"
    | None => false
    end;
  realpath p := Some p;
  scandir p :=
    if String.eqb p "/s/steamapps/downloading"
    then Some [EDir "570" (Some (F64.of_Z 1700000000)) None; EFile "tmp" None]
    else if String.eqb p "/s/steamapps/downloading/570"
    then Some [EFile "chunk" (Some size);
               EDir "sub" None (Some [EFile "empty" (Some 0%Z); ESymlink "l"])]
    else None;
  read_text p := None;
  read_tail p n := log
|}.

(** The same installation with nothing in progress. *)
Definition idle : FileSystem := {|
  isdir p := false;
  isfile p := false;
  realpath p := Some p;
  scandir p := None;
  read_text p := None;
  read_tail p n := None
|}.

Definition log_downloading : option string :=
  Some ("AppID 570 update started : download" ++ nl ++ "AppID 570 state").

Definition at_time (fs : FileSystem) (seconds : Z) : Tick :=
  {| tick_fs := fs; tick_now := F64.of_Z seconds |}.

Definition after (st : State) (ticks : list Tick) : State :=
  match fst (monitor_loop steam_path folders st ticks) with
  | Some st' => st'
  | None => st
  end.

Definition no_sample : DownloadInfo :=
  {| appid := 0; name := EmptyString; status := unknown;
     speed_bps := F64.zero |}.

Definition sample_of (r : option (State * option DownloadInfo))
  : DownloadInfo :=
  match r with
  | Some (_, Some info) => info
  | _ => no_sample
  end.

Definition state_of (r : option (State * option DownloadInfo)) : State :=
  match r with
  | Some (st, _) => st
  | None => initial_state F64.zero
  end.

Definition start : State := initial_state (F64.of_Z 999).

(** The state after a first tick that saw 100 bytes of application 570:
    one low-speed tick counted, since a first observation has speed zero. *)
Definition first_tick : Tick := at_time (downloading_570 100 None) 1000.
Definition seen_once : State := Eval vm_compute in after start [first_tick].

(** A second tick, one second later: 20 bytes more, and a log that says
    the application is downloading. *)
Definition slow_tick : Tick := at_time (downloading_570 120 log_downloading) 1001.
Definition slow_result : option (State * option DownloadInfo) :=
  Eval vm_compute in monitor_tick steam_path folders seen_once slow_tick.

(** A second tick that finds the size unchanged and no log. *)
Definition still_tick : Tick := at_time (downloading_570 100 None) 1001.
Definition still_result : option (State * option DownloadInfo) :=
  Eval vm_compute in monitor_tick steam_path folders seen_once still_tick.

(** Two ticks with nothing in progress, then the download is back with
    five megabytes more and a log that says downloading. *)
Definition gap : list Tick := [at_time idle 1001; at_time idle 1002].
Definition back_tick : Tick :=
  at_time (downloading_570 5000100 log_downloading) 1003.
Definition after_gap : State := Eval vm_compute in after seen_once gap.
Definition back_result : option (State * option DownloadInfo) :=
  Eval vm_compute in monitor_tick steam_path folders after_gap back_tick.
Definition fresh_after_gap : State := Eval vm_compute in after start gap.

(** Two libraries, each with one application in progress, modified at the
    given times (seconds). *)
Definition two_libraries (time_a time_b : Z) : FileSystem := {|
  isdir p :=
    (String.eqb p "/a/downloading" || String.eqb p "/b/downloading")%bool;
  isfile p := false;
  realpath p := Some p;
  scandir p :=
    if String.eqb p "/a/downloading"
    then Some [EDir "10" (Some (F64.of_Z time_a)) None]
    else if String.eqb p "/b/downloading"
    then Some [EFile "state" (Some 12%Z);
               EDir "20" (Some (F64.of_Z time_b)) None]
    else None;
  read_text p := None;
  read_tail p n := None
|}.

(** One library whose only download directory cannot be examined: [stat]
    raises on it. *)
Definition unreadable_stat : FileSystem := {|
  isdir p := String.eqb p "/a/downloading";
  isfile p := false;
  realpath p := Some p;
  scandir p :=
    if String.eqb p "/a/downloading" then Some [EDir "570" None None]
    else None;
  read_text p := None;
  read_tail p n := None
|}.

Definition tab : string := String (ascii_of_N 9) EmptyString.

Definition manifest_line (key value : string) : string :=
  tab ++ quoted key ++ tab ++ tab ++ quoted value ++ nl.

(** Two libraries with a manifest of application 570: the first manifest
    has no name, the second has one. *)
Definition two_manifests : FileSystem := {|
  isdir p := false;
  isfile p :=
    (String.eqb p "/a/appmanifest_570.acf"
     || String.eqb p "/b/appmanifest_570.acf")%bool;
  realpath p := Some p;
  scandir p := None;
  read_text p :=
    if String.eqb p "/a/appmanifest_570.acf"
    then Some (quoted "AppState" ++ nl ++ "{" ++ nl
               ++ manifest_line "appid" "570" ++ "}" ++ nl)
    else if String.eqb p "/b/appmanifest_570.acf"
    then Some (quoted "AppState" ++ nl ++ "{" ++ nl
               ++ manifest_line "appid" "570"
               ++ manifest_line "name" "Dota 2" ++ "}" ++ nl)
    else None;
  read_tail p n := None
|}.

(** A library configuration that names two directories twice each, in
    both key styles. *)
Definition vdf_text : string :=
  quoted "LibraryFolders" ++ nl ++ "{" ++ nl
  ++ manifest_line "1" "/lib/b"
  ++ manifest_line "path" "/lib/a"
  ++ manifest_line "2" "/lib/a"
  ++ manifest_line "Path" "/lib/b"
  ++ manifest_line "3" "/lib/missing" ++ "}" ++ nl.

Definition with_vdf : FileSystem := {|
  isdir p := (String.eqb p "/lib/a" || String.eqb p "/lib/b")%bool;
  isfile p := String.eqb p "/s/steamapps/libraryfolders.vdf";
  realpath p := Some p;
  scandir p := None;
  read_text p :=
    if String.eqb p "/s/steamapps/libraryfolders.vdf" then Some vdf_text
    else None;
  read_tail p n := None
|}.

(** Inputs of [real_speed]: one byte per second short of a mebibyte, a
    mebibyte, and five bytes. *)
Definition below_mebibyte : float := F64.of_Z 1048575.
Definition mebibyte : float := F64.of_Z 1048576.
Definition five_bytes : float := F64.of_Z 5.

End Scenario.

(** * The rest of the script *)

(** ** Directory trees *)

(** No file of the tree reports a negative size. *)
Fixpoint sizes_nonneg (e : DirEntry) : bool :=
  match e with
  | EFile _ (Some size) => (0 <=? size)%Z
  | EDir _ _ (Some es) => forallb sizes_nonneg es
  | _ => true
  end.

Definition listing_nonneg (d : option (list DirEntry)) : bool :=
  match d with
  | Some es => forallb sizes_nonneg es
  | None => true
  end.

(** The same tree with the entries of some directories, at any depth,
    yielded in another order. *)
Inductive reordered : list DirEntry -> list DirEntry -> Prop :=
| reordered_here (es es' : list DirEntry) :
    Permutation es es' -> reordered es es'
| reordered_below (n : string) (mt : option float)
    (es es' rest : list DirEntry) :
    reordered es es' ->
    reordered (EDir n mt (Some es) :: rest) (EDir n mt (Some es') :: rest)
| reordered_trans (es1 es2 es3 : list DirEntry) :
    reordered es1 es2 -> reordered es2 es3 -> reordered es1 es3.

(** ** Quoted text *)

(** A text between double quotes. *)
Definition in_quotes (s : string) : string :=
  String Text.dquote (s ++ String Text.dquote EmptyString).

Definition all_space (s : string) : bool := Text.forallb_str Text.is_space s.
Definition no_quote (s : string) : bool := Text.forallb_str Text.not_quote s.

(** Where a greedy run stops: at the end, or at a character outside the
    class. *)
Definition stops (p : ascii -> bool) (s : string) : Prop :=
  match s with
  | EmptyString => True
  | String c _ => p c = false
  end.

(** The line assigns a value to the key. *)
Definition binds (k : string) (line : string) : Prop :=
  exists v, Text.kv_match line = Some (k, v).

(** ** Writing a library configuration *)

(** Writing a library configuration: one line per entry, the key either
    the word path or an index in decimal digits. *)
Inductive vdf_key : Type :=
| KeyPath
| KeyIndex (digits : string).

Definition key_text (k : vdf_key) : string :=
  match k with
  | KeyPath => "path"
  | KeyIndex d => d
  end.

Definition tab : ascii := ascii_of_N 9.

(** A tab, the quoted key, two tabs, the quoted value, a line feed, and
    the rest of the file. *)
Definition vdf_line (k : vdf_key) (value rest : string) : string :=
  String tab (String Text.dquote (key_text k ++
    String Text.dquote (String tab (String tab (String Text.dquote (value ++
      String Text.dquote (String Text.newline rest))))))).

Fixpoint vdf_file (entries : list (vdf_key * string)) : string :=
  match entries with
  | [] => EmptyString
  | (k, v) :: rest => vdf_line k v (vdf_file rest)
  end.

Definition key_ok (k : vdf_key) : bool :=
  match k with
  | KeyPath => true
  | KeyIndex d =>
      (negb (Text.is_empty d) && Text.forallb_str Text.is_decimal d)%bool
  end.

(** A value that holds no double quote and begins with a character that
    is neither white space, nor a digit, nor the letter p. *)
Definition value_ok (v : string) : bool :=
  (no_quote v
   && match v with
      | String c _ =>
          negb (Text.is_space c || Text.is_decimal c
                || Ascii.eqb (Text.lower_char c) "p"%char)
      | EmptyString => false
      end)%bool.

(** An entry that is read back as it was written. *)
Definition entry_ok (e : vdf_key * string) : bool :=
  (key_ok (fst e) && value_ok (snd e))%bool.

Definition is_path_key (k : vdf_key) : bool :=
  match k with KeyPath => true | KeyIndex _ => false end.

Definition values_of (wanted : vdf_key -> bool)
    (entries : list (vdf_key * string)) : list string :=
  map snd (filter (fun e => wanted (fst e)) entries).

(** What one loop of [parse_libraryfolders_vdf] keeps of the values it
    captured. *)
Definition kept_libraries (fs : FileSystem) (groups : list string)
  : list string :=
  filter (fun p => (negb (Text.is_empty p) && isdir fs p)%bool)
    (map (fun g => safe_realpath fs (Text.replace_backslashes g false)) groups).




(** ** Locating the installation *)

(** The registry hives the script reads. *)
Inductive Hive : Type := HKEY_CURRENT_USER | HKEY_LOCAL_MACHINE.

(** A registry value as [winreg.QueryValueEx] returns it: a string, or a
    value of another type. *)
Inductive RegValue : Type :=
| RegStr (val : string)
| RegOther.

(** What the script asks of the machine it runs on.  [winreg] is [None]
    when the module cannot be imported; a query returns [None] when
    [OpenKey] or [QueryValueEx] raises. *)
Record Host : Type := {
  platform : string;                              (* sys.platform *)
  expanduser : string -> string;                  (* os.path.expanduser *)
  expandvars : string -> string;                  (* os.path.expandvars *)
  join : string -> string -> string;              (* os.path.join *)
  winreg : option (Hive -> string -> string -> option RegValue)
}.

(** [s.rstrip()] and [s.strip()]. *)
Fixpoint rstrip (s : string) : string :=
  match s with
  | EmptyString => EmptyString
  | String c s' =>
      match rstrip s' with
      | EmptyString =>
          if Text.is_space c then EmptyString else String c EmptyString
      | r => String c r
      end
  end.

Definition strip (s : string) : string := rstrip (Text.skip_space s).

Definition read_registry_value (h : Host) (root : Hive)
    (subkey value_name : string) : option string :=
  match winreg h with
  | None => None
  | Some query =>
      match query root subkey value_name with
      | Some (RegStr val) =>
          if negb (Text.is_empty (strip val)) then Some val else None
      | Some RegOther => None
      | None => None
      end
  end.

(** The test every candidate root undergoes. *)
Definition is_steam_root (h : Host) (fs : FileSystem) (p : string) : bool :=
  (isdir fs p && isdir fs (join h p "steamapps"))%bool.

(** The loops over [candidates] on macOS and Linux. *)
Fixpoint first_root (h : Host) (fs : FileSystem) (candidates : list string)
  : option string :=
  match candidates with
  | [] => None
  | c :: rest =>
      let p := safe_realpath fs c in
      if is_steam_root h fs p then Some p else first_root h fs rest
  end.

(** The loop over the registry values. *)
Fixpoint first_registry_root (h : Host) (fs : FileSystem)
    (candidates : list (Hive * string * string)) : option string :=
  match candidates with
  | [] => None
  | (root, subkey, value_name) :: rest =>
      match read_registry_value h root subkey value_name with
      | Some v =>
          if Text.is_empty v then first_registry_root h fs rest
          else
            let p := safe_realpath fs v in
            if is_steam_root h fs p then Some p
            else first_registry_root h fs rest
      | None => first_registry_root h fs rest
      end
  end.

(** The loop over [fallback]. *)
Fixpoint first_fallback_root (h : Host) (fs : FileSystem)
    (fallback : list string) : option string :=
  match fallback with
  | [] => None
  | c :: rest =>
      if Text.is_empty c then first_fallback_root h fs rest
      else
        let p := safe_realpath fs c in
        if is_steam_root h fs p then Some p
        else first_fallback_root h fs rest
  end.

Definition find_steam_path (h : Host) (fs : FileSystem) : option string :=
  let plat := Text.lower (platform h) in
  if String.eqb plat "darwin" then
    first_root h fs [expanduser h "~/Library/Application Support/Steam"]
  else if prefix "linux" plat then
    first_root h fs
      [expanduser h "~/.steam/steam";
       expanduser h "~/.local/share/Steam";
       expanduser h "~/.var/app/com.valvesoftware.Steam/.local/share/Steam"]
  else
    match winreg h with
    | Some _ =>
        match first_registry_root h fs
                [(HKEY_CURRENT_USER, "Software\Valve\Steam", "SteamPath");
                 (HKEY_LOCAL_MACHINE, "Software\Valve\Steam", "InstallPath");
                 (HKEY_LOCAL_MACHINE, "Software\WOW6432Node\Valve\Steam",
                  "InstallPath")] with
        | Some p => Some p
        | None =>
            first_fallback_root h fs
              [expandvars h "%ProgramFiles(x86)%\Steam";
               expandvars h "%ProgramFiles%\Steam"]
        end
    | None => None
    end.

(** ** The libraries of an installation *)

(** The loop of [get_all_steamapps_folders] over the libraries of the
    configuration. *)
Fixpoint append_steamapps (fs : FileSystem) (libs out : list string)
  : list string :=
  match libs with
  | [] => out
  | lib :: rest =>
      let sa := path_join lib "steamapps" in
      if isdir fs sa
      then append_steamapps fs rest (out ++ [safe_realpath fs sa])
      else append_steamapps fs rest out
  end.

Definition get_all_steamapps_folders (fs : FileSystem) (steam_path : string)
  : list string :=
  let main_sa := path_join steam_path "steamapps" in
  let out := if isdir fs main_sa then [safe_realpath fs main_sa] else [] in
  let lib_vdf := path_join main_sa "libraryfolders.vdf" in
  let out := append_steamapps fs (parse_libraryfolders_vdf fs lib_vdf) out in
  dedup_loop out [] [].

(** ** The program from its first line *)

(** What a run prints: one of the two messages that end it early, or the
    root, the libraries and the lines of the loop. *)
Inductive Outcome : Type :=
| SteamNotFound
| SteamappsNotFound (steam_path : string)
| Monitored (steam_path : string) (libraries : list string)
            (lines : list Line).

(** [monitor_steam_downloads] from its first line, on a host whose
    [os.path.join] is the one of POSIX: [fs] is the file system while the
    installation is located, [start] the clock read before the loop. *)
Definition run_monitor (h : Host) (fs : FileSystem) (start : float)
    (ticks : list Tick) : Outcome :=
  match find_steam_path h fs with
  | None => SteamNotFound
  | Some steam_path =>
      if Text.is_empty steam_path then SteamNotFound
      else
        match get_all_steamapps_folders fs steam_path with
        | [] => SteamappsNotFound steam_path
        | steamapps_folders =>
            Monitored steam_path steamapps_folders
              (monitor_steam_downloads steam_path steamapps_folders start
                 ticks)
        end
  end.

(** The directory [steamapps] of a library root, when it exists. *)
Definition steamapps_of (fs : FileSystem) (root : string) : option string :=
  let sa := path_join root "steamapps" in
  if isdir fs sa then Some (safe_realpath fs sa) else None.

(** ** Reading the content log *)

(** What one line of the log says: a pause when it holds the word pause
    in any case, else a download when it holds the word download. *)
Definition line_status (ln : string) : option Status :=
  let low := Text.lower ln in
  if Text.contains "pause" low then Some paused
  else if Text.contains "download" low then Some downloading
  else None.

(** The lines [detect_status_from_content_log] keeps of the tail of the
    log, the oldest first: all of them, or those that hold the decimal
    digits of the application id. *)
Definition log_lines (fs : FileSystem) (steam_path : string)
    (appid : option Z) : list string :=
  let log_path := path_join (path_join steam_path "logs") "content_log.txt" in
  let lines := Text.splitlines (last_file_symbols fs log_path) in
  match appid with
  | Some a => filter (Text.contains (Text.str a)) lines
  | None => lines
  end.

(** ** Quantities of the monitoring loop *)

(** The in-progress directory of an application in one library. *)
Definition downloading_path (sa : string) (appid : Z) : string :=
  path_join (path_join sa "downloading") (Text.str appid).

(** The sizes a tick can measure all lie in the range that converts to a
    float without rounding. *)
Definition sizes_in_range (t : Tick) : Prop :=
  forall p, (0 <= folder_size_bytes (tick_fs t) p < 2 ^ 53)%Z.

Definition size_in_range (st : State) : Prop :=
  match last_size st with
  | Some n => (0 <= n < 2 ^ 53)%Z
  | None => True
  end.

(** The directory entries behind the application id [a]: directories of
    the listing whose name is made of digits and reads as [a]. *)
Definition names_application (e : DirEntry) (a : Z) : Prop :=
  match e with
  | EDir name _ _ =>
      Text.isdigit name = true /\ Text.int_of_str name = Some a
  | _ => False
  end.

(** ** A Linux installation, used to exercise the statements below *)

Module Installation.

Definition home : string := "/home/u".

(** A Linux machine: [~] expands to the home directory, there is no
    registry. *)
Definition linux : Host := {|
  platform := "linux";
  expanduser p :=
    match p with
    | String "~" rest => home ++ rest
    | _ => p
    end;
  expandvars p := p;
  join := path_join;
  winreg := None
|}.

Definition root : string := "/home/u/.local/share/Steam".
Definition lib_vdf : string :=
  "/home/u/.local/share/Steam/steamapps/libraryfolders.vdf".

(** The entries of its library configuration: two directories, each under
    both styles of key, and one that does not exist. *)
Definition entries : list (vdf_key * string) :=
  [(KeyIndex "1", "/lib/b"); (KeyPath, "/lib/a"); (KeyIndex "2", "/lib/a");
   (KeyPath, "/lib/b"); (KeyIndex "3", "/lib/missing")].

(** Its disk: the second candidate root exists, and of the two libraries
    only the first has a directory [steamapps]. *)
Definition disk : FileSystem := {|
  isdir p :=
    existsb (String.eqb p)
      [root; "/home/u/.local/share/Steam/steamapps";
       "/lib/a"; "/lib/a/steamapps"; "/lib/b"];
  isfile p := String.eqb p lib_vdf;
  realpath p := Some p;
  scandir p := None;
  read_text p := if String.eqb p lib_vdf then Some (vdf_file entries) else None;
  read_tail p n := None
|}.

(** The in-progress directory of [Scenario.downloading_570 100 None] with
    its entries yielded in another order, at both levels. *)
Definition reordered_570 : FileSystem := {|
  isdir := isdir (Scenario.downloading_570 100 None);
  isfile := isfile (Scenario.downloading_570 100 None);
  realpath := realpath (Scenario.downloading_570 100 None);
  scandir p :=
    if String.eqb p "/s/steamapps/downloading/570"
    then Some [EDir "sub" None (Some [ESymlink "l"; EFile "empty" (Some 0%Z)]);
               EFile "chunk" (Some 100%Z)]
    else scandir (Scenario.downloading_570 100 None) p;
  read_text := read_text (Scenario.downloading_570 100 None);
  read_tail := read_tail (Scenario.downloading_570 100 None)
|}.

Fixpoint repeat_line (n : nat) (ln : string) : string :=
  match n with
  | O => EmptyString
  | S k => ln ++ String Text.newline (repeat_line k ln)
  end.

(** A log whose oldest line reports a pause, followed by 800 lines that
    report nothing. *)
Definition long_log : string :=
  "AppID 570 paused" ++ String Text.newline
    (repeat_line 800 "AppID 570 verifying").

(** A first sample of application 570 while the log says downloading, and
    a sample one second after [Scenario.seen_once] with five megabytes
    more and no log. *)
Definition first_result : option (State * option DownloadInfo) :=
  Eval vm_compute in
    monitor_tick Scenario.steam_path Scenario.folders
      Scenario.fresh_after_gap Scenario.back_tick.

Definition growing_tick : Tick :=
  Scenario.at_time (Scenario.downloading_570 5000100 None) 1001.
Definition growing_result : option (State * option DownloadInfo) :=
  Eval vm_compute in
    monitor_tick Scenario.steam_path Scenario.folders Scenario.seen_once
      growing_tick.

Definition start_result : option (State * option DownloadInfo) :=
  Eval vm_compute in
    monitor_tick Scenario.steam_path Scenario.folders Scenario.start
      Scenario.first_tick.

(** A sample one second after [Scenario.seen_once] with exactly 1024
    bytes more. *)
Definition threshold_tick : Tick :=
  Scenario.at_time (Scenario.downloading_570 1124 None) 1001.
Definition threshold_result : option (State * option DownloadInfo) :=
  Eval vm_compute in
    monitor_tick Scenario.steam_path Scenario.folders Scenario.seen_once
      threshold_tick.

End Installation.

(** * Properties *)

(** ** Binary64 numbers and the rationals they denote *)

Section Binary64.

Local Open Scope Z_scope.

Lemma digits2_size (m : positive) : digits2_pos m = Pos.size m.
Proof. induction m; cbn; congruence. Qed.

Lemma mantissa_lt (m : positive) :
  Zpos m < 2 ^ Zpos (digits2_pos m).
Proof.
  rewrite digits2_size.
  pose proof (Pos.size_gt m) as H.
  apply Pos2Z.pos_lt_pos in H. rewrite Pos2Z.inj_pow in H. exact H.
Qed.

Lemma mantissa_ge (m : positive) :
  2 ^ (Zpos (digits2_pos m) - 1) <= Zpos m.
Proof.
  rewrite digits2_size.
  pose proof (Pos.size_le m) as H.
  apply Pos2Z.pos_le_pos in H. rewrite Pos2Z.inj_pow in H.
  replace (Zpos (Pos.size m)) with (Z.succ (Zpos (Pos.size m) - 1)) in H by lia.
  rewrite Z.pow_succ_r in H by lia.
  change (Zpos m~0) with (2 * Zpos m) in H. lia.
Qed.

(** What [bounded] says of a mantissa and an exponent. *)
Lemma bounded_inv (m : positive) (e : Z) :
  bounded F64.prec F64.emax m e = true ->
  -1074 <= e <= 971 /\ Zpos m < 2 ^ 53 /\ (-1074 < e -> 2 ^ 52 <= Zpos m).
Proof.
  unfold bounded, canonical_mantissa, fexp, emin, F64.prec, F64.emax.
  intros H. apply andb_true_iff in H as [H1 H2].
  apply Z.eqb_eq in H1. apply Z.leb_le in H2.
  pose proof (mantissa_lt m) as Hlt. pose proof (mantissa_ge m) as Hge.
  set (d := Zpos (digits2_pos m)) in *.
  assert (Hd : 0 < d) by (unfold d; lia).
  split; [lia|]. split.
  - apply Z.lt_le_trans with (1 := Hlt). apply Z.pow_le_mono_r; lia.
  - intros He. assert (d = 53) by lia. replace 52 with (d - 1) by lia. exact Hge.
Qed.

Local Open Scope Q_scope.

Lemma two_not_0 : ~ 2 == 0.
Proof. discriminate. Qed.

Lemma pow2_pos (e : Z) : 0 < 2 ^ e.
Proof. apply Qpower_0_lt. reflexivity. Qed.

Lemma pow2_of_Z (k : Z) : (0 <= k)%Z -> 2 ^ k == inject_Z (2 ^ k).
Proof. intros H. symmetry. apply (Zpower_Qpower 2 k H). Qed.

Lemma mag_pos (m : positive) (e : Z) : 0 < F64.mag m e.
Proof.
  unfold F64.mag. apply Qmult_lt_0_compat; [|apply pow2_pos].
  unfold Qlt; cbn; lia.
Qed.

Lemma mag_shift (m : positive) (e k : Z) :
  (0 <= k)%Z -> F64.mag m (e + k) == inject_Z (Zpos m * 2 ^ k) * 2 ^ e.
Proof.
  intros Hk. unfold F64.mag.
  rewrite Qpower_plus by apply two_not_0.
  rewrite (pow2_of_Z k Hk), inject_Z_mult. ring.
Qed.

Lemma mag_lt_exp (m1 m2 : positive) (e1 e2 : Z) :
  bounded F64.prec F64.emax m1 e1 = true ->
  bounded F64.prec F64.emax m2 e2 = true ->
  (e1 < e2)%Z -> F64.mag m1 e1 < F64.mag m2 e2.
Proof.
  intros B1 B2 He.
  apply bounded_inv in B1 as (R1 & U1 & _).
  apply bounded_inv in B2 as (R2 & _ & L2).
  replace e2 with (e1 + (e2 - e1))%Z by lia.
  rewrite mag_shift by lia. unfold F64.mag.
  apply Qmult_lt_compat_r; [apply pow2_pos|].
  rewrite <- Zlt_Qlt.
  assert (2 ^ 1 <= 2 ^ (e2 - e1))%Z by (apply Z.pow_le_mono_r; lia).
  specialize (L2 ltac:(lia)). nia.
Qed.

Lemma mag_compare (m1 m2 : positive) (e1 e2 : Z) :
  bounded F64.prec F64.emax m1 e1 = true ->
  bounded F64.prec F64.emax m2 e2 = true ->
  (F64.mag m1 e1 ?= F64.mag m2 e2)
  = match (e1 ?= e2)%Z with
    | Lt => Lt
    | Gt => Gt
    | Eq => Pos.compare_cont Eq m1 m2
    end.
Proof.
  intros B1 B2.
  destruct (Z.compare_spec e1 e2) as [He|He|He].
  - subst e2. change (Pos.compare_cont Eq m1 m2) with (Pos.compare m1 m2).
    destruct (Pos.compare_spec m1 m2) as [Hm|Hm|Hm].
    + subst. apply Qeq_alt. reflexivity.
    + apply Qlt_alt. unfold F64.mag. apply Qmult_lt_compat_r; [apply pow2_pos|].
      rewrite <- Zlt_Qlt. lia.
    + apply Qgt_alt. unfold F64.mag. apply Qmult_lt_compat_r; [apply pow2_pos|].
      rewrite <- Zlt_Qlt. lia.
  - apply Qlt_alt. apply mag_lt_exp; assumption.
  - apply Qgt_alt. apply mag_lt_exp; assumption.
Qed.

Lemma Qcompare_opp (a b : Q) : (- a ?= - b) = (b ?= a).
Proof.
  unfold Qcompare. cbn [Qnum Qden Qopp].
  rewrite !Z.mul_opp_l. apply Z.compare_opp.
Qed.

Lemma to_Q_finite (s : bool) (m : positive) (e : Z) :
  F64.to_Q (S754_finite s m e) == if s then - F64.mag m e else F64.mag m e.
Proof.
  unfold F64.to_Q, F64.mag. destruct s; cbn [cond_Zopp].
  - change (inject_Z (- Zpos m)) with (- inject_Z (Zpos m)). ring.
  - reflexivity.
Qed.

(** On numbers of the format, the comparison of the library is the
    comparison of the rationals they denote. *)
Lemma compare_to_Q (x y : float) :
  F64.real x -> F64.real y ->
  SFcompare x y = Some (F64.to_Q x ?= F64.to_Q y).
Proof.
  intros [Vx Fx] [Vy Fy].
  destruct x as [sx|sx| |sx mx ex]; try discriminate;
  destruct y as [sy|sy| |sy my ey]; try discriminate.
  - reflexivity.
  - cbn [SFcompare]. f_equal. symmetry.
    rewrite (Qcompare_comp _ _ (reflexivity _) _ _ (to_Q_finite sy my ey)).
    pose proof (mag_pos my ey) as Hp. destruct sy.
    + apply Qgt_alt. cbn [F64.to_Q].
      apply Qopp_lt_compat in Hp. exact Hp.
    + apply Qlt_alt. exact Hp.
  - cbn [SFcompare]. f_equal. symmetry.
    rewrite (Qcompare_comp _ _ (to_Q_finite sx mx ex) _ _ (reflexivity _)).
    pose proof (mag_pos mx ex) as Hp. destruct sx.
    + apply Qlt_alt. cbn [F64.to_Q].
      apply Qopp_lt_compat in Hp. exact Hp.
    + apply Qgt_alt. exact Hp.
  - cbn [SFcompare]. f_equal. symmetry.
    rewrite (Qcompare_comp _ _ (to_Q_finite sx mx ex) _ _
               (to_Q_finite sy my ey)).
    cbn [F64.valid valid_binary] in Vx, Vy.
    pose proof (mag_pos mx ex) as Hx. pose proof (mag_pos my ey) as Hy.
    destruct sx, sy.
    + rewrite Qcompare_opp, (mag_compare _ _ _ _ Vy Vx).
      rewrite (Z.compare_antisym ey ex), (Pos.compare_cont_antisym).
      destruct (ey ?= ex)%Z; reflexivity.
    + apply Qlt_alt. apply Qlt_trans with 0; [|exact Hy].
      apply Qopp_lt_compat in Hx. exact Hx.
    + apply Qgt_alt. apply Qlt_trans with 0; [|exact Hx].
      apply Qopp_lt_compat in Hy. exact Hy.
    + apply mag_compare; assumption.
Qed.

Local Open Scope Z_scope.

Lemma bounded_digits (m : positive) (e : Z) :
  bounded F64.prec F64.emax m e = true -> -1074 < e ->
  Zpos (digits2_pos m) = 53.
Proof.
  unfold bounded, canonical_mantissa, fexp, emin, F64.prec, F64.emax.
  intros H He. apply andb_true_iff in H as [H1 _].
  apply Z.eqb_eq in H1. lia.
Qed.

Lemma fexp_normal (k : Z) :
  -1021 <= k -> fexp F64.prec F64.emax k = k - 53.
Proof.
  intros H. unfold fexp, emin, F64.prec, F64.emax. lia.
Qed.

Lemma div_1024_exact (m : positive) (e : Z) :
  bounded F64.prec F64.emax m e = true -> -42 <= e ->
  F64.div (S754_finite false m e) F64.f1024 = S754_finite false m (e - 10).
Proof.
  intros B He. pose proof (bounded_inv _ _ B) as (R & U & L).
  pose proof (bounded_digits m e B ltac:(lia)) as Hd.
  unfold F64.div, SFdiv, F64.f1024. cbn [xorb].
  unfold SFdiv_core_binary. cbn [Zdigits2]. rewrite Hd.
  change (Zpos (digits2_pos 4503599627370496)) with 53.
  rewrite fexp_normal by lia.
  rewrite Z.min_l by lia.
  replace (e - -42 - (53 + e - (53 + -42) - 53)) with 53 by lia.
  cbv iota beta.
  rewrite Z.shiftl_mul_pow2 by lia.
  assert (E : Z.div_eucl (Z.pos m * 2 ^ 53) 4503599627370496
              = (Zpos m~0, 0)).
  { pose proof (Z_div_mod (Z.pos m * 2 ^ 53) 4503599627370496 eq_refl) as H.
    destruct (Z.div_eucl _ _) as [q r]. destruct H as [H1 H2].
    change (2 ^ 53) with 9007199254740992 in H1.
    f_equal; lia. }
  rewrite E. cbv iota beta.
  change (new_location 4503599627370496 0) with loc_Exact.
  unfold binary_round_aux, shr_fexp.
  cbn [Zdigits2 digits2_pos shr_record_of_loc].
  change (PosDef.Pos.succ (digits2_pos m)) with (Pos.succ (digits2_pos m)).
  rewrite Pos2Z.inj_succ, Hd.
  rewrite fexp_normal by lia.
  replace (Z.succ 53 + (53 + e - (53 + -42) - 53) - 53
           - (53 + e - (53 + -42) - 53)) with 1 by lia.
  cbn [shr iter_pos shr_1 shr_m loc_of_shr_record orb round_nearest_even
       Zdigits2].
  rewrite Hd, fexp_normal by lia.
  replace (53 + (53 + e - (53 + -42) - 53 + 1) - 53
           - (53 + e - (53 + -42) - 53 + 1)) with 0 by lia.
  cbn [shr shr_m].
  replace (53 + e - (53 + -42) - 53 + 1) with (e - 10) by lia.
  replace (e - 10 <=? F64.emax - F64.prec) with true; [reflexivity|].
  symmetry. apply Z.leb_le. unfold F64.emax, F64.prec. lia.
Qed.

Lemma bounded_shift_down (m : positive) (e : Z) :
  bounded F64.prec F64.emax m e = true -> -42 <= e ->
  bounded F64.prec F64.emax m (e - 10) = true.
Proof.
  intros B He. pose proof (bounded_digits m e B ltac:(lia)) as Hd.
  pose proof (bounded_inv _ _ B) as (R & _ & _).
  unfold bounded, canonical_mantissa. rewrite Hd, fexp_normal by lia.
  apply andb_true_iff. split; [apply Z.eqb_eq | apply Z.leb_le];
    unfold F64.emax, F64.prec; lia.
Qed.

Local Open Scope Q_scope.

Lemma leb_to_Q (x y : float) :
  F64.real x -> F64.real y ->
  F64.leb x y = true <-> F64.to_Q x <= F64.to_Q y.
Proof.
  intros Hx Hy. unfold F64.leb, SFleb. rewrite (compare_to_Q x y Hx Hy).
  rewrite Qle_alt.
  destruct (F64.to_Q x ?= F64.to_Q y); split; intros H;
    try reflexivity; try discriminate; try congruence.
Qed.

Lemma ltb_to_Q (x y : float) :
  F64.real x -> F64.real y ->
  F64.ltb x y = true <-> F64.to_Q x < F64.to_Q y.
Proof.
  intros Hx Hy. unfold F64.ltb, SFltb. rewrite (compare_to_Q x y Hx Hy).
  rewrite Qlt_alt.
  destruct (F64.to_Q x ?= F64.to_Q y); split; intros H;
    try reflexivity; try discriminate.
Qed.

Lemma eqb_to_Q (x y : float) :
  F64.real x -> F64.real y ->
  F64.eqb x y = true <-> F64.to_Q x == F64.to_Q y.
Proof.
  intros Hx Hy. unfold F64.eqb, SFeqb. rewrite (compare_to_Q x y Hx Hy).
  rewrite Qeq_alt.
  destruct (F64.to_Q x ?= F64.to_Q y); split; intros H;
    try reflexivity; try discriminate.
Qed.

Lemma real_f1024 : F64.real F64.f1024.
Proof. split; reflexivity. Qed.

Lemma to_Q_f1024 : F64.to_Q F64.f1024 == 1024.
Proof. vm_compute. reflexivity. Qed.

Lemma real_zero : F64.real F64.zero.
Proof. split; reflexivity. Qed.

(** One round of the loop of [real_speed] on a number of the format: when
    the test passes, the division by 1024 is exact. *)
Lemma scale_step (val : float) :
  F64.real val ->
  (F64.leb F64.f1024 val = true ->
   F64.real (F64.div val F64.f1024)
   /\ F64.to_Q (F64.div val F64.f1024) * 1024 == F64.to_Q val
   /\ 1024 <= F64.to_Q val)
  /\ (F64.leb F64.f1024 val = false -> F64.to_Q val < 1024).
Proof.
  intros Hv. split; intros H.
  - pose proof (proj1 (leb_to_Q _ _ real_f1024 Hv) H) as Hq.
    rewrite to_Q_f1024 in Hq.
    destruct Hv as [Vv Fv].
    destruct val as [s|s| |s m e]; try discriminate.
    destruct s; [discriminate|].
    assert (He : (-42 <= e)%Z).
    { unfold F64.leb, SFleb, F64.f1024 in H. cbn [SFcompare] in H.
      destruct (Z.compare_spec (-42) e); [lia | lia | discriminate]. }
    cbn [F64.valid valid_binary] in Vv.
    rewrite (div_1024_exact m e Vv He).
    split; [split; [exact (bounded_shift_down m e Vv He)|reflexivity]|].
    split; [|exact Hq].
    unfold F64.to_Q. cbn [cond_Zopp].
    replace e with ((e - 10) + 10)%Z at 2 by lia.
    rewrite Qpower_plus by apply two_not_0.
    change (2 ^ 10) with 1024. ring.
  - apply Qnot_le_lt. intros Hq. rewrite <- to_Q_f1024 in Hq.
    apply (leb_to_Q _ _ real_f1024 Hv) in Hq. congruence.
Qed.

(** ** Rounding to the nearest integer, ties to even *)

Lemma round_half_even_cases (q : Q) :
  let f := Qfloor q in
  let r := 2 * (q - inject_Z f) in
  (round_half_even q = f /\ (r < 1 \/ (r == 1 /\ Z.even f = true)))
  \/ (round_half_even q = (f + 1)%Z /\ (1 < r \/ (r == 1 /\ Z.even f = false))).
Proof.
  destruct q as [n d]. unfold round_half_even, Qfloor. cbn [Qnum Qden].
  cbv zeta.
  assert (Hc : (2 * (n mod Zpos d) ?= Zpos d)%Z
               = (2 * ((n # d) - inject_Z (n / Zpos d)) ?= 1)).
  { unfold Qcompare. cbn [Qnum Qden Qmult Qminus Qplus Qopp inject_Z].
    rewrite Z.mod_eq by lia.
    rewrite !Z.mul_1_r, !Z.mul_1_l, Pos.mul_1_r, Pos.mul_1_l.
    f_equal; lia. }
  rewrite Hc.
  destruct (Qcompare_spec (2 * ((n # d) - inject_Z (n / Zpos d))) 1)
    as [He|Hl|Hg].
  - destruct (Z.even (n / Zpos d)) eqn:Ev.
    + left. split; [reflexivity|]. right. split; [exact He|reflexivity].
    + right. split; [reflexivity|]. right. split; [exact He|reflexivity].
  - left. split; [reflexivity|]. left. exact Hl.
  - right. split; [reflexivity|]. left. exact Hg.
Qed.

Lemma round_half_even_mono (p q : Q) :
  p <= q -> (round_half_even p <= round_half_even q)%Z.
Proof.
  intros Hpq.
  pose proof (Qfloor_resp_le p q Hpq) as Hf.
  pose proof (round_half_even_cases p) as Hp.
  pose proof (round_half_even_cases q) as Hq.
  cbv zeta in Hp, Hq.
  destruct (Z.eq_dec (Qfloor p) (Qfloor q)) as [E|E].
  - destruct Hp as [[-> _]|[-> Hp]]; destruct Hq as [[-> Hq]|[-> _]]; try lia.
    exfalso. rewrite E in Hp.
    assert (Hle : 2 * (p - inject_Z (Qfloor q)) <= 2 * (q - inject_Z (Qfloor q))).
    { apply Qmult_le_l; [reflexivity|].
      apply Qplus_le_l. exact Hpq. }
    destruct Hp as [Hp|[Hp Ep]]; destruct Hq as [Hq|[Hq Eq']].
    + apply (Qlt_irrefl 1).
      eapply Qlt_le_trans; [exact Hp|]. eapply Qle_trans; [exact Hle|].
      apply Qlt_le_weak, Hq.
    + apply (Qlt_irrefl 1).
      eapply Qlt_le_trans; [exact Hp|]. rewrite <- Hq. exact Hle.
    + apply (Qlt_irrefl 1). rewrite <- Hp at 1.
      eapply Qle_lt_trans; [exact Hle|exact Hq].
    + congruence.
  - destruct Hp as [[-> _]|[-> _]]; destruct Hq as [[-> _]|[-> _]]; lia.
Qed.

Lemma round_half_even_Z (n : Z) : round_half_even (inject_Z n) = n.
Proof.
  unfold round_half_even, inject_Z. cbn [Qnum Qden].
  rewrite Z.mod_1_r, Z.div_1_r. reflexivity.
Qed.

Lemma round_half_even_comp (p q : Q) :
  p == q -> round_half_even p = round_half_even q.
Proof.
  intros H. apply Z.le_antisymm; apply round_half_even_mono;
    rewrite H; apply Qle_refl.
Qed.

(** The rounded value is a nearest integer. *)
Lemma round_half_even_near (q : Q) :
  2 * Qabs (inject_Z (round_half_even q) - q) <= 1.
Proof.
  pose proof (round_half_even_cases q) as H. cbv zeta in H.
  pose proof (Qfloor_le q) as Hlo. pose proof (Qlt_floor q) as Hhi.
  rewrite inject_Z_plus in Hhi. change (inject_Z 1) with 1 in Hhi.
  destruct H as [[-> H]|[-> H]].
  - set (f := inject_Z (Qfloor q)) in *.
    apply Qabs_case; intros _; destruct H as [H|[H _]]; lra.
  - rewrite inject_Z_plus. change (inject_Z 1) with 1.
    set (f := inject_Z (Qfloor q)) in *.
    apply Qabs_case; intros _; destruct H as [H|[H _]]; lra.
Qed.

(** Halfway between two integers, the rounded value is the even one. *)
Lemma round_half_even_tie (q : Q) :
  2 * Qabs (inject_Z (round_half_even q) - q) == 1 ->
  Z.even (round_half_even q) = true.
Proof.
  pose proof (round_half_even_cases q) as H. cbv zeta in H.
  pose proof (Qfloor_le q) as Hlo. pose proof (Qlt_floor q) as Hhi.
  rewrite inject_Z_plus in Hhi. change (inject_Z 1) with 1 in Hhi.
  destruct H as [[-> H]|[-> H]].
  - set (f := inject_Z (Qfloor q)) in *. intros Ht.
    rewrite Qabs_neg in Ht by lra.
    destruct H as [H|[_ H]]; [lra|exact H].
  - rewrite inject_Z_plus. change (inject_Z 1) with 1.
    set (f := inject_Z (Qfloor q)) in *. intros Ht.
    rewrite Qabs_pos in Ht by lra.
    destruct H as [H|[_ H]]; [lra|].
    change (Qfloor q + 1)%Z with (Z.succ (Qfloor q)).
    rewrite Z.even_succ, <- Z.negb_even, H. reflexivity.
Qed.

Lemma unit_factor_pos (i : nat) : 0 < unit_factor i.
Proof.
  unfold unit_factor. change 0 with (inject_Z 0). rewrite <- Zlt_Qlt.
  apply Z.pow_pos_nonneg; lia.
Qed.

Lemma unit_factor_S (i : nat) : unit_factor (S i) == 1024 * unit_factor i.
Proof.
  unfold unit_factor. rewrite Nat2Z.inj_succ, Z.pow_succ_r by lia.
  rewrite inject_Z_mult. reflexivity.
Qed.

Lemma unit_factor_mono (i j : nat) :
  (i <= j)%nat -> unit_factor i <= unit_factor j.
Proof.
  intros H. unfold unit_factor. rewrite <- Zle_Qle.
  apply Z.pow_le_mono_r; lia.
Qed.

Lemma scale_loop_spec (fuel : nat) :
  forall (val val' : float) (i i' : nat),
    F64.real val -> (4 <= i + fuel)%nat -> (i <= 3)%nat ->
    scale_loop fuel val i = (val', i') ->
    F64.real val' /\ (i <= i' <= 3)%nat
    /\ F64.to_Q val' * unit_factor (i' - i) == F64.to_Q val
    /\ ((i' < 3)%nat -> F64.to_Q val' < 1024)
    /\ (forall j, (i <= j < i')%nat ->
                  1024 * unit_factor (j - i) <= F64.to_Q val)
    /\ F64.sign val' = F64.sign val.
Proof.
  induction fuel as [|fuel IH]; intros val val' i i' Hv Hfuel Hi Hloop;
    [lia|].
  cbn [scale_loop] in Hloop.
  change (List.length units - 1)%nat with 3%nat in Hloop.
  destruct (scale_step val Hv) as [Hyes Hno].
  destruct (F64.leb F64.f1024 val) eqn:Hle;
    [destruct (i <? 3)%nat eqn:Hlt|]; cbn [andb] in Hloop.
  - apply Nat.ltb_lt in Hlt.
    destruct (Hyes eq_refl) as (Hr1 & Hq1 & Hge).
    destruct (IH (F64.div val F64.f1024) val' (S i) i' Hr1
                ltac:(lia) ltac:(lia) Hloop)
      as (Hr' & Hi' & Hq' & Hlow & Hsmall & Hs).
    split; [exact Hr'|]. split; [lia|].
    assert (Hsign : F64.sign (F64.div val F64.f1024) = F64.sign val).
    { destruct Hv as [Vv Fv].
      destruct val as [s|s| |s m e]; try discriminate.
      destruct s; [discriminate|].
      assert (He : (-42 <= e)%Z).
      { unfold F64.leb, SFleb, F64.f1024 in Hle. cbn [SFcompare] in Hle.
        destruct (Z.compare_spec (-42) e); [lia | lia | discriminate]. }
      rewrite (div_1024_exact m e Vv He). reflexivity. }
    split; [|split; [exact Hlow|split; [|congruence]]].
    + replace (i' - i)%nat with (S (i' - S i)) by lia.
      rewrite unit_factor_S, <- Hq1, <- Hq'. ring.
    + intros j Hj. destruct (Nat.eq_dec j i) as [->|Hne].
      * rewrite Nat.sub_diag. change (unit_factor 0) with 1. lra.
      * replace (j - i)%nat with (S (j - S i)) by lia.
        rewrite unit_factor_S.
        pose proof (Hsmall j ltac:(lia)) as Hs'. lra.
  - inversion Hloop; subst. apply Nat.ltb_ge in Hlt.
    split; [exact Hv|]. split; [lia|].
    split; [rewrite Nat.sub_diag; change (unit_factor 0) with 1; ring|].
    split; [lia|]. split; [intros j Hj; lia|reflexivity].
  - inversion Hloop; subst.
    split; [exact Hv|]. split; [lia|].
    split; [rewrite Nat.sub_diag; change (unit_factor 0) with 1; ring|].
    split; [intros _; apply Hno; reflexivity|].
    split; [intros j Hj; lia|reflexivity].
Qed.

(** [real_speed] on a number of the format that is not negative. *)
Lemma real_speed_scaled_spec (x val : float) (i : nat) :
  F64.real x -> 0 <= F64.to_Q x ->
  real_speed_scaled x = (val, i) ->
  F64.real val /\ (i <= 3)%nat
  /\ F64.to_Q val * unit_factor i == F64.to_Q x
  /\ ((i < 3)%nat -> F64.to_Q val < 1024)
  /\ (forall j, (j < i)%nat -> 1024 * unit_factor j <= F64.to_Q x)
  /\ F64.sign val = F64.sign x.
Proof.
  intros Hx H0 Hs. unfold real_speed_scaled in Hs.
  assert (Hneg : F64.ltb x F64.zero = false).
  { destruct (F64.ltb x F64.zero) eqn:E; [|reflexivity].
    apply (ltb_to_Q _ _ Hx real_zero) in E. cbn [F64.to_Q F64.zero] in E.
    lra. }
  rewrite Hneg in Hs.
  destruct (scale_loop_spec (List.length units) x val 0 i Hx
              (Nat.le_refl 4) (Nat.le_0_l 3) Hs)
    as (Hr & Hi & Hq & Hlow & Hsmall & Hsg).
  rewrite Nat.sub_0_r in Hq.
  split; [exact Hr|]. split; [lia|]. split; [exact Hq|].
  split; [exact Hlow|]. split; [|exact Hsg].
  intros j Hj. specialize (Hsmall j ltac:(lia)).
  rewrite Nat.sub_0_r in Hsmall. exact Hsmall.
Qed.

Lemma to_Q_abs (val : float) :
  0 <= F64.to_Q val -> F64.to_Q (F64.abs val) == F64.to_Q val.
Proof.
  destruct val as [s|s| |s m e]; try reflexivity.
  destruct s; [|reflexivity].
  intros H. exfalso. rewrite to_Q_finite in H.
  pose proof (mag_pos m e). lra.
Qed.

Lemma hundredths_nonneg (val : float) :
  0 <= F64.to_Q val ->
  hundredths val = round_half_even (F64.to_Q val * 100).
Proof.
  intros H. unfold hundredths. apply round_half_even_comp.
  rewrite (to_Q_abs val H). reflexivity.
Qed.

Lemma format_2f_real (val : float) :
  F64.real val -> format_2f val = fixed2 (F64.sign val) (hundredths val).
Proof.
  intros [_ Hf]. destruct val; try discriminate; reflexivity.
Qed.

Lemma scaled_nonneg (val : float) (i : nat) (q : Q) :
  0 <= q -> F64.to_Q val * unit_factor i == q -> 0 <= F64.to_Q val.
Proof.
  intros H0 Hq. pose proof (unit_factor_pos i) as Hp.
  apply (Qmult_le_r _ _ _ Hp). rewrite Hq. lra.
Qed.

Lemma rendered_magnitude_mono (x y : float) :
  F64.real x -> F64.real y ->
  0 <= F64.to_Q x -> F64.to_Q x <= F64.to_Q y ->
  rendered_magnitude x <= rendered_magnitude y.
Proof.
  intros Hx Hy H0 Hxy.
  unfold rendered_magnitude, displayed_value, unit_index.
  destruct (real_speed_scaled x) as [vx ix] eqn:Ex.
  destruct (real_speed_scaled y) as [vy iy] eqn:Ey.
  cbn [fst snd].
  destruct (real_speed_scaled_spec x vx ix Hx H0 Ex)
    as (_ & Hix & Hqx & Hlx & Hsx & _).
  destruct (real_speed_scaled_spec y vy iy Hy ltac:(lra) Ey)
    as (_ & Hiy & Hqy & Hly & Hsy & _).
  pose proof (scaled_nonneg vx ix _ H0 Hqx) as Hvx.
  pose proof (scaled_nonneg vy iy (F64.to_Q y) ltac:(lra) Hqy) as Hvy.
  rewrite (hundredths_nonneg vx Hvx), (hundredths_nonneg vy Hvy).
  pose proof (unit_factor_pos ix) as Px. pose proof (unit_factor_pos iy) as Py.
  destruct (Nat.lt_trichotomy ix iy) as [Hlt|[Heq|Hgt]].
  - (* a smaller unit: at most 1024.00 of it, against at least 1.00 *)
    assert (Hhx : (round_half_even (F64.to_Q vx * 100) <= 102400)%Z).
    { rewrite <- (round_half_even_Z 102400). apply round_half_even_mono.
      specialize (Hlx ltac:(lia)). change (inject_Z 102400) with 102400. lra. }
    assert (Hhy : (100 <= round_half_even (F64.to_Q vy * 100))%Z).
    { rewrite <- (round_half_even_Z 100) at 1. apply round_half_even_mono.
      change (inject_Z 100) with 100.
      assert (1 <= F64.to_Q vy); [|lra].
      apply (Qmult_le_r _ _ _ Py). rewrite Hqy.
      specialize (Hsy (iy - 1)%nat ltac:(lia)).
      replace iy with (S (iy - 1)) at 1 by lia.
      rewrite unit_factor_S. lra. }
    rewrite Zle_Qle in Hhx, Hhy.
    change (inject_Z 102400) with 102400 in Hhx.
    change (inject_Z 100) with 100 in Hhy.
    set (hx := inject_Z (round_half_even (F64.to_Q vx * 100))) in *.
    set (hy := inject_Z (round_half_even (F64.to_Q vy * 100))) in *.
    apply Qle_trans with (unit_factor (S ix)).
    + rewrite unit_factor_S.
      setoid_replace (1024 * unit_factor ix) with (102400 / 100 * unit_factor ix)
        by (field).
      apply Qmult_le_compat_r; [|lra].
      apply Qmult_le_compat_r; [exact Hhx|]. discriminate.
    + apply Qle_trans with (unit_factor iy);
        [apply unit_factor_mono; lia|].
      setoid_replace (unit_factor iy) with (100 / 100 * unit_factor iy) at 1
        by (field).
      apply Qmult_le_compat_r; [|lra].
      apply Qmult_le_compat_r; [exact Hhy|]. discriminate.
  - subst iy.
    assert (Hv : F64.to_Q vx <= F64.to_Q vy).
    { apply (Qmult_le_r _ _ _ Px). rewrite Hqx, Hqy. exact Hxy. }
    apply Qmult_le_compat_r; [|lra].
    apply Qmult_le_compat_r; [|discriminate].
    rewrite <- Zle_Qle. apply round_half_even_mono. lra.
  - exfalso. specialize (Hly ltac:(lia)). specialize (Hsx iy Hgt).
    assert (F64.to_Q y < 1024 * unit_factor iy); [|lra].
    rewrite <- Hqy. apply Qmult_lt_compat_r; assumption.
Qed.

(** *** Integers as numbers of the format *)

Local Open Scope Z_scope.

Lemma digits2_iter_xO (k m : positive) :
  Zpos (digits2_pos (Pos.iter xO m k)) = Zpos (digits2_pos m) + Zpos k.
Proof.
  induction k using Pos.peano_ind.
  - cbn. lia.
  - rewrite Pos.iter_succ. cbn [digits2_pos]. lia.
Qed.

Lemma iter_xO_value (k m : positive) :
  Zpos (Pos.iter xO m k) = Zpos m * 2 ^ Zpos k.
Proof.
  induction k using Pos.peano_ind.
  - cbn. lia.
  - rewrite Pos.iter_succ, Pos2Z.inj_succ, Z.pow_succ_r by lia.
    change (Zpos (Pos.iter xO m k)~0) with (2 * Zpos (Pos.iter xO m k)).
    lia.
Qed.

(** A mantissa of 53 bits needs no rounding. *)
Lemma binary_round_aux_exact (s : bool) (m : positive) (e : Z) :
  Zpos (digits2_pos m) = 53 -> -1074 <= e <= 971 ->
  binary_round_aux F64.prec F64.emax s (Zpos m) e loc_Exact
  = S754_finite s m e.
Proof.
  intros Hd He. unfold binary_round_aux, shr_fexp.
  cbn [Zdigits2 shr_record_of_loc]. rewrite Hd, fexp_normal by lia.
  replace (53 + e - 53 - e) with 0 by lia.
  cbn [shr shr_m loc_of_shr_record round_nearest_even Zdigits2].
  rewrite Hd, fexp_normal by lia.
  replace (53 + e - 53 - e) with 0 by lia.
  cbn [shr shr_m].
  replace (e <=? F64.emax - F64.prec) with true; [reflexivity|].
  symmetry. apply Z.leb_le. unfold F64.emax, F64.prec. lia.
Qed.

(** A positive integer below 2^53 is a number of the format. *)
Lemma of_Z_small (m : positive) :
  Zpos m < 2 ^ 53 ->
  F64.real (F64.of_Z (Zpos m))
  /\ (F64.to_Q (F64.of_Z (Zpos m)) == inject_Z (Zpos m))%Q.
Proof.
  intros Hm.
  pose proof (mantissa_ge m) as Hge.
  assert (Hd : Zpos (digits2_pos m) <= 53).
  { destruct (Z.le_gt_cases (Zpos (digits2_pos m)) 53) as [H|H]; [exact H|].
    exfalso.
    assert (2 ^ 53 <= 2 ^ (Zpos (digits2_pos m) - 1))
      by (apply Z.pow_le_mono_r; lia).
    lia. }
  unfold F64.of_Z, binary_normalize, binary_round.
  rewrite Z.add_0_r, fexp_normal by lia.
  unfold shl_align.
  destruct (Zpos (digits2_pos m) - 53 - 0) as [|k|k] eqn:Ek; [|lia|].
  - rewrite binary_round_aux_exact by lia.
    split; [split; [|reflexivity]|].
    + unfold F64.valid, valid_binary, bounded, canonical_mantissa.
      rewrite Z.add_0_r, fexp_normal by lia.
      apply andb_true_iff. split; [apply Z.eqb_eq; lia|reflexivity].
    + unfold F64.to_Q. cbn [cond_Zopp]. change (2 ^ 0)%Q with 1%Q. ring.
  - assert (Hk : Zpos k = 53 - Zpos (digits2_pos m)) by lia.
    rewrite binary_round_aux_exact;
      [|rewrite digits2_iter_xO; lia|lia].
    split; [split; [|reflexivity]|].
    + unfold F64.valid, valid_binary, bounded, canonical_mantissa.
      rewrite digits2_iter_xO, fexp_normal by lia.
      apply andb_true_iff. split; [apply Z.eqb_eq; lia|].
      apply Z.leb_le. unfold F64.emax, F64.prec. lia.
    + unfold F64.to_Q. cbn [cond_Zopp].
      rewrite iter_xO_value, inject_Z_mult.
      replace (Zpos (digits2_pos m) - 53) with (- Zpos k) by lia.
      rewrite Qpower_opp, <- (pow2_of_Z (Zpos k)) by lia.
      field. apply Qpower_not_0. discriminate.
Qed.

Lemma of_Z_small_nonneg (n : Z) :
  0 <= n < 2 ^ 53 ->
  F64.real (F64.of_Z n) /\ (F64.to_Q (F64.of_Z n) == inject_Z n)%Q.
Proof.
  intros [H0 H1]. destruct n as [|m|m]; [|apply of_Z_small; exact H1|lia].
  split; [split; reflexivity|reflexivity].
Qed.

(** For integer byte counts below 2^53 the rendered magnitude does not
    decrease. *)
Lemma rendered_magnitude_mono_counts (n n' : Z) :
  0 <= n <= n' -> n' < 2 ^ 53 ->
  (rendered_magnitude (F64.of_Z n) <= rendered_magnitude (F64.of_Z n'))%Q.
Proof.
  intros Hn Hn'.
  destruct (of_Z_small_nonneg n ltac:(lia)) as [Hr Hq].
  destruct (of_Z_small_nonneg n' ltac:(lia)) as [Hr' Hq'].
  apply rendered_magnitude_mono; [exact Hr|exact Hr'| |].
  - rewrite Hq. change 0%Q with (inject_Z 0). rewrite <- Zle_Qle. lia.
  - rewrite Hq, Hq', <- Zle_Qle. lia.
Qed.

End Binary64.

(** ** Paths *)

Lemma str_not_empty (n : Z) : Text.is_empty (Text.str n) = false.
Proof.
  unfold Text.str, NilZero.string_of_int.
  destruct (Z.to_int n) as [d|d]; [|reflexivity].
  unfold NilZero.string_of_uint.
  destruct d; reflexivity.
Qed.

Lemma append_not_empty (a b : string) :
  Text.is_empty b = false -> Text.is_empty (a ++ b) = false.
Proof.
  intros H. destruct a; [exact H | reflexivity].
Qed.

Lemma path_join_not_empty (a b : string) :
  Text.is_empty b = false -> Text.is_empty (path_join a b) = false.
Proof.
  intros H. unfold path_join. destruct b as [|c b]; [discriminate|].
  destruct (Ascii.eqb c Text.slash); [reflexivity|].
  destruct (Text.is_empty a || ends_with_slash a)%bool;
    apply append_not_empty; reflexivity.
Qed.

Lemma get_downloading_folder_not_empty (fs : FileSystem)
    (folders : list string) (a : Z) (d : string) :
  get_downloading_folder fs folders a = Some d -> Text.is_empty d = false.
Proof.
  induction folders as [|sa rest IH]; cbn [get_downloading_folder];
    [discriminate|].
  destruct (isdir fs _); [|exact IH].
  intros H; inversion H; subst.
  apply path_join_not_empty, str_not_empty.
Qed.

(** ** Division of zero *)

Lemma zero_div_positive (dt : float) :
  F64.ltb F64.zero dt = true -> F64.div F64.zero dt = F64.zero.
Proof.
  destruct dt as [s|s| |s m e]; cbn; try discriminate.
  - destruct s; [discriminate | reflexivity].
  - destruct s; [discriminate | reflexivity].
Qed.

Lemma elapsed_floor_positive (d : float) :
  F64.ltb F64.zero (F64.max F64.f1e_6 d) = true.
Proof.
  unfold F64.max. destruct (F64.ltb F64.f1e_6 d) eqn:E; [|reflexivity].
  destruct d as [s|s| |s m e]; cbn in E; try discriminate.
  - destruct s; [discriminate | reflexivity].
  - destruct s; [discriminate | reflexivity].
Qed.

(** ** The size of a directory *)

Lemma sumZ_app (a b : list Z) : sumZ (a ++ b) = sumZ a + sumZ b.
Proof.
  induction a as [|x a IH]; cbn; [reflexivity|].
  fold (sumZ (a ++ b)). fold (sumZ a). lia.
Qed.

Lemma scan_entries_spec (es : list DirEntry) :
  forall total stack,
    exists pushed,
      scan_entries es total stack
      = (total + sumZ (map entry_total es) - sumZ (map tree_total pushed),
         (pushed ++ stack)%list)
      /\ list_sum (map dirs_of pushed) = list_sum (map dirs_of_entry es).
Proof.
  induction es as [|e es IH]; intros total stack.
  - exists []. cbn. split; [f_equal; lia|reflexivity].
  - cbn [scan_entries map].
    change (sumZ (entry_total e :: map entry_total es))
      with (entry_total e + sumZ (map entry_total es)).
    change (list_sum (dirs_of_entry e :: map dirs_of_entry es))
      with (dirs_of_entry e + list_sum (map dirs_of_entry es))%nat.
    destruct e as [n|n [sz|]|n mt sub|n|n].
    4:{ destruct (IH total (sub :: stack)) as (p & -> & Hp).
        exists (p ++ [sub])%list. rewrite <- app_assoc. cbn [app].
        rewrite !map_app, sumZ_app, list_sum_app. cbn [map list_sum].
        split.
        - f_equal. change (entry_total (EDir n mt sub)) with (tree_total sub).
          cbn [sumZ fold_right]. lia.
        - rewrite Hp.
          change (dirs_of_entry (EDir n mt sub)) with (dirs_of sub).
          change (list_sum [dirs_of sub]) with (dirs_of sub + 0)%nat. lia. }
    2:{ destruct (IH (total + sz) stack) as (p & -> & Hp). exists p.
        split; [cbn; f_equal; lia|exact Hp]. }
    all: destruct (IH total stack) as (p & -> & Hp); exists p;
      (split; [cbn; f_equal; lia|exact Hp]).
Qed.

(** With one round of fuel per directory the walk ends, with the bytes
    under the directories of the stack added to the total. *)
Lemma walk_enough (fuel : nat) :
  forall stack total,
    (list_sum (map dirs_of stack) <= fuel)%nat ->
    walk fuel stack total = Some (total + sumZ (map tree_total stack)).
Proof.
  induction fuel as [|fuel IH]; intros stack total Hfuel.
  - destruct stack as [|cur rest]; [cbn; f_equal; lia|].
    change (list_sum (map dirs_of (cur :: rest)))
      with (dirs_of cur + list_sum (map dirs_of rest))%nat in Hfuel.
    unfold dirs_of at 1 in Hfuel. lia.
  - destruct stack as [|cur rest]; [cbn; f_equal; lia|].
    change (list_sum (map dirs_of (cur :: rest)))
      with (dirs_of cur + list_sum (map dirs_of rest))%nat in Hfuel.
    cbn [walk map].
    change (sumZ (tree_total cur :: map tree_total rest))
      with (tree_total cur + sumZ (map tree_total rest)).
    unfold dirs_of at 1 in Hfuel.
    destruct cur as [es|].
    + destruct (scan_entries_spec es total rest) as (p & -> & Hp).
      rewrite IH.
      * f_equal. rewrite map_app, sumZ_app. cbn [tree_total]. lia.
      * rewrite map_app, list_sum_app, Hp. lia.
    + rewrite IH; [cbn [tree_total]; f_equal; lia|lia].
Qed.

(** [folder_size_bytes] always ends, with the bytes under the directory. *)
Lemma folder_size_bytes_total (fs : FileSystem) (path : string) :
  folder_size_bytes fs path = tree_total (scandir fs path).
Proof.
  unfold folder_size_bytes. rewrite walk_enough.
  - cbn [map sumZ fold_right]. lia.
  - change (dirs_of (scandir fs path) + 0 <= dirs_of (scandir fs path))%nat.
    lia.
Qed.

(** ** The library configuration *)


Lemma filter_filter (f g : string -> bool) (l : list string) :
  filter f (filter g l) = filter (fun x => (g x && f x)%bool) l.
Proof.
  induction l as [|a l IH]; [reflexivity|]. cbn [filter].
  destruct (g a); cbn [filter andb]; [destruct (f a)|]; rewrite IH;
    reflexivity.
Qed.

Lemma dedup_loop_first_seen (libs : list string) :
  forall seen out : list string,
    dedup_loop libs seen out
    = (out ++ filter (fun q => negb (mem q seen)) (first_seen libs))%list.
Proof.
  induction libs as [|p rest IH]; intros seen out; cbn [dedup_loop first_seen].
  - cbn. rewrite app_nil_r. reflexivity.
  - cbn [filter]. destruct (mem p seen) eqn:Hp; cbn [negb].
    + rewrite IH, filter_filter. f_equal. apply filter_ext. intros q.
      destruct (String.eqb_spec q p) as [->|Hne]; cbn [negb andb];
        [rewrite Hp|]; reflexivity.
    + rewrite IH, filter_filter, <- app_assoc. cbn [app]. do 2 f_equal.
      apply filter_ext. intros q. unfold mem. cbn [existsb].
      destruct (String.eqb q p); reflexivity.
Qed.

Lemma dedup_is_first_seen (libs : list string) :
  dedup_loop libs [] [] = first_seen libs.
Proof.
  rewrite dedup_loop_first_seen. cbn [app].
  rewrite <- (filter_ext (fun _ => true)); [|reflexivity].
  induction (first_seen libs) as [|a l IH]; [reflexivity|].
  cbn [filter]. rewrite IH. reflexivity.
Qed.

Lemma first_seen_In (l : list string) (p : string) :
  In p (first_seen l) <-> In p l.
Proof.
  induction l as [|a l IH]; [reflexivity|]. cbn [first_seen In].
  rewrite filter_In, IH. split.
  - intros [H|[H _]]; [left|right]; assumption.
  - intros [H|H]; [left; exact H|].
    destruct (String.eqb_spec p a) as [->|Hne]; [left; reflexivity|].
    right. split; [exact H|reflexivity].
Qed.

Lemma first_seen_NoDup (l : list string) : NoDup (first_seen l).
Proof.
  induction l as [|a l IH]; [constructor|]. cbn [first_seen].
  constructor.
  - rewrite filter_In. intros [_ H]. rewrite String.eqb_refl in H.
    discriminate.
  - apply NoDup_filter, IH.
Qed.






Lemma parse_is_dedup (fs : FileSystem) (path : string) :
  parse_libraryfolders_vdf fs path = dedup_loop (vdf_libs_of fs path) [] [].
Proof.
  unfold parse_libraryfolders_vdf, vdf_libs_of.
  destruct (negb (isfile fs path)); [reflexivity|].
  destruct (read_text fs path); reflexivity.
Qed.

Lemma append_libraries_isdir (fs : FileSystem) (groups : list string) :
  forall libs,
    Forall (fun p => isdir fs p = true) libs ->
    Forall (fun p => isdir fs p = true) (append_libraries fs groups libs).
Proof.
  induction groups as [|g rest IH]; intros libs H; [exact H|].
  cbn [append_libraries].
  destruct (negb _ && isdir fs _)%bool eqn:E; [|apply IH, H].
  apply IH. apply Forall_app. split; [exact H|].
  constructor; [|constructor].
  apply andb_true_iff in E. apply E.
Qed.

Lemma vdf_libs_of_isdir (fs : FileSystem) (path : string) :
  Forall (fun p => isdir fs p = true) (vdf_libs_of fs path).
Proof.
  unfold vdf_libs_of. destruct (negb (isfile fs path)); [constructor|].
  destruct (read_text fs path); [|constructor].
  unfold vdf_libs. do 2 apply append_libraries_isdir. constructor.
Qed.

(** Both directories are named twice, in both key styles; the entries keyed
    by the word path are seen first. *)
Example parse_libraryfolders_vdf_duplicates :
  vdf_libs_of Scenario.with_vdf "/s/steamapps/libraryfolders.vdf"
  = ["/lib/a"; "/lib/b"; "/lib/b"; "/lib/a"]
  /\ parse_libraryfolders_vdf Scenario.with_vdf
       "/s/steamapps/libraryfolders.vdf"
     = ["/lib/a"; "/lib/b"].
Proof.
  split; vm_compute; reflexivity.
Qed.

(** ** Display names *)

Lemma resolve_app_name_step (fs : FileSystem) (appid : Z) (sa : string)
    (rest : list string) :
  resolve_app_name fs appid (sa :: rest)
  = match manifest_display_name fs appid sa with
    | Some n => n
    | None => resolve_app_name fs appid rest
    end.
Proof.
  cbn [resolve_app_name]. unfold manifest_display_name.
  destruct (isfile fs _); [|reflexivity].
  destruct (dict_get _ _) as [n|]; [|reflexivity].
  destruct (Text.is_empty n); reflexivity.
Qed.

(** C5, as amended.  [resolve_app_name] is total and returns the name given
    by the first library, in order, whose manifest for the application
    exists and has a name that is not empty; libraries whose manifest lacks
    such a name are passed over, and the fallback name is returned when no
    library gives one. *)
Theorem resolve_app_name_first_named (fs : FileSystem) (appid : Z)
    (steamapps_folders : list string) :
  (exists pre sa post n,
      steamapps_folders = (pre ++ sa :: post)%list
      /\ Forall (fun s => manifest_display_name fs appid s = None) pre
      /\ manifest_display_name fs appid sa = Some n
      /\ Text.is_empty n = false
      /\ resolve_app_name fs appid steamapps_folders = n)
  \/ (Forall (fun s => manifest_display_name fs appid s = None)
        steamapps_folders
      /\ resolve_app_name fs appid steamapps_folders = fallback_name appid).
Proof.
  induction steamapps_folders as [|sa rest IH].
  - right. split; [constructor|reflexivity].
  - rewrite resolve_app_name_step.
    destruct (manifest_display_name fs appid sa) as [n|] eqn:E.
    + left. exists [], sa, rest, n. repeat split; try assumption.
      * constructor.
      * unfold manifest_display_name in E.
        destruct (isfile fs _); [|discriminate].
        destruct (dict_get _ _) as [n'|]; [|discriminate].
        destruct (Text.is_empty n') eqn:En; [discriminate|].
        inversion E; subst. exact En.
    + destruct IH as [(pre & sb & post & n & -> & Hpre & Hsb & Hn & Hr)
                     |[Hall Hr]].
      * left. exists (sa :: pre), sb, post, n. repeat split; try assumption.
        constructor; assumption.
      * right. split; [constructor; assumption|exact Hr].
Qed.

(** C5, as stated, fails: the first manifest found has no name, and the
    name of the second one is returned, not the fallback. *)
Lemma later_manifest_names_application :
  isfile Scenario.two_manifests (path_join "/a" (manifest_name 570)) = true
  /\ dict_get "name"
       (parse_key_value_file Scenario.two_manifests
          (path_join "/a" (manifest_name 570))) = None
  /\ resolve_name_as_specified Scenario.two_manifests 570 ["/a"; "/b"]
     = "AppID 570"
  /\ resolve_app_name Scenario.two_manifests 570 ["/a"; "/b"] = "Dota 2".
Proof.
  repeat split; vm_compute; reflexivity.
Qed.

(** ** Candidate selection *)

Lemma candidate_ltb_false (a b : candidate) :
  F64.real (fst a) -> F64.real (fst b) ->
  candidate_ltb a b = false <-> cand_le b a.
Proof.
  intros Ha Hb. unfold candidate_ltb, cand_le.
  destruct (F64.eqb (fst a) (fst b)) eqn:E.
  - apply (eqb_to_Q _ _ Ha Hb) in E. rewrite Z.ltb_ge. split.
    + intros H. right. split; [symmetry; exact E|exact H].
    + intros [H|[_ H]]; [lra|exact H].
  - assert (Hne : ~ (F64.to_Q (fst a) == F64.to_Q (fst b))%Q).
    { intros H. apply (eqb_to_Q _ _ Ha Hb) in H. congruence. }
    destruct (F64.ltb (fst a) (fst b)) eqn:L.
    + apply (ltb_to_Q _ _ Ha Hb) in L. split; [discriminate|].
      intros [H|[H _]]; [lra|symmetry in H; contradiction].
    + split; [intros _|reflexivity].
      assert (Hnl : ~ (F64.to_Q (fst a) < F64.to_Q (fst b))%Q).
      { intros H. apply (ltb_to_Q _ _ Ha Hb) in H. congruence. }
      left. destruct (Qlt_le_dec (F64.to_Q (fst b)) (F64.to_Q (fst a)))
        as [H|H]; [exact H|].
      exfalso. apply Qle_lteq in H. tauto.
Qed.

Lemma candidate_ltb_true (a b : candidate) :
  F64.real (fst a) -> F64.real (fst b) ->
  candidate_ltb a b = true -> cand_le a b.
Proof.
  intros Ha Hb. unfold candidate_ltb, cand_le.
  destruct (F64.eqb (fst a) (fst b)) eqn:E.
  - apply (eqb_to_Q _ _ Ha Hb) in E. rewrite Z.ltb_lt. intros H.
    right. split; [exact E|lia].
  - intros L. apply (ltb_to_Q _ _ Ha Hb) in L. left. exact L.
Qed.

Lemma cand_le_trans (a b c : candidate) :
  cand_le a b -> cand_le b c -> cand_le a c.
Proof.
  unfold cand_le. intros [H1|[H1 H1']] [H2|[H2 H2']].
  - left. lra.
  - left. lra.
  - left. lra.
  - right. split; [lra|lia].
Qed.

Lemma cand_le_refl (a : candidate) : cand_le a a.
Proof. right. split; [reflexivity|lia]. Qed.

Lemma insert_desc_perm (x : candidate) (l : list candidate) :
  Permutation (insert_desc x l) (x :: l).
Proof.
  induction l as [|y l IH]; cbn [insert_desc]; [reflexivity|].
  destruct (candidate_ltb x y); [|reflexivity].
  rewrite IH. apply perm_swap.
Qed.

Lemma sort_reverse_perm (l : list candidate) :
  Permutation (sort_reverse l) l.
Proof.
  induction l as [|x l IH]; cbn [sort_reverse]; [reflexivity|].
  rewrite insert_desc_perm, IH. reflexivity.
Qed.

(** The model of [list.sort(reverse=True)] does sort: every element ranks
    at least as high as those after it. *)
Lemma insert_desc_sorted (x : candidate) (l : list candidate) :
  F64.real (fst x) -> real_mtimes l ->
  StronglySorted (fun a b => cand_le b a) l ->
  StronglySorted (fun a b => cand_le b a) (insert_desc x l).
Proof.
  intros Hx Hl Hs. induction Hs as [|y l Hs IH Hy]; cbn [insert_desc].
  - constructor; constructor.
  - inversion Hl as [|? ? Hyr Hlr]; subst.
    destruct (candidate_ltb x y) eqn:L.
    + constructor; [apply IH, Hlr|].
      apply Forall_forall. intros z Hz.
      apply (Permutation_in _ (insert_desc_perm x l)) in Hz.
      destruct Hz as [<-|Hz]; [apply candidate_ltb_true; assumption|].
      rewrite Forall_forall in Hy. apply Hy, Hz.
    + apply (candidate_ltb_false _ _ Hx Hyr) in L.
      constructor; [constructor; assumption|].
      constructor; [exact L|].
      apply Forall_forall. intros z Hz. rewrite Forall_forall in Hy.
      apply cand_le_trans with y; [apply Hy, Hz|exact L].
Qed.

Lemma sort_reverse_sorted (l : list candidate) :
  real_mtimes l ->
  StronglySorted (fun a b => cand_le b a) (sort_reverse l).
Proof.
  induction 1 as [|x l Hx Hl IH]; cbn [sort_reverse]; [constructor|].
  apply insert_desc_sorted; [exact Hx| |exact IH].
  unfold real_mtimes. rewrite sort_reverse_perm. exact Hl.
Qed.

(** The head of the sorted list ranks above every candidate. *)
Lemma sort_reverse_head (l : list candidate) :
  real_mtimes l ->
  forall c rest, sort_reverse l = c :: rest ->
    In c l /\ forall x, In x l -> cand_le x c.
Proof.
  unfold real_mtimes.
  induction l as [|x l IH]; intros Hr c rest E; [discriminate|].
  inversion Hr as [|? ? Hx Hl]; subst. cbn [sort_reverse] in E.
  destruct (sort_reverse l) as [|y t] eqn:Es.
  - cbn [insert_desc] in E. inversion E; subst.
    assert (l = []).
    { apply Permutation_nil. rewrite <- Es. apply sort_reverse_perm. }
    subst. split; [left; reflexivity|].
    intros z [<-|[]]. apply cand_le_refl.
  - destruct (IH Hl y t eq_refl) as [Hy Hmax].
    assert (Hyr : F64.real (fst y)).
    { rewrite Forall_forall in Hl. apply Hl, Hy. }
    cbn [insert_desc] in E.
    destruct (candidate_ltb x y) eqn:L; inversion E; subst.
    + split; [right; exact Hy|].
      intros z [<-|Hz]; [apply candidate_ltb_true; assumption|apply Hmax, Hz].
    + apply (candidate_ltb_false _ _ Hx Hyr) in L.
      split; [left; reflexivity|].
      intros z [<-|Hz]; [apply cand_le_refl|].
      apply cand_le_trans with y; [apply Hmax, Hz|exact L].
Qed.

Lemma cand_le_antisym (a b : candidate) :
  cand_le a b -> cand_le b a -> snd a = snd b.
Proof.
  unfold cand_le. intros [H1|[H1 H1']] [H2|[H2 H2']]; try lra. lia.
Qed.

(** Selection: the application of a candidate that ranks above all. *)
Lemma select_candidate_max (cs : list candidate) (c : candidate) :
  real_mtimes cs -> In c cs -> (forall x, In x cs -> cand_le x c) ->
  select_candidate cs = Some (snd c).
Proof.
  intros Hr Hc Hmax. unfold select_candidate.
  destruct (sort_reverse cs) as [|[t a] rest] eqn:Es.
  - assert (E : cs = [])
      by (apply Permutation_nil; rewrite <- Es; apply sort_reverse_perm).
    rewrite E in Hc. contradiction.
  - destruct (sort_reverse_head cs Hr _ _ Es) as [Hin Htop].
    f_equal. change a with (snd (t, a)).
    apply cand_le_antisym; [apply Hmax, Hin | apply Htop, Hc].
Qed.

Lemma select_candidate_nonempty (cs : list candidate) :
  cs <> [] -> select_candidate cs <> None.
Proof.
  intros Hne. unfold select_candidate.
  destruct (sort_reverse cs) as [|[t a] rest] eqn:Es; [|discriminate].
  exfalso. apply Hne. apply Permutation_nil. rewrite <- Es.
  apply sort_reverse_perm.
Qed.

Lemma scan_downloading_extends (es : list DirEntry) :
  forall acc, exists l, scan_downloading es acc = (acc ++ l)%list.
Proof.
  induction es as [|e es IH]; intros acc; cbn [scan_downloading].
  - exists []. rewrite app_nil_r. reflexivity.
  - destruct e as [n|n sz|n mt ch|n|n]; try apply IH.
    + destruct (Text.isdigit n); [|apply IH].
      destruct (Text.int_of_str n) as [a|].
      * destruct (IH (acc ++ [(match mt with Some t => t | None => F64.zero end, a)])%list)
          as [l Hl].
        rewrite Hl, <- app_assoc. eexists. reflexivity.
      * exists []. rewrite app_nil_r. reflexivity.
    + exists []. rewrite app_nil_r. reflexivity.
Qed.

Lemma collect_candidates_extends (fs : FileSystem) (folders : list string) :
  forall acc, exists l, collect_candidates fs folders acc = (acc ++ l)%list.
Proof.
  induction folders as [|sa rest IH]; intros acc; cbn [collect_candidates].
  - exists []. rewrite app_nil_r. reflexivity.
  - destruct (negb (isdir fs _)); [apply IH|].
    destruct (scandir fs _) as [es|]; [|apply IH].
    destruct (scan_downloading_extends es acc) as [l1 ->].
    destruct (IH (acc ++ l1)%list) as [l2 ->].
    rewrite <- app_assoc. eexists. reflexivity.
Qed.

Lemma scan_downloading_app (pre rest : list DirEntry) :
  Forall (fun e => interrupts e = false) pre ->
  forall acc,
    scan_downloading (pre ++ rest) acc
    = scan_downloading rest (scan_downloading pre acc).
Proof.
  induction 1 as [|e pre He Hpre IH]; intros acc; [reflexivity|].
  cbn [app scan_downloading].
  destruct e as [n|n sz|n mt ch|n|n]; try apply IH.
  - cbn [interrupts] in He.
    destruct (Text.isdigit n); [|apply IH].
    destruct (Text.int_of_str n); [apply IH|discriminate].
  - discriminate.
Qed.

(** A numeric directory whose [stat] raises, reached by the scan, is
    appended with modification time zero. *)
Lemma scan_downloading_stat_failure (pre post : list DirEntry)
    (name : string) (children : option (list DirEntry)) (a : Z)
    (acc : list candidate) :
  Forall (fun e => interrupts e = false) pre ->
  Text.isdigit name = true -> Text.int_of_str name = Some a ->
  In (F64.zero, a)
     (scan_downloading (pre ++ EDir name None children :: post) acc).
Proof.
  intros Hpre Hd Hi. rewrite (scan_downloading_app _ _ Hpre).
  cbn [scan_downloading]. rewrite Hd, Hi.
  destruct (scan_downloading_extends post
              (scan_downloading pre acc ++ [(F64.zero, a)])%list) as [l ->].
  apply in_or_app. left. apply in_or_app. right. left. reflexivity.
Qed.

Lemma collect_candidates_keeps (fs : FileSystem) (folders : list string)
    (acc : list candidate) (c : candidate) :
  In c acc -> In c (collect_candidates fs folders acc).
Proof.
  intros H. destruct (collect_candidates_extends fs folders acc) as [l ->].
  apply in_or_app. left. exact H.
Qed.

Lemma collect_candidates_stat_failure (fs : FileSystem)
    (folders : list string) (sa : string) (pre post : list DirEntry)
    (name : string) (children : option (list DirEntry)) (a : Z) :
  In sa folders ->
  isdir fs (path_join sa "downloading") = true ->
  scandir fs (path_join sa "downloading")
  = Some (pre ++ EDir name None children :: post)%list ->
  Forall (fun e => interrupts e = false) pre ->
  Text.isdigit name = true -> Text.int_of_str name = Some a ->
  forall acc, In (F64.zero, a) (collect_candidates fs folders acc).
Proof.
  intros Hsa Hdir Hscan Hpre Hd Hi.
  induction folders as [|sb rest IH]; [contradiction|]. intros acc.
  cbn [collect_candidates].
  destruct Hsa as [->|Hsa].
  - rewrite Hdir, Hscan. cbn [negb].
    apply collect_candidates_keeps.
    apply scan_downloading_stat_failure; assumption.
  - destruct (negb (isdir fs (path_join sb "downloading")));
      [apply IH, Hsa|].
    destruct (scandir fs (path_join sb "downloading")); apply IH, Hsa.
Qed.

(** Two candidates, in either order: the later one is selected. *)
Lemma two_candidates_later_wins (cs : list candidate) (t1 t2 : float)
    (a1 a2 : Z) :
  Permutation cs [(t1, a1); (t2, a2)] ->
  F64.real t1 -> F64.real t2 ->
  (F64.to_Q t1 < F64.to_Q t2)%Q ->
  select_candidate cs = Some a2.
Proof.
  intros Hp H1 H2 Hlt.
  apply (select_candidate_max cs (t2, a2)).
  - unfold real_mtimes. rewrite Hp.
    constructor; [exact H1|]. constructor; [exact H2|constructor].
  - rewrite Hp. right. left. reflexivity.
  - intros x Hx. rewrite Hp in Hx.
    destruct Hx as [<-|[<-|[]]]; [left; exact Hlt|apply cand_le_refl].
Qed.

(** C3.  When the candidates collected from the libraries have a pair
    [(t2, a2)] whose modification time is the latest, and whose application
    id is the largest among the pairs with that time, the application
    detected is [a2]; and so it is for any libraries and file system whose
    candidates are the same up to their order. *)
Theorem latest_candidate_selected (fs : FileSystem)
    (steamapps_folders : list string) (t2 : float) (a2 : Z) :
  let cs := collect_candidates fs steamapps_folders [] in
  real_mtimes cs ->
  In (t2, a2) cs ->
  (forall t a, In (t, a) cs -> cand_le (t, a) (t2, a2)) ->
  detect_appid_from_downloading_dir fs steamapps_folders = Some a2
  /\ forall (fs' : FileSystem) (folders' : list string),
       Permutation (collect_candidates fs' folders' []) cs ->
       detect_appid_from_downloading_dir fs' folders' = Some a2.
Proof.
  intros cs Hr Hin Hmax.
  assert (Hmax' : forall x, In x cs -> cand_le x (t2, a2))
    by (intros [t a]; apply Hmax).
  split.
  - apply (select_candidate_max cs (t2, a2) Hr Hin Hmax').
  - intros fs' folders' Hp. unfold detect_appid_from_downloading_dir.
    apply (select_candidate_max _ (t2, a2)).
    + unfold real_mtimes. rewrite Hp. exact Hr.
    + rewrite Hp. exact Hin.
    + intros x Hx. apply Hmax'. rewrite <- Hp. exact Hx.
Qed.

(** C4, as amended.  A numeric directory whose [stat] raises, reached by
    the scan of its [downloading] directory, is not skipped: it is a
    candidate with modification time zero, so an application is detected,
    and it is this one when no other candidate ranks above it. *)
Theorem stat_failure_yields_zero_mtime (fs : FileSystem)
    (steamapps_folders : list string) (sa : string)
    (pre post : list DirEntry) (name : string)
    (children : option (list DirEntry)) (a : Z) :
  In sa steamapps_folders ->
  isdir fs (path_join sa "downloading") = true ->
  scandir fs (path_join sa "downloading")
  = Some (pre ++ EDir name None children :: post)%list ->
  Forall (fun e => interrupts e = false) pre ->
  Text.isdigit name = true -> Text.int_of_str name = Some a ->
  let cs := collect_candidates fs steamapps_folders [] in
  In (F64.zero, a) cs
  /\ detect_appid_from_downloading_dir fs steamapps_folders <> None
  /\ (real_mtimes cs ->
      (forall c, In c cs -> cand_le c (F64.zero, a)) ->
      detect_appid_from_downloading_dir fs steamapps_folders = Some a).
Proof.
  intros Hsa Hdir Hscan Hpre Hd Hi cs.
  assert (Hin : In (F64.zero, a) (collect_candidates fs steamapps_folders []))
    by (apply (collect_candidates_stat_failure fs steamapps_folders sa pre
                 post name children a); assumption).
  split; [exact Hin|]. split.
  - apply select_candidate_nonempty. intros E. rewrite E in Hin. exact Hin.
  - intros Hr Hmax. apply (select_candidate_max cs (F64.zero, a) Hr Hin Hmax).
Qed.

(** Application 10 modified at 100 seconds and application 20 at 200, the
    libraries scanned in either order. *)
Lemma latest_candidate_selected_witness :
  detect_appid_from_downloading_dir (Scenario.two_libraries 100 200)
    ["/a"; "/b"] = Some 20%Z
  /\ detect_appid_from_downloading_dir (Scenario.two_libraries 100 200)
       ["/b"; "/a"] = Some 20%Z.
Proof.
  assert (H := latest_candidate_selected (Scenario.two_libraries 100 200)
                 ["/a"; "/b"] (F64.of_Z 200) 20%Z).
  cbv zeta in H.
  assert (Hr : real_mtimes
                 (collect_candidates (Scenario.two_libraries 100 200)
                    ["/a"; "/b"] []))
    by (repeat constructor).
  assert (Hin : In (F64.of_Z 200, 20%Z)
                  (collect_candidates (Scenario.two_libraries 100 200)
                     ["/a"; "/b"] []))
    by (right; left; reflexivity).
  assert (Hmax : forall t a,
             In (t, a)
                (collect_candidates (Scenario.two_libraries 100 200)
                   ["/a"; "/b"] []) ->
             cand_le (t, a) (F64.of_Z 200, 20%Z)).
  { intros t a [E|[E|[]]]; inversion E; subst.
    - left. vm_compute. reflexivity.
    - right. split; [reflexivity|apply Z.le_refl]. }
  destruct (H Hr Hin Hmax) as [H1 H2].
  split; [exact H1|]. apply H2. apply perm_swap.
Defined.

(** Equal modification times: the larger application id is selected, in
    either order. *)
Example tie_selects_larger_appid :
  detect_appid_from_downloading_dir (Scenario.two_libraries 100 100)
    ["/a"; "/b"] = Some 20%Z
  /\ detect_appid_from_downloading_dir (Scenario.two_libraries 100 100)
       ["/b"; "/a"] = Some 20%Z.
Proof.
  split; vm_compute; reflexivity.
Qed.

(** C4, as stated, fails: the only numeric directory cannot be examined,
    and it is a candidate and the application detected. *)
Lemma stat_failure_is_selected :
  scandir Scenario.unreadable_stat (path_join "/a" "downloading")
  = Some [EDir "570" None None]
  /\ collect_candidates Scenario.unreadable_stat ["/a"] []
     = [(F64.zero, 570%Z)]
  /\ detect_appid_from_downloading_dir Scenario.unreadable_stat ["/a"]
     = Some 570%Z.
Proof.
  repeat split; vm_compute; reflexivity.
Qed.

Lemma stat_failure_yields_zero_mtime_witness :
  In (F64.zero, 570%Z)
     (collect_candidates Scenario.unreadable_stat ["/a"] [])
  /\ detect_appid_from_downloading_dir Scenario.unreadable_stat ["/a"]
     <> None.
Proof.
  assert (H := stat_failure_yields_zero_mtime Scenario.unreadable_stat
                 ["/a"] "/a" [] [] "570" None 570%Z).
  cbv zeta in H.
  destruct H as (H1 & H2 & _).
  - left; reflexivity.
  - reflexivity.
  - reflexivity.
  - constructor.
  - reflexivity.
  - reflexivity.
  - split; [exact H1|exact H2].
Defined.

(** ** The monitoring loop *)

(** The magnitude of a number of the format, and the comparison of the
    loop with its threshold. *)
Lemma real_abs (x : float) : F64.real x -> F64.real (F64.abs x).
Proof.
  intros [Hv Hf]. destruct x as [s|s| |s m e]; try discriminate.
  - split; reflexivity.
  - split; [exact Hv|reflexivity].
Qed.

Lemma to_Q_abs_magnitude (x : float) :
  (F64.to_Q (F64.abs x) == Qabs (F64.to_Q x))%Q.
Proof.
  destruct x as [s|s| |s m e]; try reflexivity.
  change (F64.abs (S754_finite s m e)) with (S754_finite false m e).
  rewrite !to_Q_finite. pose proof (mag_pos m e) as Hp.
  destruct s.
  - rewrite Qabs_opp, Qabs_pos by lra. reflexivity.
  - rewrite Qabs_pos by lra. reflexivity.
Qed.

Lemma below_threshold (speed : float) :
  F64.real speed ->
  (F64.ltb (F64.abs speed) F64.f1024 = true
   <-> (Qabs (F64.to_Q speed) < 1024)%Q).
Proof.
  intros Hr.
  rewrite (ltb_to_Q _ _ (real_abs _ Hr) real_f1024).
  rewrite to_Q_abs_magnitude, to_Q_f1024. reflexivity.
Qed.

Lemma not_finite_not_below (speed bound : float) :
  F64.is_finite speed = false ->
  F64.is_finite bound = true ->
  F64.ltb (F64.abs speed) bound = false.
Proof.
  destruct speed as [s|s| |s m e]; try discriminate; intros _;
    destruct bound as [s'|s'| |s' m' e']; try discriminate; reflexivity.
Qed.

Section Loop.

Variable steam_path : string.
Variable steamapps_folders : list string.

Definition log_hint (fs : FileSystem) (appid : Z) : Status :=
  match detect_status_from_content_log fs steam_path (Some appid) with
  | Some s => s
  | None => unknown
  end.

(** No [downloading] directory yields a candidate. *)
Definition no_candidate (t : Tick) : Prop :=
  collect_candidates (tick_fs t) steamapps_folders [] = [].

Definition cleared (st : State) : State :=
  {| last_size := None; last_appid := None;
     last_time := last_time st; zero_streak := zero_streak st |}.

(** The sample and the state that follow a measurement. *)
Definition after_measure (fs : FileSystem) (st : State) (a : Z) (now : float)
    (m : float * Status * option Z) : State * option DownloadInfo :=
  let speed := fst (fst m) in
  let streak := next_streak speed (zero_streak st) in
  ({| last_size := snd m; last_appid := Some a;
      last_time := now; zero_streak := streak |},
   Some {| appid := a;
           name := resolve_app_name fs a steamapps_folders;
           status := reconcile speed streak (snd (fst m));
           speed_bps := speed |}).

Lemma tick_detected (st : State) (t : Tick) (a : Z) :
  detect_appid_from_downloading_dir (tick_fs t) steamapps_folders = Some a ->
  monitor_tick steam_path steamapps_folders st t
  = option_map (after_measure (tick_fs t) st a (tick_now t))
      (measure (tick_fs t) st a (tick_now t)
         (get_downloading_folder (tick_fs t) steamapps_folders a)
         (log_hint (tick_fs t) a)).
Proof.
  intros Hd. unfold monitor_tick. rewrite Hd. cbv zeta.
  fold (log_hint (tick_fs t) a).
  destruct (measure _ _ _ _ _ _) as [[[speed status0] size]|];
    reflexivity.
Qed.

Lemma tick_not_detected (st : State) (t : Tick) :
  detect_appid_from_downloading_dir (tick_fs t) steamapps_folders = None ->
  monitor_tick steam_path steamapps_folders st t = Some (cleared st, None).
Proof.
  intros Hd. unfold monitor_tick. rewrite Hd. reflexivity.
Qed.

Lemma no_candidate_not_detected (t : Tick) :
  no_candidate t ->
  detect_appid_from_downloading_dir (tick_fs t) steamapps_folders = None.
Proof.
  unfold no_candidate, detect_appid_from_downloading_dir. intros ->.
  reflexivity.
Qed.

(** A tick that printed a sample detected its application and measured. *)
Lemma tick_sample_inv (st st' : State) (t : Tick) (info : DownloadInfo) :
  monitor_tick steam_path steamapps_folders st t = Some (st', Some info) ->
  exists m,
    detect_appid_from_downloading_dir (tick_fs t) steamapps_folders
    = Some (appid info)
    /\ measure (tick_fs t) st (appid info) (tick_now t)
         (get_downloading_folder (tick_fs t) steamapps_folders (appid info))
         (log_hint (tick_fs t) (appid info)) = Some m
    /\ after_measure (tick_fs t) st (appid info) (tick_now t) m
       = (st', Some info).
Proof.
  destruct (detect_appid_from_downloading_dir (tick_fs t) steamapps_folders)
    as [a|] eqn:Hd; intros H.
  - rewrite (tick_detected st t a Hd) in H.
    destruct (measure _ _ _ _ _ _) as [m|] eqn:Hm; [|discriminate].
    cbn [option_map] in H.
    assert (Ha : a = appid info).
    { unfold after_measure in H. inversion H. reflexivity. }
    subst a. exists m. repeat split; [exact Hm|].
    inversion H. reflexivity.
  - rewrite (tick_not_detected st t Hd) in H. discriminate.
Qed.

Lemma reconcile_streak (speed : float) (streak : nat) (status : Status) :
  (2 <= streak)%nat -> reconcile speed streak status = paused.
Proof.
  intros H. unfold reconcile.
  apply Nat.leb_le in H. rewrite H.
  destruct (F64.ltb (F64.abs speed) F64.one); reflexivity.
Qed.

(** Without a size remembered from the previous tick nothing is measured
    and nothing can raise: the speed is zero and the status is left as it
    was. *)
Lemma measure_no_baseline (fs : FileSystem) (st : State) (a : Z)
    (now : float) (dl : option string) (status0 : Status) :
  last_size st = None ->
  exists size, measure fs st a now dl status0
               = Some (F64.zero, status0, size).
Proof.
  intros H. unfold measure. rewrite H.
  destruct dl as [d|]; [|eexists; reflexivity].
  destruct (Text.is_empty d); eexists; reflexivity.
Qed.

(** The same directory size as on the previous tick of the same
    application: the speed is zero, and an absent hint becomes [paused]. *)
Lemma measure_unchanged (fs : FileSystem) (st : State) (a : Z)
    (now : float) (d : string) (status0 : Status) :
  Text.is_empty d = false ->
  last_size st = Some (folder_size_bytes fs d) ->
  last_appid st = Some a ->
  measure fs st a now (Some d) status0
  = Some (F64.zero,
          match status0 with unknown => paused | _ => status0 end,
          Some (folder_size_bytes fs d)).
Proof.
  intros Hne Hsz Hid. unfold measure. rewrite Hne, Hsz, Hid.
  cbn [same_appid]. rewrite !Z.eqb_refl, Z.sub_diag.
  change (F64.of_int 0) with (Some F64.zero). cbv iota beta zeta.
  rewrite zero_div_positive by apply elapsed_floor_positive.
  destruct status0; reflexivity.
Qed.

(** A measurement remembers the size it saw. *)
Lemma measure_size (fs : FileSystem) (st : State) (a : Z) (now : float)
    (d : string) (status0 : Status) (m : float * Status * option Z) :
  Text.is_empty d = false ->
  measure fs st a now (Some d) status0 = Some m ->
  snd m = Some (folder_size_bytes fs d).
Proof.
  intros Hne. unfold measure. rewrite Hne.
  destruct (last_size st) as [prev|];
    [destruct (same_appid (last_appid st) a);
     [destruct (F64.of_int _); [|discriminate]|]|];
    try match goal with |- context [if ?c then _ else _] => destruct c end;
    intros H; inversion H; reflexivity.
Qed.

Lemma loop_no_candidates (ticks : list Tick) (st : State) :
  Forall no_candidate ticks ->
  monitor_loop steam_path steamapps_folders st ticks
  = (Some (match ticks with [] => st | _ :: _ => cleared st end),
     repeat None (List.length ticks)).
Proof.
  revert st. induction ticks as [|t rest IH]; intros st H; [reflexivity|].
  inversion H as [|? ? Ht Hrest]; subst.
  cbn [monitor_loop].
  rewrite (tick_not_detected st t (no_candidate_not_detected t Ht)).
  rewrite (IH (cleared st) Hrest).
  destruct rest; reflexivity.
Qed.

(** C1.  On a tick that detects a candidate and prints a sample, the
    low-speed counter is the successor of what it was when the magnitude
    of the speed is below 1024 bytes per second, and zero when the
    magnitude is 1024 or more, or when the speed is infinite or not a
    number; and when the counter has reached 2 the status of the sample is
    [paused], whatever the file system (hence the log hint) and the
    earlier rules said. *)
Theorem low_speed_streak_forces_paused
    (st st' : State) (t : Tick) (info : DownloadInfo) :
  monitor_tick steam_path steamapps_folders st t = Some (st', Some info) ->
  (F64.real (speed_bps info) ->
   ((Qabs (F64.to_Q (speed_bps info)) < 1024)%Q ->
    zero_streak st' = S (zero_streak st))
   /\ ((1024 <= Qabs (F64.to_Q (speed_bps info)))%Q ->
       zero_streak st' = O))
  /\ (F64.is_finite (speed_bps info) = false -> zero_streak st' = O)
  /\ ((2 <= zero_streak st')%nat -> status info = paused).
Proof.
  intros H. destruct (tick_sample_inv _ _ _ _ H) as (m & _ & _ & Hm).
  unfold after_measure in Hm. cbv zeta in Hm.
  inversion Hm; subst; clear Hm. cbn [zero_streak speed_bps status].
  split; [|split; [|apply reconcile_streak]].
  - intros Hr. pose proof (below_threshold _ Hr) as Hb. unfold next_streak.
    destruct (F64.ltb (F64.abs (fst (fst m))) F64.f1024).
    + split; [reflexivity|]. intros Hge.
      pose proof (proj1 Hb eq_refl) as Hlt. exfalso.
      exact (Qlt_not_le _ _ Hlt Hge).
    + split; [|reflexivity]. intros Hlt.
      pose proof (proj2 Hb Hlt). discriminate.
  - intros Hn. unfold next_streak.
    rewrite (not_finite_not_below _ F64.f1024 Hn eq_refl). reflexivity.
Qed.

(** C2.  Two consecutive ticks detect the same application, its
    in-progress directory is found on both and has the same total size, and
    the clock has advanced: the second tick prints a sample whose speed is
    exactly zero and whose status, when the log gives no hint, is
    [paused]. *)
Theorem unchanged_size_zero_speed_paused
    (st st1 : State) (t1 t2 : Tick) (s1 : option DownloadInfo)
    (a : Z) (d1 d2 : string) :
  detect_appid_from_downloading_dir (tick_fs t1) steamapps_folders = Some a ->
  detect_appid_from_downloading_dir (tick_fs t2) steamapps_folders = Some a ->
  get_downloading_folder (tick_fs t1) steamapps_folders a = Some d1 ->
  get_downloading_folder (tick_fs t2) steamapps_folders a = Some d2 ->
  folder_size_bytes (tick_fs t1) d1 = folder_size_bytes (tick_fs t2) d2 ->
  F64.ltb F64.zero (F64.sub (tick_now t2) (tick_now t1)) = true ->
  monitor_tick steam_path steamapps_folders st t1 = Some (st1, s1) ->
  exists (st2 : State) (info : DownloadInfo),
    monitor_tick steam_path steamapps_folders st1 t2 = Some (st2, Some info)
    /\ appid info = a /\ speed_bps info = F64.zero
    /\ (detect_status_from_content_log (tick_fs t2) steam_path (Some a) = None
        -> status info = paused).
Proof.
  intros Ha1 Ha2 Hd1 Hd2 Hsize _ H1.
  pose proof (get_downloading_folder_not_empty _ _ _ _ Hd1) as Hne1.
  pose proof (get_downloading_folder_not_empty _ _ _ _ Hd2) as Hne2.
  rewrite (tick_detected st t1 a Ha1), Hd1 in H1.
  destruct (measure (tick_fs t1) st a _ _ _) as [m1|] eqn:Hm1;
    [|discriminate].
  pose proof (measure_size _ _ _ _ _ _ _ Hne1 Hm1) as Hsz.
  cbn [option_map] in H1. unfold after_measure in H1. cbv zeta in H1.
  inversion H1; subst st1 s1; clear H1.
  rewrite (tick_detected _ t2 a Ha2), Hd2.
  rewrite measure_unchanged;
    [|exact Hne2|cbn [last_size]; rewrite Hsz, Hsize; reflexivity
     |reflexivity].
  cbn [option_map]. unfold after_measure. cbv zeta. cbn [fst snd].
  eexists _, _. split; [reflexivity|]. cbn [appid speed_bps status].
  split; [reflexivity|]. split; [reflexivity|].
  intros Hhint. unfold log_hint. rewrite Hhint.
  unfold reconcile. destruct (2 <=? _)%nat; reflexivity.
Qed.

(** C8.  Over one or more ticks on which no in-progress directory yields a
    candidate, nothing raises, every tick prints the no-download line
    instead of a sample, and the loop ends with [last_appid] and
    [last_size] cleared (and the other two variables as they were). *)
Theorem no_candidate_clears_state
    (st : State) (t : Tick) (ticks : list Tick) :
  Forall no_candidate (t :: ticks) ->
  exists st' : State,
    monitor_loop steam_path steamapps_folders st (t :: ticks)
    = (Some st', repeat None (S (List.length ticks)))
    /\ map print_line (repeat None (S (List.length ticks)))
       = repeat NoActiveDownload (S (List.length ticks))
    /\ last_appid st' = None /\ last_size st' = None
    /\ zero_streak st' = zero_streak st /\ last_time st' = last_time st.
Proof.
  intros Hall. exists (cleared st).
  split; [apply (loop_no_candidates _ st Hall)|].
  split; [apply map_repeat|].
  repeat split.
Qed.

(** C9.  Ticks without a candidate leave the low-speed counter as it was,
    so the first tick that detects a download after such a gap counts one
    more low-speed tick on top of those before the gap, and its status is
    forced to [paused] as soon as one had been counted. *)
Theorem streak_survives_gap
    (st st1 st2 : State) (gap : list Tick) (t : Tick)
    (samples : list (option DownloadInfo)) (info : DownloadInfo) :
  gap <> [] ->
  Forall no_candidate gap ->
  monitor_loop steam_path steamapps_folders st gap = (Some st1, samples) ->
  monitor_tick steam_path steamapps_folders st1 t = Some (st2, Some info) ->
  zero_streak st1 = zero_streak st
  /\ zero_streak st2 = S (zero_streak st)
  /\ ((1 <= zero_streak st)%nat -> status info = paused).
Proof.
  intros Hne Hall Hloop Htick.
  rewrite (loop_no_candidates _ st Hall) in Hloop.
  destruct gap as [|g gap]; [contradiction|].
  inversion Hloop; subst st1 samples; clear Hloop.
  destruct (tick_sample_inv _ _ _ _ Htick) as (m & _ & Hm & Hafter).
  destruct (measure_no_baseline (tick_fs t) (cleared st) (appid info)
              (tick_now t)
              (get_downloading_folder (tick_fs t) steamapps_folders
                 (appid info))
              (log_hint (tick_fs t) (appid info)) eq_refl) as [size Hz].
  rewrite Hz in Hm. inversion Hm; subst m; clear Hm.
  unfold after_measure in Hafter. cbv zeta in Hafter.
  cbn [fst snd cleared zero_streak] in Hafter.
  change (next_streak F64.zero (zero_streak st)) with (S (zero_streak st))
    in Hafter.
  inversion Hafter; subst; clear Hafter. cbn [zero_streak status].
  split; [reflexivity|]. split; [reflexivity|].
  intros Hone. apply reconcile_streak. lia.
Qed.

End Loop.

(** The scenario of C1: one low-speed tick is counted, the next tick
    measures 20 bytes per second while the log says downloading, so that
    the counter reaches 2 and the status is [paused]; had it measured
    exactly 1024 bytes per second, the counter would be back at zero. *)
Lemma low_speed_streak_forces_paused_witness :
  (detect_status_from_content_log (tick_fs Scenario.slow_tick)
     Scenario.steam_path (Some 570%Z) = Some downloading
   /\ zero_streak Scenario.seen_once = 1%nat
   /\ zero_streak (Scenario.state_of Scenario.slow_result) = 2%nat
   /\ status (Scenario.sample_of Scenario.slow_result) = paused)
  /\ (speed_bps (Scenario.sample_of Installation.threshold_result)
      = F64.f1024
      /\ zero_streak (Scenario.state_of Installation.threshold_result)
         = 0%nat).
Proof.
  split.
  - split; [vm_compute; reflexivity|]. split; [reflexivity|].
    destruct (low_speed_streak_forces_paused Scenario.steam_path
                Scenario.folders Scenario.seen_once
                (Scenario.state_of Scenario.slow_result)
                Scenario.slow_tick
                (Scenario.sample_of Scenario.slow_result))
      as (Hcount & _ & Hpaused).
    + vm_compute; reflexivity.
    + destruct Hcount as [Hlow _]; [split; reflexivity|].
      assert (Hs : zero_streak (Scenario.state_of Scenario.slow_result)
                   = 2%nat)
        by (apply Hlow; vm_compute; reflexivity).
      split; [exact Hs|]. apply Hpaused. rewrite Hs. apply le_n.
  - split; [reflexivity|].
    destruct (low_speed_streak_forces_paused Scenario.steam_path
                Scenario.folders Scenario.seen_once
                (Scenario.state_of Installation.threshold_result)
                Installation.threshold_tick
                (Scenario.sample_of Installation.threshold_result))
      as (Hcount & _ & _).
    + vm_compute; reflexivity.
    + destruct Hcount as [_ Hreset]; [split; reflexivity|].
      apply Hreset. vm_compute. discriminate.
Defined.

(** The scenario of C2: 100 bytes at both ticks, one second apart. *)
Lemma unchanged_size_zero_speed_paused_witness :
  exists (st2 : State) (info : DownloadInfo),
    monitor_tick Scenario.steam_path Scenario.folders Scenario.seen_once
      Scenario.still_tick = Some (st2, Some info)
    /\ appid info = 570%Z
    /\ speed_bps info = F64.zero
    /\ (detect_status_from_content_log (tick_fs Scenario.still_tick)
          Scenario.steam_path (Some 570%Z) = None
        -> status info = paused).
Proof.
  apply (unchanged_size_zero_speed_paused Scenario.steam_path
           Scenario.folders Scenario.start Scenario.seen_once
           Scenario.first_tick Scenario.still_tick
           (Some (Scenario.sample_of
                    (monitor_tick Scenario.steam_path Scenario.folders
                       Scenario.start Scenario.first_tick)))
           570%Z
           "/s/steamapps/downloading/570" "/s/steamapps/downloading/570");
    vm_compute; reflexivity.
Defined.

(** The scenario of C8: two idle ticks after a download was seen. *)
Lemma no_candidate_clears_state_witness :
  last_appid Scenario.seen_once = Some 570%Z
  /\ exists st' : State,
       monitor_loop Scenario.steam_path Scenario.folders Scenario.seen_once
         Scenario.gap = (Some st', [None; None])
       /\ last_appid st' = None /\ last_size st' = None.
Proof.
  split; [reflexivity|].
  destruct (no_candidate_clears_state Scenario.steam_path Scenario.folders
              Scenario.seen_once (Scenario.at_time Scenario.idle 1001)
              [Scenario.at_time Scenario.idle 1002])
    as (st' & Hloop & _ & Hid & Hsize & _).
  - repeat constructor.
  - exists st'. split; [exact Hloop|]. split; [exact Hid|exact Hsize].
Defined.

(** The scenario of C9: one low-speed tick was counted before the gap; the
    tick after the gap is forced to [paused] although five megabytes were
    added and the log says downloading. *)
Lemma streak_survives_gap_witness :
  detect_status_from_content_log (tick_fs Scenario.back_tick)
    Scenario.steam_path (Some 570%Z) = Some downloading
  /\ zero_streak Scenario.after_gap = zero_streak Scenario.seen_once
  /\ zero_streak (Scenario.state_of Scenario.back_result) = 2%nat
  /\ ((1 <= zero_streak Scenario.seen_once)%nat
      -> status (Scenario.sample_of Scenario.back_result) = paused).
Proof.
  split; [vm_compute; reflexivity|].
  refine (streak_survives_gap Scenario.steam_path Scenario.folders
            Scenario.seen_once Scenario.after_gap
            (Scenario.state_of Scenario.back_result)
            Scenario.gap Scenario.back_tick [None; None]
            (Scenario.sample_of Scenario.back_result) _ _ _ _).
  - discriminate.
  - repeat constructor.
  - vm_compute; reflexivity.
  - vm_compute; reflexivity.
Defined.

(** A directory that grew by more than the format can hold: the division
    raises and ends the loop. *)
Example out_of_range_growth_raises :
  monitor_tick Scenario.steam_path Scenario.folders Scenario.seen_once
    (Scenario.at_time (Scenario.downloading_570 (2 ^ 1024 + 100) None) 1001)
  = None.
Proof.
  vm_compute. reflexivity.
Qed.

(** The same gap and the same tick without a low-speed tick counted
    before: the hint stands. *)
Example fresh_after_gap_is_downloading :
  zero_streak Scenario.fresh_after_gap = 0%nat
  /\ option_map (fun r => option_map status (snd r))
       (monitor_tick Scenario.steam_path Scenario.folders
          Scenario.fresh_after_gap Scenario.back_tick)
     = Some (Some downloading).
Proof.
  split; vm_compute; reflexivity.
Qed.

(** ** Formatting a speed *)

(** C10.  A negative input is replaced by zero before anything else, so it
    is rendered as zero bytes per second. *)
Theorem negative_speed_renders_zero (bytes_per_sec : float) :
  F64.ltb bytes_per_sec F64.zero = true ->
  real_speed bytes_per_sec = "0.00 B/s".
Proof.
  intros H. unfold real_speed, real_speed_scaled. rewrite H.
  vm_compute. reflexivity.
Qed.

(** In the loop: the directory shrank from 100 to 40 bytes in one second,
    the speed is -60 and the line shows zero. *)
Example shrinking_directory_prints_zero :
  option_map (fun r => (option_map speed_bps (snd r), print_line (snd r)))
    (monitor_tick Scenario.steam_path Scenario.folders Scenario.seen_once
       (Scenario.at_time (Scenario.downloading_570 40 None) 1001))
  = Some (Some (F64.of_Z (-60)), Report "AppID 570" paused "0.00 B/s").
Proof.
  vm_compute. reflexivity.
Qed.

(** The directory shrank by 300 bytes in one second. *)
Lemma negative_speed_renders_zero_witness :
  F64.ltb (F64.div (F64.of_Z (100 - 400)) F64.one) F64.zero = true
  /\ real_speed (F64.div (F64.of_Z (100 - 400)) F64.one) = "0.00 B/s".
Proof.
  split; [vm_compute; reflexivity|].
  apply (negative_speed_renders_zero (F64.div (F64.of_Z (100 - 400)) F64.one)).
  vm_compute; reflexivity.
Defined.

Lemma two_digits_length (n : Z) :
  (0 <= n < 100)%Z -> String.length (two_digits n) = 2%nat.
Proof.
  intros H.
  assert (Hall : forallb
                   (fun k => Nat.eqb (String.length (two_digits (Z.of_nat k))) 2)
                   (seq 0 100) = true) by (vm_compute; reflexivity).
  rewrite forallb_forall in Hall.
  specialize (Hall (Z.to_nat n)). rewrite Z2Nat.id in Hall by lia.
  apply Nat.eqb_eq, Hall, in_seq. lia.
Qed.

(** C7, as amended.  For an input of the format that is not negative,
    [real_speed] divides by 1024 while the value is at least 1024 and a
    larger unit remains: the unit is the smallest one in which the value,
    before rounding, is below 1024, and the last one when there is none.
    The text is the value rounded to the nearest hundredth (ties to even)
    with exactly two decimals, so that below the last unit it shows at most
    1024.00; and what the text stands for does not decrease when the input
    grows. *)
Theorem real_speed_unit_and_monotone (x y : float) :
  F64.real x -> F64.real y ->
  (0 <= F64.to_Q x)%Q -> (F64.to_Q x <= F64.to_Q y)%Q ->
  let val := fst (real_speed_scaled x) in
  let i := unit_index x in
  (i < List.length units)%nat
  /\ (F64.to_Q val == F64.to_Q x / unit_factor i)%Q
  /\ ((i < 3)%nat -> (F64.to_Q val < 1024)%Q)
  /\ (forall j, (j < i)%nat -> (1024 <= F64.to_Q x / unit_factor j)%Q)
  /\ real_speed x
     = fixed2 (F64.sign x) (hundredths val) ++ " " ++ nth i units EmptyString
  /\ String.length (two_digits (hundredths val mod 100)) = 2%nat
  /\ (2 * Qabs (inject_Z (hundredths val) - F64.to_Q val * 100) <= 1)%Q
  /\ ((2 * Qabs (inject_Z (hundredths val) - F64.to_Q val * 100) == 1)%Q ->
      Z.even (hundredths val) = true)
  /\ ((i < 3)%nat -> (displayed_value x <= 1024)%Q)
  /\ (rendered_magnitude x <= rendered_magnitude y)%Q.
Proof.
  intros Hx Hy H0 Hxy val i.
  pose proof (rendered_magnitude_mono x y Hx Hy H0 Hxy) as Hmono.
  unfold displayed_value. subst val i. unfold unit_index.
  unfold real_speed.
  destruct (real_speed_scaled x) as [val i] eqn:Ex. cbn [fst snd].
  destruct (real_speed_scaled_spec x val i Hx H0 Ex)
    as (Hr & Hi & Hq & Hlow & Hsmall & Hsg).
  pose proof (unit_factor_pos i) as Pi.
  pose proof (scaled_nonneg val i _ H0 Hq) as Hv.
  assert (Hh : (hundredths val <= 102400)%Z \/ (3 <= i)%nat).
  { destruct (Nat.lt_ge_cases i 3) as [Hlt|Hge]; [left|right; exact Hge].
    rewrite (hundredths_nonneg val Hv), <- (round_half_even_Z 102400).
    apply round_half_even_mono. specialize (Hlow Hlt).
    change (inject_Z 102400) with 102400%Q. lra. }
  split; [cbn; lia|].
  split; [rewrite <- Hq; symmetry; apply Qdiv_mult_l; lra|].
  split; [exact Hlow|].
  split.
  { intros j Hj. apply Qle_shift_div_l; [apply unit_factor_pos|].
    apply Hsmall, Hj. }
  split; [rewrite (format_2f_real val Hr), Hsg; reflexivity|].
  split.
  { apply two_digits_length. apply Z.mod_pos_bound. lia. }
  split.
  { rewrite (hundredths_nonneg val Hv). apply round_half_even_near. }
  split.
  { rewrite (hundredths_nonneg val Hv). apply round_half_even_tie. }
  split; [|exact Hmono].
  intros Hlt. destruct Hh as [Hh|Hge]; [|lia].
  apply Qle_shift_div_r; [reflexivity|].
  rewrite Zle_Qle in Hh. exact Hh.
Qed.

(** One byte per second below a mebibyte against a mebibyte. *)
Lemma real_speed_unit_and_monotone_witness :
  real_speed Scenario.below_mebibyte = "1024.00 KB/s"
  /\ real_speed Scenario.mebibyte = "1.00 MB/s"
  /\ (rendered_magnitude Scenario.below_mebibyte
      <= rendered_magnitude Scenario.mebibyte)%Q.
Proof.
  split; [vm_compute; reflexivity|]. split; [vm_compute; reflexivity|].
  refine (proj2 (proj2 (proj2 (proj2 (proj2 (proj2 (proj2 (proj2 (proj2
            (real_speed_unit_and_monotone Scenario.below_mebibyte
               Scenario.mebibyte _ _ _ _)))))))))).
  - split; reflexivity.
  - split; reflexivity.
  - vm_compute; discriminate.
  - vm_compute; discriminate.
Defined.

(** C7, as stated, fails.  One byte per second below a mebibyte is shown
    as 1024.00 in a unit that is not the last one; and five bytes per second
    are shown in bytes although their value is below 1024 in every larger
    unit as well. *)
Lemma displayed_value_reaches_1024 :
  (F64.real Scenario.below_mebibyte
   /\ (0 <= F64.to_Q Scenario.below_mebibyte)%Q
   /\ real_speed Scenario.below_mebibyte = "1024.00 KB/s"
   /\ unit_index Scenario.below_mebibyte = 1%nat
   /\ ~ (displayed_value Scenario.below_mebibyte < 1024)%Q)
  /\ (real_speed Scenario.five_bytes = "5.00 B/s"
      /\ unit_index Scenario.five_bytes = 0%nat
      /\ (F64.to_Q Scenario.five_bytes / unit_factor 3 < 1024)%Q).
Proof.
  split.
  - split; [split; reflexivity|].
    split; [vm_compute; discriminate|].
    split; [vm_compute; reflexivity|].
    split; [vm_compute; reflexivity|].
    vm_compute. discriminate.
  - split; [vm_compute; reflexivity|].
    split; vm_compute; reflexivity.
Qed.

(** * Properties of the rest of the script *)

(** ** The size of a directory, whatever the order of its entries *)

(** Induction on a directory tree, the entries of a listing included. *)
Section DirEntryInduction.

Variable P : DirEntry -> Prop.
Hypothesis Hsymlink : forall n, P (ESymlink n).
Hypothesis Hfile : forall n sz, P (EFile n sz).
Hypothesis Hdir_none : forall n mt, P (EDir n mt None).
Hypothesis Hdir : forall n mt es, Forall P es -> P (EDir n mt (Some es)).
Hypothesis Hother : forall n, P (EOther n).
Hypothesis Hfaulty : forall n, P (EFaulty n).

Fixpoint DirEntry_tree_ind (e : DirEntry) : P e :=
  match e with
  | ESymlink n => Hsymlink n
  | EFile n sz => Hfile n sz
  | EDir n mt None => Hdir_none n mt
  | EDir n mt (Some es) =>
      Hdir n mt es
        ((fix all (l : list DirEntry) : Forall P l :=
            match l with
            | [] => Forall_nil P
            | x :: l' => Forall_cons x (DirEntry_tree_ind x) (all l')
            end) es)
  | EOther n => Hother n
  | EFaulty n => Hfaulty n
  end.

End DirEntryInduction.

Lemma sumZ_nonneg (l : list Z) : Forall (fun z => 0 <= z) l -> 0 <= sumZ l.
Proof.
  induction 1 as [|z l Hz _ IH]; cbn; [lia|]. fold (sumZ l). lia.
Qed.

Lemma entry_total_nonneg (e : DirEntry) :
  sizes_nonneg e = true -> 0 <= entry_total e.
Proof.
  induction e as [n|n sz|n mt|n mt es IH|n|n] using DirEntry_tree_ind;
    cbn [sizes_nonneg entry_total]; intros H; try lia.
  - destruct sz as [sz|]; [apply Z.leb_le, H|lia].
  - apply sumZ_nonneg. rewrite Forall_map.
    rewrite forallb_forall in H. rewrite Forall_forall in IH |- *.
    intros x Hx. apply IH; [exact Hx|apply H, Hx].
Qed.

Lemma sumZ_perm (l l' : list Z) : Permutation l l' -> sumZ l = sumZ l'.
Proof.
  induction 1 as [|x l l' _ IH|x y l|l1 l2 l3 _ IH1 _ IH2]; cbn;
    try fold (sumZ l); try fold (sumZ l'); lia.
Qed.

Lemma reordered_total (es es' : list DirEntry) :
  reordered es es' ->
  sumZ (map entry_total es) = sumZ (map entry_total es').
Proof.
  induction 1 as [es es' Hp|n mt es es' rest _ IH|es1 es2 es3 _ IH1 _ IH2].
  - apply sumZ_perm, Permutation_map, Hp.
  - cbn [map entry_total sumZ fold_right]. rewrite IH. reflexivity.
  - congruence.
Qed.

(** X1.  [folder_size_bytes] always ends, and its result is the sum of the
    sizes of the regular files under the directory, at any depth: symbolic
    links, files whose [stat] raises, entries whose type cannot be read and
    directories that cannot be scanned count for nothing. *)
Theorem folder_size_bytes_sums_files (fs : FileSystem) (path : string) :
  folder_size_bytes fs path = tree_total (scandir fs path)
  /\ walk (dirs_of (scandir fs path)) [scandir fs path] 0
     = Some (tree_total (scandir fs path)).
Proof.
  split; [apply folder_size_bytes_total|].
  rewrite walk_enough.
  - cbn [map sumZ fold_right]. f_equal. lia.
  - change (dirs_of (scandir fs path) + 0 <= dirs_of (scandir fs path))%nat.
    lia.
Qed.

(** X2.  When no file reports a negative size, the size of a directory is
    not negative. *)
Theorem folder_size_bytes_nonneg (fs : FileSystem) (path : string) :
  listing_nonneg (scandir fs path) = true -> 0 <= folder_size_bytes fs path.
Proof.
  intros H. rewrite folder_size_bytes_total.
  destruct (scandir fs path) as [es|]; cbn [tree_total]; [|lia].
  apply sumZ_nonneg. rewrite Forall_map. cbn [listing_nonneg] in H.
  rewrite forallb_forall in H. apply Forall_forall. intros x Hx.
  apply entry_total_nonneg, H, Hx.
Qed.

(** X3.  The size does not depend on the order in which the scans yield
    the entries: two trees that differ in that order only, at any depth,
    have the same size. *)
Theorem folder_size_bytes_order (fs fs' : FileSystem) (path path' : string)
    (es es' : list DirEntry) :
  scandir fs path = Some es -> scandir fs' path' = Some es' ->
  reordered es es' ->
  folder_size_bytes fs path = folder_size_bytes fs' path'.
Proof.
  intros H H' Hr. rewrite !folder_size_bytes_total, H, H'.
  apply reordered_total, Hr.
Qed.

(** ** The lines a key-value file assigns *)

Lemma append_assoc (a b c : string) : (a ++ b) ++ c = a ++ (b ++ c).
Proof. induction a as [|x a IH]; cbn; [reflexivity|]. rewrite IH. reflexivity. Qed.

Lemma append_empty_r (a : string) : a ++ EmptyString = a.
Proof. induction a as [|x a IH]; cbn; [reflexivity|]. rewrite IH. reflexivity. Qed.

Lemma append_length (a b : string) :
  String.length (a ++ b) = (String.length a + String.length b)%nat.
Proof. induction a as [|x a IH]; cbn; [reflexivity|]. rewrite IH. reflexivity. Qed.

Lemma span_inv (p : ascii -> bool) (s a b : string) :
  Text.span p s = (a, b) ->
  s = a ++ b /\ Text.forallb_str p a = true /\ stops p b.
Proof.
  revert a b. induction s as [|c s IH]; intros a b H; cbn [Text.span] in H.
  - inversion H; subst. repeat split.
  - destruct (p c) eqn:Hc.
    + destruct (Text.span p s) as [a' b'] eqn:E. inversion H; subst.
      destruct (IH a' b eq_refl) as (-> & Ha & Hb).
      repeat split; [|exact Hb]. cbn. rewrite Hc, Ha. reflexivity.
    + inversion H; subst. repeat split. exact Hc.
Qed.

Lemma span_intro (p : ascii -> bool) (a b : string) :
  Text.forallb_str p a = true -> stops p b -> Text.span p (a ++ b) = (a, b).
Proof.
  intros Ha Hb. induction a as [|c a IH]; cbn [append Text.span].
  - destruct b as [|c b]; [reflexivity|]. cbn [stops] in Hb.
    cbn [Text.span]. rewrite Hb. reflexivity.
  - cbn [Text.forallb_str] in Ha. apply andb_true_iff in Ha as [Hc Ha].
    rewrite Hc, (IH Ha). reflexivity.
Qed.

Lemma skip_space_intro (w s : string) :
  all_space w = true -> stops Text.is_space s -> Text.skip_space (w ++ s) = s.
Proof.
  intros Hw Hs. unfold Text.skip_space. rewrite (span_intro _ _ _ Hw Hs).
  reflexivity.
Qed.

Lemma skip_space_inv (s : string) :
  exists w, all_space w = true /\ s = w ++ Text.skip_space s
            /\ stops Text.is_space (Text.skip_space s).
Proof.
  unfold Text.skip_space. destruct (Text.span Text.is_space s) as [w r] eqn:E.
  destruct (span_inv _ _ _ _ E) as (-> & Hw & Hr).
  exists w. repeat split; assumption.
Qed.

Lemma expect_inv (c : ascii) (s r : string) :
  Text.expect c s = Some r -> s = String c r.
Proof.
  destruct s as [|c' s]; cbn; [discriminate|].
  destruct (Ascii.eqb_spec c c') as [->|]; [|discriminate].
  intros H; inversion H; reflexivity.
Qed.

Lemma expect_intro (c : ascii) (r : string) :
  Text.expect c (String c r) = Some r.
Proof. cbn. rewrite Ascii.eqb_refl. reflexivity. Qed.

Lemma stops_quote_space (r : string) :
  stops Text.is_space (String Text.dquote r).
Proof. reflexivity. Qed.

Lemma stops_quote_not_quote (r : string) :
  stops Text.not_quote (String Text.dquote r).
Proof. reflexivity. Qed.

Lemma quoted_nonempty_intro (w g r : string) :
  all_space w = true -> no_quote g = true -> Text.is_empty g = false ->
  Text.quoted_nonempty (w ++ in_quotes g ++ r) = Some (g, r).
Proof.
  intros Hw Hg Hne. unfold Text.quoted_nonempty, in_quotes.
  cbn [append]. rewrite (skip_space_intro _ _ Hw (stops_quote_space _)).
  rewrite expect_intro. cbn [Text.bind].
  rewrite append_assoc. cbn [append].
  rewrite (span_intro _ _ _ Hg (stops_quote_not_quote _)).
  rewrite Hne, expect_intro. reflexivity.
Qed.

Lemma quoted_nonempty_inv (s g r : string) :
  Text.quoted_nonempty s = Some (g, r) ->
  exists w, all_space w = true /\ no_quote g = true
            /\ Text.is_empty g = false /\ s = w ++ in_quotes g ++ r.
Proof.
  unfold Text.quoted_nonempty. intros H.
  destruct (skip_space_inv s) as (w & Hw & Hs & _).
  destruct (Text.expect Text.dquote (Text.skip_space s)) as [r0|] eqn:E;
    [|discriminate].
  apply expect_inv in E. cbn [Text.bind] in H.
  destruct (Text.span Text.not_quote r0) as [g' r'] eqn:Eg.
  destruct (span_inv _ _ _ _ Eg) as (-> & Hg & _).
  destruct (Text.is_empty g') eqn:Hne; [discriminate|].
  destruct (Text.expect Text.dquote r') as [r''|] eqn:E'; [|discriminate].
  apply expect_inv in E'. cbn [Text.bind] in H. inversion H; subst.
  exists w. repeat split; try assumption.
  rewrite Hs at 1. rewrite E. unfold in_quotes. cbn [append].
  rewrite append_assoc. reflexivity.
Qed.

(** X4.  The lines [parse_key_value_file] reads a binding from are exactly
    those made of a quoted key and a quoted value, with white space only
    before, between and after them; the key is not empty, and neither holds
    a double quote. *)
Theorem kv_match_accepts_exactly (line k v : string) :
  Text.kv_match line = Some (k, v) <->
  exists w1 w2 w3 : string,
    all_space w1 = true /\ all_space w2 = true /\ all_space w3 = true
    /\ Text.is_empty k = false /\ no_quote k = true /\ no_quote v = true
    /\ line = w1 ++ in_quotes k ++ w2 ++ in_quotes v ++ w3.
Proof.
  split.
  - unfold Text.kv_match. intros H.
    destruct (Text.quoted_nonempty line) as [[k' r]|] eqn:Ek; [|discriminate].
    cbn [Text.bind] in H.
    destruct (quoted_nonempty_inv _ _ _ Ek) as (w1 & Hw1 & Hk & Hne & ->).
    destruct (skip_space_inv r) as (w2 & Hw2 & Hr & _).
    destruct (Text.expect Text.dquote (Text.skip_space r)) as [r1|] eqn:E1;
      [|discriminate].
    apply expect_inv in E1. cbn [Text.bind] in H.
    destruct (Text.span Text.not_quote r1) as [v' r2] eqn:Ev.
    destruct (span_inv _ _ _ _ Ev) as (-> & Hv & _).
    destruct (Text.expect Text.dquote r2) as [r3|] eqn:E2; [|discriminate].
    apply expect_inv in E2. cbn [Text.bind] in H.
    destruct (Text.is_empty (Text.skip_space r3)) eqn:E3; [|discriminate].
    inversion H; subst k' v'; clear H.
    destruct (skip_space_inv r3) as (w3 & Hw3 & Hr3 & _).
    destruct (Text.skip_space r3); [|discriminate].
    rewrite append_empty_r in Hr3. subst r3.
    exists w1, w2, w3. repeat split; try assumption.
    rewrite Hr, E1. subst r2. unfold in_quotes. cbn [append].
    rewrite !append_assoc. reflexivity.
  - intros (w1 & w2 & w3 & Hw1 & Hw2 & Hw3 & Hne & Hk & Hv & ->).
    unfold Text.kv_match.
    rewrite (quoted_nonempty_intro w1 k _ Hw1 Hk Hne). cbn [Text.bind].
    unfold in_quotes. cbn [append].
    rewrite (skip_space_intro _ _ Hw2 (stops_quote_space _)).
    rewrite expect_intro. cbn [Text.bind].
    rewrite append_assoc. cbn [append].
    rewrite (span_intro _ _ _ Hv (stops_quote_not_quote _)).
    rewrite expect_intro. cbn [Text.bind].
    rewrite <- (append_empty_r w3).
    rewrite (skip_space_intro w3 EmptyString Hw3 I). reflexivity.
Qed.

Lemma parse_lines_app (l1 l2 : list string) :
  forall out, parse_lines (l1 ++ l2) out = parse_lines l2 (parse_lines l1 out).
Proof.
  induction l1 as [|l l1 IH]; intros out; [reflexivity|].
  cbn [app parse_lines]. destruct (Text.kv_match l) as [[k v]|]; apply IH.
Qed.

Lemma parse_lines_get_none (k : string) (lines : list string) :
  forall out,
    dict_get k (parse_lines lines out) = None <->
    dict_get k out = None /\ Forall (fun l => ~ binds k l) lines.
Proof.
  induction lines as [|l lines IH]; intros out; cbn [parse_lines].
  - split; [intros H; split; [exact H|constructor]|intros [H _]; exact H].
  - destruct (Text.kv_match l) as [[k' v']|] eqn:E.
    + rewrite IH. unfold dict_set. cbn [dict_get].
      destruct (String.eqb_spec k k') as [->|Hne].
      * split; [intros [H _]; discriminate|].
        intros [_ H]. inversion H as [|? ? Hl _]; subst.
        exfalso. apply Hl. exists v'. exact E.
      * split.
        -- intros [H1 H2]. split; [exact H1|]. constructor; [|exact H2].
           intros [v Hv]. rewrite E in Hv. inversion Hv. congruence.
        -- intros [H1 H2]. split; [exact H1|]. inversion H2; assumption.
    + rewrite IH. split.
      * intros [H1 H2]. split; [exact H1|]. constructor; [|exact H2].
        intros [v Hv]. rewrite E in Hv. discriminate.
      * intros [H1 H2]. split; [exact H1|]. inversion H2; assumption.
Qed.

Lemma parse_lines_get_unbound (k : string) (lines : list string) :
  Forall (fun l => ~ binds k l) lines ->
  forall out, dict_get k (parse_lines lines out) = dict_get k out.
Proof.
  induction 1 as [|l lines Hl _ IH]; intros out; [reflexivity|].
  cbn [parse_lines]. destruct (Text.kv_match l) as [[k' v']|] eqn:E;
    [|apply IH].
  rewrite IH. unfold dict_set. cbn [dict_get].
  destruct (String.eqb_spec k k') as [->|]; [|reflexivity].
  exfalso. apply Hl. exists v'. exact E.
Qed.

(** X5.  In [parse_key_value_file] a key has the value of the last line
    that assigns it: earlier assignments of the same key are overridden,
    and lines that follow without assigning it change nothing. *)
Theorem parse_key_value_file_last_wins (fs : FileSystem) (path text : string)
    (before after : list string) (line k v : string) :
  read_text fs path = Some text ->
  Text.readlines text = (before ++ line :: after)%list ->
  Text.kv_match line = Some (k, v) ->
  Forall (fun l => ~ binds k l) after ->
  dict_get k (parse_key_value_file fs path) = Some v.
Proof.
  intros Hr Hl Hm Ha. unfold parse_key_value_file. rewrite Hr, Hl.
  rewrite parse_lines_app. cbn [parse_lines]. rewrite Hm.
  rewrite (parse_lines_get_unbound k after Ha). unfold dict_set.
  cbn [dict_get]. rewrite String.eqb_refl. reflexivity.
Qed.

(** X6.  A lookup in the result of [parse_key_value_file] finds nothing
    exactly when the file cannot be read or none of its lines assigns the
    key. *)
Theorem parse_key_value_file_missing_key (fs : FileSystem) (path k : string) :
  dict_get k (parse_key_value_file fs path) = None <->
  forall text, read_text fs path = Some text ->
               Forall (fun l => ~ binds k l) (Text.readlines text).
Proof.
  unfold parse_key_value_file. destruct (read_text fs path) as [text|].
  - rewrite parse_lines_get_none. cbn [dict_get]. split.
    + intros [_ H] t Ht. inversion Ht; subst. exact H.
    + intros H. split; [reflexivity|]. apply H. reflexivity.
  - split; [intros _ t Ht; discriminate|reflexivity].
Qed.

(** ** Reading back a library configuration *)

Lemma finditer_skip (m : string -> option (string * string)) (a b : string) :
  Text.finditer m (a ++ b) (String.length a) = Text.finditer m b 0.
Proof.
  induction a as [|c a IH]; [reflexivity|]. cbn. exact IH.
Qed.

Lemma finditer_match (m : string -> option (string * string)) (c : ascii)
    (a b g : string) :
  m (String c (a ++ b)) = Some (g, b) ->
  Text.finditer m (String c (a ++ b)) 0 = (g :: Text.finditer m b 0)%list.
Proof.
  intros H. cbn [Text.finditer]. rewrite H. f_equal.
  replace (String.length (String c (a ++ b)) - String.length b - 1)%nat
    with (String.length a)
    by (cbn [String.length]; rewrite append_length; lia).
  apply finditer_skip.
Qed.

Lemma finditer_miss (m : string -> option (string * string)) (c : ascii)
    (s : string) :
  m (String c s) = None ->
  Text.finditer m (String c s) 0 = Text.finditer m s 0.
Proof.
  intros H. cbn [Text.finditer]. rewrite H. reflexivity.
Qed.

Lemma path_entry_head (c : ascii) (s : string) :
  Text.not_quote c = true -> Text.path_entry (String c s) = None.
Proof.
  unfold Text.not_quote, Text.path_entry. cbn [Text.expect].
  rewrite Ascii.eqb_sym. intros H. apply negb_true_iff in H. rewrite H.
  reflexivity.
Qed.

Lemma index_entry_head (c : ascii) (s : string) :
  Text.not_quote c = true -> Text.index_entry (String c s) = None.
Proof.
  unfold Text.not_quote, Text.index_entry. cbn [Text.expect].
  rewrite Ascii.eqb_sym. intros H. apply negb_true_iff in H. rewrite H.
  reflexivity.
Qed.

(** A pattern that needs a quote at its head finds nothing in a run of
    other characters. *)
Lemma finditer_run (m : string -> option (string * string)) (a b : string) :
  (forall c s, Text.not_quote c = true -> m (String c s) = None) ->
  no_quote a = true ->
  Text.finditer m (a ++ b) 0 = Text.finditer m b 0.
Proof.
  intros Hm. induction a as [|c a IH]; intros Ha; [reflexivity|].
  cbn [no_quote Text.forallb_str] in Ha. apply andb_true_iff in Ha as [Hc Ha].
  cbn [append]. rewrite finditer_miss by (apply Hm, Hc).
  apply IH, Ha.
Qed.

Lemma in_quotes_app (g r : string) :
  in_quotes g ++ r = String Text.dquote (g ++ String Text.dquote r).
Proof.
  unfold in_quotes. cbn [append]. rewrite append_assoc. reflexivity.
Qed.

Lemma quoted_value (w g r : string) :
  all_space w = true -> no_quote g = true -> Text.is_empty g = false ->
  Text.quoted_nonempty (w ++ String Text.dquote (g ++ String Text.dquote r))
  = Some (g, r).
Proof.
  intros Hw Hg Hne. rewrite <- in_quotes_app.
  apply quoted_nonempty_intro; assumption.
Qed.

Lemma decimal_not_space (c : ascii) :
  Text.is_decimal c = true -> Text.is_space c = false.
Proof.
  destruct c as [[] [] [] [] [] [] [] []]; vm_compute; congruence.
Qed.

Lemma decimal_not_p (c : ascii) :
  Text.is_decimal c = true ->
  Ascii.eqb (Text.lower_char "p") (Text.lower_char c) = false.
Proof.
  destruct c as [[] [] [] [] [] [] [] []]; vm_compute; congruence.
Qed.

Lemma decimal_not_quote (c : ascii) :
  Text.is_decimal c = true -> Text.not_quote c = true.
Proof.
  destruct c as [[] [] [] [] [] [] [] []]; vm_compute; congruence.
Qed.

Lemma decimals_no_quote (d : string) :
  Text.forallb_str Text.is_decimal d = true -> no_quote d = true.
Proof.
  induction d as [|c d IH]; [reflexivity|]. cbn [Text.forallb_str no_quote].
  intros H. apply andb_true_iff in H as [Hc Hd].
  unfold no_quote in IH. rewrite (decimal_not_quote _ Hc), (IH Hd).
  reflexivity.
Qed.

(** What follows a line of the file: nothing, or the tab and the quote
    that open the next line. *)
Lemma vdf_file_shape (entries : list (vdf_key * string)) :
  vdf_file entries = EmptyString
  \/ exists r, vdf_file entries = String tab (String Text.dquote r).
Proof.
  destruct entries as [|[k v] rest]; [left; reflexivity|].
  right. cbn [vdf_file]. unfold vdf_line. eexists. reflexivity.
Qed.

Lemma key_text_no_quote (k : vdf_key) :
  key_ok k = true -> no_quote (key_text k) = true.
Proof.
  destruct k as [|d]; [reflexivity|]. cbn [key_ok key_text].
  intros H. apply andb_true_iff in H as [_ H]. apply decimals_no_quote, H.
Qed.

Section Passes.

Variable m : string -> option (string * string).
Hypothesis m_head : forall c s, Text.not_quote c = true -> m (String c s) = None.

(** One line of the file under a pattern that finds nothing at its first
    three quotes nor at its last. *)
Lemma finditer_line_miss (k : vdf_key) (v rest : string) :
  key_ok k = true -> no_quote v = true ->
  m (String Text.dquote (key_text k ++
       String Text.dquote (String tab (String tab (String Text.dquote (v ++
         String Text.dquote (String Text.newline rest))))))) = None ->
  m (String Text.dquote (String tab (String tab (String Text.dquote (v ++
         String Text.dquote (String Text.newline rest)))))) = None ->
  m (String Text.dquote (v ++
         String Text.dquote (String Text.newline rest))) = None ->
  m (String Text.dquote (String Text.newline rest)) = None ->
  Text.finditer m (vdf_line k v rest) 0 = Text.finditer m rest 0.
Proof.
  intros Hk Hv H1 H2 H3 H4. unfold vdf_line.
  rewrite finditer_miss by (apply m_head; reflexivity).
  rewrite (finditer_miss _ _ _ H1).
  rewrite (finditer_run m _ _ m_head (key_text_no_quote _ Hk)).
  rewrite (finditer_miss _ _ _ H2).
  rewrite finditer_miss by (apply m_head; reflexivity).
  rewrite finditer_miss by (apply m_head; reflexivity).
  rewrite (finditer_miss _ _ _ H3).
  rewrite (finditer_run m _ _ m_head Hv).
  rewrite (finditer_miss _ _ _ H4).
  apply finditer_miss, m_head. reflexivity.
Qed.

(** One line of the file under a pattern that matches at its first quote
    and ends at the closing quote of the value. *)
Lemma finditer_line_hit (k : vdf_key) (v rest : string) :
  m (String Text.dquote (key_text k ++
       String Text.dquote (String tab (String tab (String Text.dquote (v ++
         String Text.dquote (String Text.newline rest)))))))
  = Some (v, String Text.newline rest) ->
  Text.finditer m (vdf_line k v rest) 0 = (v :: Text.finditer m rest 0)%list.
Proof.
  intros H. unfold vdf_line.
  rewrite finditer_miss by (apply m_head; reflexivity).
  assert (E : key_text k ++
       String Text.dquote (String tab (String tab (String Text.dquote (v ++
         String Text.dquote (String Text.newline rest)))))
     = (key_text k ++
       String Text.dquote (String tab (String tab (String Text.dquote (v ++
         String Text.dquote EmptyString))))) ++ String Text.newline rest).
  { rewrite append_assoc. cbn [append]. rewrite append_assoc. reflexivity. }
  rewrite E in H |- *. rewrite (finditer_match _ _ _ _ _ H).
  f_equal. apply finditer_miss, m_head. reflexivity.
Qed.

End Passes.

Lemma value_ok_inv (v : string) :
  value_ok v = true ->
  no_quote v = true /\
  exists c v', v = String c v' /\ Text.is_space c = false
    /\ Text.is_decimal c = false
    /\ Ascii.eqb (Text.lower_char c) "p"%char = false.
Proof.
  unfold value_ok. intros H. apply andb_true_iff in H as [Hq H].
  split; [exact Hq|]. destruct v as [|c v']; [discriminate|].
  exists c, v'. apply negb_true_iff in H.
  apply orb_false_iff in H as [H Hp]. apply orb_false_iff in H as [Hs Hd].
  repeat split; assumption.
Qed.

Lemma skip_space_stop (c : ascii) (s : string) :
  Text.is_space c = false -> Text.skip_space (String c s) = String c s.
Proof.
  intros H. unfold Text.skip_space. cbn [Text.span]. rewrite H. reflexivity.
Qed.

Lemma span_decimal_stop (c : ascii) (s : string) :
  Text.is_decimal c = false ->
  Text.span Text.is_decimal (String c s) = (EmptyString, String c s).
Proof. intros H. cbn [Text.span]. rewrite H. reflexivity. Qed.

(** The path pattern on the four quotes of an indexed line. *)
Lemma path_entry_after_value (entries : list (vdf_key * string)) :
  Text.path_entry (String Text.dquote (String Text.newline (vdf_file entries)))
  = None.
Proof.
  destruct (vdf_file_shape entries) as [-> | [r ->]]; reflexivity.
Qed.

Lemma index_entry_after_value (entries : list (vdf_key * string)) :
  Text.index_entry (String Text.dquote (String Text.newline (vdf_file entries)))
  = None.
Proof.
  destruct (vdf_file_shape entries) as [-> | [r ->]]; reflexivity.
Qed.

Lemma path_entry_at_value (v r : string) :
  value_ok v = true -> Text.path_entry (String Text.dquote (v ++ r)) = None.
Proof.
  intros H. destruct (value_ok_inv _ H) as (_ & c & v' & -> & Hs & _ & Hp).
  unfold Text.path_entry. rewrite expect_intro. cbn [Text.bind append].
  rewrite (skip_space_stop _ _ Hs). cbn [Text.expect_nocase].
  rewrite Ascii.eqb_sym. change (Text.lower_char "p") with "p"%char.
  destruct (Ascii.eqb (Text.lower_char c) "p") eqn:E; [|reflexivity].
  discriminate.
Qed.

Lemma index_entry_at_value (v r : string) :
  value_ok v = true -> Text.index_entry (String Text.dquote (v ++ r)) = None.
Proof.
  intros H. destruct (value_ok_inv _ H) as (_ & c & v' & -> & Hs & Hd & _).
  unfold Text.index_entry. rewrite expect_intro. cbn [Text.bind append].
  rewrite (skip_space_stop _ _ Hs), (span_decimal_stop _ _ Hd). reflexivity.
Qed.

Lemma value_ok_nonempty (v : string) :
  value_ok v = true -> Text.is_empty v = false.
Proof.
  intros H. destruct (value_ok_inv _ H) as (_ & c & v' & -> & _). reflexivity.
Qed.

Lemma path_pass_line (k : vdf_key) (v : string)
    (rest : list (vdf_key * string)) :
  key_ok k = true -> value_ok v = true ->
  Text.finditer Text.path_entry (vdf_line k v (vdf_file rest)) 0
  = ((if is_path_key k then [v] else []) ++
     Text.finditer Text.path_entry (vdf_file rest) 0)%list.
Proof.
  intros Hk Hv. destruct (value_ok_inv _ Hv) as (Hq & _).
  destruct k as [|d]; cbn [is_path_key app].
  - apply (finditer_line_hit _ path_entry_head).
    cbn [key_text]. unfold Text.path_entry. rewrite expect_intro.
    cbn [Text.bind]. cbn [append]. rewrite skip_space_stop by reflexivity.
    cbn [Text.expect_nocase]. 
    change (Ascii.eqb (Text.lower_char "p") (Text.lower_char "p")) with true.
    change (Ascii.eqb (Text.lower_char "a") (Text.lower_char "a")) with true.
    change (Ascii.eqb (Text.lower_char "t") (Text.lower_char "t")) with true.
    change (Ascii.eqb (Text.lower_char "h") (Text.lower_char "h")) with true.
    cbv iota. cbn [Text.bind].
    rewrite skip_space_stop by reflexivity. rewrite expect_intro.
    cbn [Text.bind].
    apply (quoted_value (String tab (String tab EmptyString))).
    + reflexivity.
    + exact Hq.
    + apply value_ok_nonempty, Hv.
  - apply (finditer_line_miss _ path_entry_head); try assumption.
    + cbn [key_ok key_text] in Hk |- *. apply andb_true_iff in Hk as [Hne Hd].
      destruct d as [|c d]; [discriminate|].
      cbn [Text.forallb_str] in Hd. apply andb_true_iff in Hd as [Hc _].
      unfold Text.path_entry. rewrite expect_intro. cbn [Text.bind append].
      rewrite (skip_space_stop _ _ (decimal_not_space _ Hc)).
      cbn [Text.expect_nocase]. rewrite (decimal_not_p _ Hc). reflexivity.
    + reflexivity.
    + apply path_entry_at_value, Hv.
    + apply path_entry_after_value.
Qed.

Lemma index_pass_line (k : vdf_key) (v : string)
    (rest : list (vdf_key * string)) :
  key_ok k = true -> value_ok v = true ->
  Text.finditer Text.index_entry (vdf_line k v (vdf_file rest)) 0
  = ((if is_path_key k then [] else [v]) ++
     Text.finditer Text.index_entry (vdf_file rest) 0)%list.
Proof.
  intros Hk Hv. destruct (value_ok_inv _ Hv) as (Hq & _).
  destruct k as [|d]; cbn [is_path_key app].
  - apply (finditer_line_miss _ index_entry_head); try assumption.
    + reflexivity.
    + reflexivity.
    + apply index_entry_at_value, Hv.
    + apply index_entry_after_value.
  - apply (finditer_line_hit _ index_entry_head).
    cbn [key_ok key_text] in Hk |- *. apply andb_true_iff in Hk as [Hne Hd].
    apply negb_true_iff in Hne.
    unfold Text.index_entry. rewrite expect_intro. cbn [Text.bind].
    assert (Hs : Text.skip_space (d ++ String Text.dquote (String tab
               (String tab (String Text.dquote (v ++ String Text.dquote
                 (String Text.newline (vdf_file rest)))))))
             = d ++ String Text.dquote (String tab
               (String tab (String Text.dquote (v ++ String Text.dquote
                 (String Text.newline (vdf_file rest))))))).
    { destruct d as [|c d]; [discriminate|].
      cbn [Text.forallb_str] in Hd. apply andb_true_iff in Hd as [Hc _].
      apply skip_space_stop, decimal_not_space, Hc. }
    rewrite Hs. rewrite (span_intro _ _ _ Hd) by reflexivity.
    rewrite Hne. rewrite skip_space_stop by reflexivity.
    rewrite expect_intro. cbn [Text.bind].
    apply (quoted_value (String tab (String tab EmptyString))).
    + reflexivity.
    + exact Hq.
    + apply value_ok_nonempty, Hv.
Qed.

Lemma path_pass (entries : list (vdf_key * string)) :
  forallb entry_ok entries = true ->
  Text.finditer Text.path_entry (vdf_file entries) 0
  = values_of is_path_key entries.
Proof.
  induction entries as [|[k v] rest IH]; [reflexivity|].
  cbn [forallb]. intros H. apply andb_true_iff in H as [He Hr].
  apply andb_true_iff in He as [Hk Hv]. cbn [fst snd] in Hk, Hv.
  cbn [vdf_file]. rewrite (path_pass_line _ _ _ Hk Hv), (IH Hr).
  unfold values_of. cbn [filter fst]. destruct (is_path_key k); reflexivity.
Qed.

Lemma index_pass (entries : list (vdf_key * string)) :
  forallb entry_ok entries = true ->
  Text.finditer Text.index_entry (vdf_file entries) 0
  = values_of (fun k => negb (is_path_key k)) entries.
Proof.
  induction entries as [|[k v] rest IH]; [reflexivity|].
  cbn [forallb]. intros H. apply andb_true_iff in H as [He Hr].
  apply andb_true_iff in He as [Hk Hv]. cbn [fst snd] in Hk, Hv.
  cbn [vdf_file]. rewrite (index_pass_line _ _ _ Hk Hv), (IH Hr).
  unfold values_of. cbn [filter fst]. destruct (is_path_key k); reflexivity.
Qed.

Lemma append_libraries_kept (fs : FileSystem) (groups : list string) :
  forall libs,
    append_libraries fs groups libs = (libs ++ kept_libraries fs groups)%list.
Proof.
  unfold kept_libraries.
  induction groups as [|g rest IH]; intros libs; cbn [append_libraries map filter].
  - rewrite app_nil_r. reflexivity.
  - destruct (negb (Text.is_empty (safe_realpath fs (Text.replace_backslashes g false)))
              && isdir fs (safe_realpath fs (Text.replace_backslashes g false)))%bool.
    + rewrite IH, <- app_assoc. reflexivity.
    + apply IH.
Qed.

Lemma kept_libraries_app (fs : FileSystem) (g1 g2 : list string) :
  kept_libraries fs (g1 ++ g2)
  = (kept_libraries fs g1 ++ kept_libraries fs g2)%list.
Proof. unfold kept_libraries. rewrite map_app, filter_app. reflexivity. Qed.

(** X7.  Reading back a written library configuration.  When the file
    holds one line per entry, each a tab, a quoted key that is the word
    path or a run of decimal digits, two tabs, a quoted value and a line
    feed, and every value is free of quotes and begins with a character
    that is neither white space, a digit nor the letter p, then the
    libraries returned are the values that resolve to existing
    directories, those written under the key path first and those written
    under an index after them, each group in the order of the file, every
    directory kept once at its first occurrence. *)
Theorem parse_libraryfolders_vdf_reads_back (fs : FileSystem) (path : string)
    (entries : list (vdf_key * string)) :
  isfile fs path = true ->
  read_text fs path = Some (vdf_file entries) ->
  forallb entry_ok entries = true ->
  parse_libraryfolders_vdf fs path
  = first_seen
      (kept_libraries fs
         (values_of is_path_key entries
          ++ values_of (fun k => negb (is_path_key k)) entries)).
Proof.
  intros Hf Ht Hok. unfold parse_libraryfolders_vdf.
  rewrite Hf, Ht. cbn [negb]. rewrite dedup_is_first_seen.
  unfold vdf_libs. rewrite (path_pass _ Hok), (index_pass _ Hok).
  rewrite !append_libraries_kept, kept_libraries_app. reflexivity.
Qed.





(** ** Locating the installation and its libraries *)

Lemma rstrip_blank (s : string) :
  Text.is_empty (rstrip s) = Text.forallb_str Text.is_space s.
Proof.
  induction s as [|c s IH]; [reflexivity|].
  cbn [rstrip Text.forallb_str].
  destruct (rstrip s) as [|c' r].
  - cbn [Text.is_empty] in IH. rewrite <- IH.
    destruct (Text.is_space c); reflexivity.
  - cbn [Text.is_empty] in IH |- *. rewrite <- IH, andb_false_r. reflexivity.
Qed.

Lemma forallb_str_app (p : ascii -> bool) (a b : string) :
  Text.forallb_str p (a ++ b)
  = (Text.forallb_str p a && Text.forallb_str p b)%bool.
Proof.
  induction a as [|c a IH]; [reflexivity|].
  cbn [append Text.forallb_str]. rewrite IH, andb_assoc. reflexivity.
Qed.

Lemma strip_blank (s : string) :
  Text.is_empty (strip s) = Text.forallb_str Text.is_space s.
Proof.
  unfold strip. rewrite rstrip_blank.
  destruct (skip_space_inv s) as (w & Hw & Hs & _).
  rewrite Hs at 2. rewrite forallb_str_app. unfold all_space in Hw.
  rewrite Hw. reflexivity.
Qed.

(** X8.  A registry value is returned exactly when the registry module
    is available, the query succeeds, and the value is a string that holds
    a character other than white space; it is returned unchanged, with its
    surrounding white space. *)
Theorem read_registry_value_not_blank (h : Host) (root : Hive)
    (subkey value_name v : string) :
  read_registry_value h root subkey value_name = Some v <->
  exists query,
    winreg h = Some query
    /\ query root subkey value_name = Some (RegStr v)
    /\ Text.forallb_str Text.is_space v = false.
Proof.
  unfold read_registry_value. split.
  - destruct (winreg h) as [query|]; [|discriminate].
    destruct (query root subkey value_name) as [[val|]|] eqn:E;
      try discriminate.
    rewrite strip_blank.
    destruct (Text.forallb_str Text.is_space val) eqn:Eb; [discriminate|].
    intros H; inversion H; subst. exists query. repeat split; assumption.
  - intros (query & -> & -> & Hb). rewrite strip_blank, Hb. reflexivity.
Qed.

Lemma first_root_valid (h : Host) (fs : FileSystem) (cs : list string)
    (p : string) :
  first_root h fs cs = Some p -> is_steam_root h fs p = true.
Proof.
  induction cs as [|c cs IH]; [discriminate|]. cbn [first_root].
  destruct (is_steam_root h fs (safe_realpath fs c)) eqn:E; [|exact IH].
  intros H; inversion H; subst. exact E.
Qed.

Lemma first_registry_root_valid (h : Host) (fs : FileSystem)
    (cs : list (Hive * string * string)) (p : string) :
  first_registry_root h fs cs = Some p -> is_steam_root h fs p = true.
Proof.
  induction cs as [|[[root subkey] value_name] cs IH]; [discriminate|].
  cbn [first_registry_root].
  destruct (read_registry_value h root subkey value_name) as [v|]; [|exact IH].
  destruct (Text.is_empty v); [exact IH|].
  destruct (is_steam_root h fs (safe_realpath fs v)) eqn:E; [|exact IH].
  intros H; inversion H; subst. exact E.
Qed.

Lemma first_fallback_root_valid (h : Host) (fs : FileSystem)
    (cs : list string) (p : string) :
  first_fallback_root h fs cs = Some p -> is_steam_root h fs p = true.
Proof.
  induction cs as [|c cs IH]; [discriminate|]. cbn [first_fallback_root].
  destruct (Text.is_empty c); [exact IH|].
  destruct (is_steam_root h fs (safe_realpath fs c)) eqn:E; [|exact IH].
  intros H; inversion H; subst. exact E.
Qed.

Lemma find_steam_path_root (h : Host) (fs : FileSystem) (p : string) :
  find_steam_path h fs = Some p -> is_steam_root h fs p = true.
Proof.
  unfold find_steam_path. cbv zeta.
  destruct (String.eqb _ "darwin"); [apply first_root_valid|].
  destruct (prefix "linux" _); [apply first_root_valid|].
  destruct (winreg h); [|discriminate].
  destruct (first_registry_root h fs _) as [q|] eqn:E.
  - intros H; inversion H; subst. apply (first_registry_root_valid _ _ _ _ E).
  - apply first_fallback_root_valid.
Qed.

(** X9.  Whatever the platform, the registry and the environment say, a
    root that [find_steam_path] returns is a directory and has a directory
    [steamapps] in it; and without the registry module a platform that is
    neither macOS nor Linux yields no root. *)
Theorem find_steam_path_is_installation (h : Host) (fs : FileSystem)
    (p : string) :
  find_steam_path h fs = Some p ->
  isdir fs p = true /\ isdir fs (join h p "steamapps") = true
  /\ (winreg h = None ->
      Text.lower (platform h) = "darwin"
      \/ prefix "linux" (Text.lower (platform h)) = true).
Proof.
  intros H. pose proof (find_steam_path_root _ _ _ H) as Hr.
  apply andb_true_iff in Hr as [H1 H2].
  split; [exact H1|]. split; [exact H2|].
  intros Hw. unfold find_steam_path in H. cbv zeta in H.
  destruct (String.eqb_spec (Text.lower (platform h)) "darwin") as [E|_];
    [left; exact E|].
  destruct (prefix "linux" _); [right; reflexivity|].
  rewrite Hw in H. discriminate.
Qed.

Lemma append_steamapps_spec (fs : FileSystem) (libs : list string) :
  forall out,
    append_steamapps fs libs out
    = (out ++ flat_map (fun lib => match steamapps_of fs lib with
                                   | Some sa => [sa]
                                   | None => []
                                   end) libs)%list.
Proof.
  induction libs as [|lib rest IH]; intros out;
    cbn [append_steamapps flat_map].
  - rewrite app_nil_r. reflexivity.
  - change (steamapps_of fs lib)
      with (if isdir fs (path_join lib "steamapps")
            then Some (safe_realpath fs (path_join lib "steamapps"))
            else None).
    destruct (isdir fs (path_join lib "steamapps")).
    + rewrite IH, <- app_assoc. reflexivity.
    + apply IH.
Qed.

Lemma get_all_steamapps_folders_first_seen (fs : FileSystem)
    (steam_path : string) :
  get_all_steamapps_folders fs steam_path
  = first_seen
      (flat_map (fun lib => match steamapps_of fs lib with
                            | Some sa => [sa]
                            | None => []
                            end)
         (steam_path
          :: parse_libraryfolders_vdf fs
               (path_join (path_join steam_path "steamapps")
                  "libraryfolders.vdf"))).
Proof.
  unfold get_all_steamapps_folders. cbv zeta.
  rewrite dedup_is_first_seen, append_steamapps_spec.
  cbn [flat_map].
  change (steamapps_of fs steam_path)
    with (if isdir fs (path_join steam_path "steamapps")
          then Some (safe_realpath fs (path_join steam_path "steamapps"))
          else None).
  destruct (isdir fs (path_join steam_path "steamapps")); reflexivity.
Qed.

(** X10.  The libraries of an installation: no directory twice, and a
    directory is listed exactly when it is the resolved [steamapps] of the
    root or of a library of the configuration file, and that [steamapps]
    exists. *)
Theorem get_all_steamapps_folders_members (fs : FileSystem)
    (steam_path : string) :
  let out := get_all_steamapps_folders fs steam_path in
  let lib_vdf :=
    path_join (path_join steam_path "steamapps") "libraryfolders.vdf" in
  NoDup out
  /\ forall p,
       In p out <->
       exists root,
         (root = steam_path \/ In root (parse_libraryfolders_vdf fs lib_vdf))
         /\ isdir fs (path_join root "steamapps") = true
         /\ p = safe_realpath fs (path_join root "steamapps").
Proof.
  cbv zeta. rewrite get_all_steamapps_folders_first_seen.
  split; [apply first_seen_NoDup|].
  intros p. rewrite first_seen_In, in_flat_map. split.
  - intros (root & Hin & Hp). exists root.
    split; [destruct Hin as [<-|Hin]; [left; reflexivity|right; exact Hin]|].
    unfold steamapps_of in Hp. cbv zeta in Hp.
    destruct (isdir fs (path_join root "steamapps")); [|destruct Hp].
    destruct Hp as [<-|[]]. split; reflexivity.
  - intros (root & Hin & Hd & ->). exists root.
    split; [destruct Hin as [->|Hin]; [left; reflexivity|right; exact Hin]|].
    unfold steamapps_of. cbv zeta. rewrite Hd. left. reflexivity.
Qed.

(** X11.  When the root has a directory [steamapps], that directory,
    resolved, is the first library of the list, before every library of
    the configuration file. *)
Theorem get_all_steamapps_folders_primary_first (fs : FileSystem)
    (steam_path : string) :
  isdir fs (path_join steam_path "steamapps") = true ->
  exists rest,
    get_all_steamapps_folders fs steam_path
    = safe_realpath fs (path_join steam_path "steamapps") :: rest.
Proof.
  intros H. rewrite get_all_steamapps_folders_first_seen.
  cbn [flat_map].
  change (steamapps_of fs steam_path)
    with (if isdir fs (path_join steam_path "steamapps")
          then Some (safe_realpath fs (path_join steam_path "steamapps"))
          else None).
  rewrite H. cbn [app first_seen]. eexists. reflexivity.
Qed.

(** X12.  On a host with the path conventions of POSIX whose file system
    does not change while the installation is located, the second early
    exit is never taken: a root that was found always has at least one
    library, so the message about a missing [steamapps] is never
    printed. *)
Theorem run_monitor_never_without_steamapps (h : Host) (fs : FileSystem)
    (start : float) (ticks : list Tick) (p : string) :
  (forall a b, join h a b = path_join a b) ->
  run_monitor h fs start ticks <> SteamappsNotFound p.
Proof.
  intros Hj. unfold run_monitor.
  destruct (find_steam_path h fs) as [root|] eqn:E; [|discriminate].
  destruct (Text.is_empty root); [discriminate|].
  pose proof (find_steam_path_root _ _ _ E) as Hr.
  apply andb_true_iff in Hr as [_ Hr]. rewrite Hj in Hr.
  rewrite get_all_steamapps_folders_first_seen. cbn [flat_map].
  change (steamapps_of fs root)
    with (if isdir fs (path_join root "steamapps")
          then Some (safe_realpath fs (path_join root "steamapps"))
          else None).
  rewrite Hr. cbn [app first_seen]. discriminate.
Qed.

(** ** The status the content log gives *)

Lemma prefix_app (a b s : string) :
  prefix (a ++ b) s = true -> prefix a s = true.
Proof.
  revert s. induction a as [|c a IH]; intros s; [destruct s; reflexivity|].
  destruct s as [|c' s]; cbn [append prefix]; [discriminate|].
  destruct (Ascii.ascii_dec c c'); [apply IH|discriminate].
Qed.

Lemma contains_app (a b s : string) :
  Text.contains (a ++ b) s = true -> Text.contains a s = true.
Proof.
  induction s as [|c s IH]; cbn [Text.contains]; intros H.
  - apply orb_true_iff in H as [H|H]; [|discriminate].
    rewrite (prefix_app _ _ _ H). reflexivity.
  - apply orb_true_iff in H as [H|H].
    + rewrite (prefix_app _ _ _ H). reflexivity.
    + rewrite (IH H). apply orb_true_r.
Qed.

Lemma scan_log_line (ln : string) (rest : list string) :
  scan_log (ln :: rest)
  = match line_status ln with
    | Some s => Some s
    | None => scan_log rest
    end.
Proof.
  cbn [scan_log]. unfold line_status. cbv zeta.
  destruct (Text.contains "pause" (Text.lower ln)); [reflexivity|].
  cbn [negb].
  destruct (Text.contains "downloading" (Text.lower ln)) eqn:E.
  - rewrite (contains_app "download" "ing" _ E). reflexivity.
  - cbn [orb]. destruct (Text.contains "download" (Text.lower ln)); reflexivity.
Qed.

Lemma scan_log_silent (quiet rest : list string) :
  Forall (fun ln => line_status ln = None) quiet ->
  scan_log (quiet ++ rest) = scan_log rest.
Proof.
  induction 1 as [|ln quiet Hln _ IH]; [reflexivity|].
  cbn [app]. rewrite scan_log_line, Hln. exact IH.
Qed.

Lemma detect_status_lines (fs : FileSystem) (steam_path : string)
    (appid : option Z) :
  isfile fs (path_join (path_join steam_path "logs") "content_log.txt") = true ->
  detect_status_from_content_log fs steam_path appid
  = scan_log (rev (skipn (List.length (log_lines fs steam_path appid) - 800)
                     (log_lines fs steam_path appid))).
Proof.
  intros H. unfold detect_status_from_content_log, log_lines. cbv zeta.
  rewrite H. reflexivity.
Qed.

Lemma skipn_app_exact (A : Type) (a b : list A) (n : nat) :
  n = List.length a -> skipn n (a ++ b) = b.
Proof.
  intros ->. rewrite skipn_app, skipn_all, Nat.sub_diag. reflexivity.
Qed.

(** X13.  The status the log gives is that of the most recent line that
    says anything: when no more than 799 of the kept lines follow a line,
    and none of them mentions a pause or a download, that line decides,
    a pause taking precedence over a download on the same line. *)
Theorem detect_status_most_recent (fs : FileSystem) (steam_path : string)
    (appid : option Z) (older newer : list string) (ln : string)
    (s : Status) :
  isfile fs (path_join (path_join steam_path "logs") "content_log.txt") = true ->
  log_lines fs steam_path appid = (older ++ ln :: newer)%list ->
  (List.length newer < 800)%nat ->
  Forall (fun l => line_status l = None) newer ->
  line_status ln = Some s ->
  detect_status_from_content_log fs steam_path appid = Some s.
Proof.
  intros Hf Hl Hlen Hq Hs. rewrite (detect_status_lines _ _ _ Hf), Hl.
  rewrite length_app. cbn [List.length].
  set (k := (List.length older + S (List.length newer) - 800)%nat).
  assert (Hk : (k <= List.length older)%nat) by (unfold k; lia).
  rewrite skipn_app. replace (k - List.length older)%nat with O by lia.
  cbn [skipn]. rewrite rev_app_distr. cbn [rev]. rewrite <- !app_assoc.
  rewrite scan_log_silent by (apply Forall_rev, Hq).
  cbn [app]. rewrite scan_log_line, Hs. reflexivity.
Qed.

(** X14.  Only the last 800 kept lines are read: what precedes them has
    no influence, so that the log gives no status when those 800 lines
    say nothing, whatever the older lines say. *)
Theorem detect_status_window (fs : FileSystem) (steam_path : string)
    (appid : option Z) (older recent : list string) :
  isfile fs (path_join (path_join steam_path "logs") "content_log.txt") = true ->
  log_lines fs steam_path appid = (older ++ recent)%list ->
  List.length recent = 800%nat ->
  detect_status_from_content_log fs steam_path appid = scan_log (rev recent)
  /\ (Forall (fun l => line_status l = None) recent ->
      detect_status_from_content_log fs steam_path appid = None).
Proof.
  intros Hf Hl Hlen. rewrite (detect_status_lines _ _ _ Hf), Hl.
  rewrite skipn_app_exact by (rewrite length_app; lia).
  split; [reflexivity|]. intros Hq.
  rewrite <- (app_nil_r (rev recent)).
  apply scan_log_silent, Forall_rev, Hq.
Qed.

(** X15.  The log never gives the status unknown, and it gives a status
    at all only when its file exists and one of the kept lines mentions a
    pause or a download. *)
Theorem detect_status_from_log_line (fs : FileSystem) (steam_path : string)
    (appid : option Z) (s : Status) :
  detect_status_from_content_log fs steam_path appid = Some s ->
  s <> unknown
  /\ isfile fs (path_join (path_join steam_path "logs") "content_log.txt") = true
  /\ exists ln, In ln (log_lines fs steam_path appid) /\ line_status ln = Some s.
Proof.
  intros H.
  destruct (isfile fs (path_join (path_join steam_path "logs")
                         "content_log.txt")) eqn:Hf.
  - rewrite (detect_status_lines _ _ _ Hf) in H.
    assert (Hex : exists ln,
               In ln (rev (skipn (List.length (log_lines fs steam_path appid) - 800)
                             (log_lines fs steam_path appid)))
               /\ line_status ln = Some s).
    { induction (rev _) as [|l ls IH]; [discriminate|].
      rewrite scan_log_line in H.
      destruct (line_status l) as [s'|] eqn:El.
      - inversion H; subst. exists l. split; [left; reflexivity|exact El].
      - destruct (IH H) as (ln & Hin & Hs). exists ln.
        split; [right; exact Hin|exact Hs]. }
    destruct Hex as (ln & Hin & Hs).
    split.
    + unfold line_status in Hs. cbv zeta in Hs.
      destruct (Text.contains "pause" _); [inversion Hs; discriminate|].
      destruct (Text.contains "download" _); [inversion Hs; discriminate|].
      discriminate.
    + split; [reflexivity|]. exists ln. split; [|exact Hs].
      apply in_rev in Hin.
      rewrite <- (firstn_skipn (List.length (log_lines fs steam_path appid) - 800)
                    (log_lines fs steam_path appid)).
      apply in_or_app. right. exact Hin.
  - unfold detect_status_from_content_log in H. rewrite Hf in H. discriminate.
Qed.

(** ** The in-progress directory and the samples of the loop *)

(** X16.  The in-progress directory of an application is looked up in the
    libraries in their order: the result is the directory of the first
    library that has one, and there is none exactly when no library has
    one. *)
Theorem get_downloading_folder_first (fs : FileSystem)
    (steamapps_folders : list string) (appid : Z) :
  (forall p,
     get_downloading_folder fs steamapps_folders appid = Some p <->
     exists before sa after,
       steamapps_folders = (before ++ sa :: after)%list
       /\ p = downloading_path sa appid
       /\ isdir fs p = true
       /\ Forall (fun sa' => isdir fs (downloading_path sa' appid) = false)
            before)
  /\ (get_downloading_folder fs steamapps_folders appid = None <->
      Forall (fun sa => isdir fs (downloading_path sa appid) = false)
        steamapps_folders).
Proof.
  induction steamapps_folders as [|sa rest [IHs IHn]].
  - split.
    + intros p. split; [discriminate|].
      intros (before & sa & after & H & _). destruct before; discriminate.
    + split; [constructor|reflexivity].
  - cbn [get_downloading_folder]. fold (downloading_path sa appid).
    destruct (isdir fs (downloading_path sa appid)) eqn:E.
    + split.
      * intros p. split.
        -- intros H; inversion H; subst. exists [], sa, rest.
           repeat split; [exact E|constructor].
        -- intros (before & sa' & after & H & -> & Hd & Hb).
           destruct before as [|b before]; cbn [app] in H; inversion H; subst.
           ++ reflexivity.
           ++ inversion Hb; subst. congruence.
      * split; [discriminate|]. intros H; inversion H; subst. congruence.
    + split.
      * intros p. rewrite IHs. split.
        -- intros (before & sa' & after & -> & -> & Hd & Hb).
           exists (sa :: before), sa', after.
           repeat split; [exact Hd|constructor; assumption].
        -- intros (before & sa' & after & H & -> & Hd & Hb).
           destruct before as [|b before]; cbn [app] in H; inversion H; subst.
           ++ congruence.
           ++ inversion Hb; subst. exists before, sa', after.
              repeat split; assumption.
      * rewrite IHn. split.
        -- intros H. constructor; assumption.
        -- intros H; inversion H; assumption.
Qed.

Lemma of_Z_small_neg (m : positive) :
  (Zpos m < 2 ^ 53)%Z -> F64.is_finite (F64.of_Z (Zneg m)) = true.
Proof.
  intros Hm.
  pose proof (mantissa_ge m) as Hge.
  assert (Hd : (Zpos (digits2_pos m) <= 53)%Z).
  { destruct (Z.le_gt_cases (Zpos (digits2_pos m)) 53) as [H|H]; [exact H|].
    exfalso.
    assert (2 ^ 53 <= 2 ^ (Zpos (digits2_pos m) - 1))%Z
      by (apply Z.pow_le_mono_r; lia).
    lia. }
  unfold F64.of_Z, binary_normalize, binary_round.
  rewrite Z.add_0_r, fexp_normal by lia.
  unfold shl_align.
  destruct (Zpos (digits2_pos m) - 53 - 0)%Z as [|k|k] eqn:Ek; [|lia|].
  - rewrite binary_round_aux_exact by lia. reflexivity.
  - rewrite binary_round_aux_exact;
      [|rewrite digits2_iter_xO; lia|lia].
    reflexivity.
Qed.

(** An integer of magnitude below 2^53 converts to a float. *)
Lemma of_int_small (n : Z) :
  (- 2 ^ 53 < n < 2 ^ 53)%Z -> exists x, F64.of_int n = Some x.
Proof.
  intros Hn. unfold F64.of_int.
  assert (Hf : F64.is_finite (F64.of_Z n) = true).
  { destruct n as [|m|m].
    - reflexivity.
    - destruct (of_Z_small m ltac:(lia)) as [[_ Hf] _]. exact Hf.
    - apply of_Z_small_neg. lia. }
  destruct (F64.of_Z n) as [s|s| |s m e]; try discriminate; eexists; reflexivity.
Qed.

Lemma measure_in_range (fs : FileSystem) (st : State) (a : Z) (now : float)
    (dl : option string) (status0 : Status) :
  size_in_range st ->
  (forall p, (0 <= folder_size_bytes fs p < 2 ^ 53)%Z) ->
  exists m, measure fs st a now dl status0 = Some m
            /\ match snd m with
               | Some n => (0 <= n < 2 ^ 53)%Z
               | None => True
               end.
Proof.
  intros Hst Hfs. unfold measure, size_in_range in *.
  destruct dl as [d|]; [|eexists; split; [reflexivity|exact I]].
  destruct (Text.is_empty d); [eexists; split; [reflexivity|exact I]|].
  destruct (last_size st) as [prev|];
    [|eexists; split; [reflexivity|apply Hfs]].
  destruct (same_appid (last_appid st) a);
    [|eexists; split; [reflexivity|apply Hfs]].
  pose proof (Hfs d) as Hd.
  destruct (of_int_small (folder_size_bytes fs d - prev) ltac:(lia))
    as [x ->].
  destruct (_ && _)%bool; eexists; (split; [reflexivity|apply Hfs]).
Qed.

Lemma measure_status (fs : FileSystem) (st : State) (a : Z) (now : float)
    (dl : option string) (status0 : Status)
    (m : float * Status * option Z) :
  measure fs st a now dl status0 = Some m ->
  snd (fst m) = status0
  \/ (snd (fst m) = paused /\ status0 = unknown).
Proof.
  unfold measure.
  destruct dl as [d|]; [|intros H; inversion H; left; reflexivity].
  destruct (Text.is_empty d); [intros H; inversion H; left; reflexivity|].
  destruct (last_size st) as [prev|];
    [|intros H; inversion H; left; reflexivity].
  destruct (same_appid (last_appid st) a);
    [|intros H; inversion H; left; reflexivity].
  destruct (F64.of_int _); [|discriminate].
  destruct (_ =? _)%Z; cbn [andb];
    [|intros H; inversion H; left; reflexivity].
  destruct status0; cbn [status_eqb]; intros H; inversion H;
    (left; reflexivity) || (right; split; reflexivity).
Qed.

(** A measurement that leaves the status unknown with a speed not below
    one had a size to compare with, and found another. *)
Lemma measure_unknown (fs : FileSystem) (st : State) (a : Z) (now : float)
    (dl : option string) (status0 : Status)
    (m : float * Status * option Z) :
  measure fs st a now dl status0 = Some m ->
  snd (fst m) = unknown ->
  F64.ltb (F64.abs (fst (fst m))) F64.one = false ->
  last_appid st = Some a
  /\ exists prev d,
       last_size st = Some prev /\ dl = Some d
       /\ folder_size_bytes fs d <> prev.
Proof.
  unfold measure.
  destruct dl as [d|];
    [|intros H; inversion H; subst; cbn; intros _ Hc; discriminate].
  destruct (Text.is_empty d);
    [intros H; inversion H; subst; cbn; intros _ Hc; discriminate|].
  destruct (last_size st) as [prev|];
    [|intros H; inversion H; subst; cbn; intros _ Hc; discriminate].
  destruct (same_appid (last_appid st) a) eqn:Hsame;
    [|intros H; inversion H; subst; cbn; intros _ Hc; discriminate].
  assert (Hid : last_appid st = Some a).
  { unfold same_appid in Hsame. destruct (last_appid st) as [b|];
      [|discriminate]. apply Z.eqb_eq in Hsame. congruence. }
  destruct (F64.of_int _); [|discriminate].
  destruct (Z.eqb_spec (folder_size_bytes fs d) prev) as [E|E]; cbn [andb].
  - destruct (status_eqb status0 unknown) eqn:Es;
      intros H; inversion H; subst; cbn [fst snd]; intros Hu _;
      [discriminate|].
    destruct status0; discriminate.
  - intros _ _ _. split; [exact Hid|]. exists prev, d.
    repeat split. exact E.
Qed.

Lemma reconcile_inv (speed : float) (streak : nat) (status0 : Status) :
  reconcile speed streak status0 = paused
  \/ (reconcile speed streak status0 = status0 /\ (streak < 2)%nat
      /\ (status0 = unknown -> F64.ltb (F64.abs speed) F64.one = false)).
Proof.
  unfold reconcile.
  destruct (2 <=? streak)%nat eqn:E.
  - left. destruct (F64.ltb _ _); reflexivity.
  - apply Nat.leb_gt in E.
    destruct (F64.ltb (F64.abs speed) F64.one) eqn:El; cbn [andb].
    + destruct status0; cbn [status_eqb];
        [right; split; [reflexivity|split; [exact E|discriminate]]
        |left; reflexivity|left; reflexivity].
    + right. split; [reflexivity|]. split; [exact E|]. intros _. reflexivity.
Qed.

Lemma scan_log_not_unknown (lines : list string) :
  scan_log lines <> Some unknown.
Proof.
  induction lines as [|ln rest IH]; [discriminate|]. cbn [scan_log].
  destruct (Text.contains "pause" _); [discriminate|]. cbn [negb].
  destruct (_ || _)%bool; [discriminate|exact IH].
Qed.

Lemma log_hint_inv (steam_path : string) (fs : FileSystem) (a : Z)
    (s : Status) :
  log_hint steam_path fs a = s ->
  match s with
  | unknown => detect_status_from_content_log fs steam_path (Some a) = None
  | _ => detect_status_from_content_log fs steam_path (Some a) = Some s
  end.
Proof.
  unfold log_hint.
  destruct (detect_status_from_content_log fs steam_path (Some a))
    as [s'|] eqn:E.
  - intros ->. destruct s; try reflexivity.
    exfalso. unfold detect_status_from_content_log in E. cbv zeta in E.
    destruct (negb _); [discriminate|].
    exact (scan_log_not_unknown _ E).
  - intros <-. reflexivity.
Qed.

Lemma after_measure_inv (folders : list string) (fs : FileSystem)
    (st st' : State) (a : Z) (now : float) (m : float * Status * option Z)
    (info : DownloadInfo) :
  after_measure folders fs st a now m = (st', Some info) ->
  status info
  = reconcile (fst (fst m)) (next_streak (fst (fst m)) (zero_streak st))
      (snd (fst m))
  /\ speed_bps info = fst (fst m)
  /\ zero_streak st' = next_streak (fst (fst m)) (zero_streak st).
Proof.
  unfold after_measure. cbv zeta. intros H. inversion H; subst.
  split; [reflexivity|]. split; reflexivity.
Qed.

Section Samples.

Variable steam_path : string.
Variable steamapps_folders : list string.

(** X17.  A sample says downloading only when the log says so for its
    application: growth of the directory alone never gives that status;
    and fewer than two low-speed ticks have then been counted. *)
Theorem downloading_only_from_log
    (st st' : State) (t : Tick) (info : DownloadInfo) :
  monitor_tick steam_path steamapps_folders st t = Some (st', Some info) ->
  status info = downloading ->
  detect_status_from_content_log (tick_fs t) steam_path (Some (appid info))
  = Some downloading
  /\ (zero_streak st' < 2)%nat.
Proof.
  intros H Hs. destruct (tick_sample_inv _ _ _ _ _ _ H) as (m & _ & Hm & Ha).
  destruct (after_measure_inv _ _ _ _ _ _ _ _ Ha) as (Hst & _ & Hz).
  rewrite Hst in Hs. rewrite Hz.
  destruct (reconcile_inv (fst (fst m))
              (next_streak (fst (fst m)) (zero_streak st)) (snd (fst m)))
    as [Hp|(Hr & Hk & _)]; [congruence|].
  split; [|exact Hk]. rewrite Hr in Hs.
  destruct (measure_status _ _ _ _ _ _ _ Hm) as [E|[E _]]; [|congruence].
  rewrite Hs in E. symmetry in E.
  exact (log_hint_inv _ _ _ _ E).
Qed.

(** X18.  A sample says unknown only when the log is silent and a change
    of size was measured: the previous tick left a size for the same
    application, the directory now has another, and the magnitude of the
    speed is not below one byte per second. *)
Theorem unknown_needs_measured_change
    (st st' : State) (t : Tick) (info : DownloadInfo) :
  monitor_tick steam_path steamapps_folders st t = Some (st', Some info) ->
  status info = unknown ->
  detect_status_from_content_log (tick_fs t) steam_path (Some (appid info))
  = None
  /\ F64.ltb (F64.abs (speed_bps info)) F64.one = false
  /\ last_appid st = Some (appid info)
  /\ exists prev d,
       last_size st = Some prev
       /\ get_downloading_folder (tick_fs t) steamapps_folders (appid info)
          = Some d
       /\ folder_size_bytes (tick_fs t) d <> prev.
Proof.
  intros H Hs. destruct (tick_sample_inv _ _ _ _ _ _ H) as (m & _ & Hm & Ha).
  destruct (after_measure_inv _ _ _ _ _ _ _ _ Ha) as (Hst & Hsp & _).
  rewrite Hst in Hs. rewrite Hsp.
  destruct (reconcile_inv (fst (fst m))
              (next_streak (fst (fst m)) (zero_streak st)) (snd (fst m)))
    as [Hp|(Hr & Hk & Hu)]; [congruence|].
  rewrite Hr in Hs. specialize (Hu Hs).
  destruct (measure_status _ _ _ _ _ _ _ Hm) as [E|[E _]]; [|congruence].
  rewrite Hs in E. symmetry in E.
  split; [exact (log_hint_inv _ _ _ _ E)|]. split; [exact Hu|].
  exact (measure_unknown _ _ _ _ _ _ _ Hm Hs Hu).
Qed.

(** X19.  The first sample of an application, after another application,
    after a tick without a directory for it or at the start, has speed
    zero and counts as a low-speed tick; its status is downloading only
    when the log says so and no low-speed tick had been counted, and
    paused in every other case. *)
Theorem first_sample_of_application
    (st st' : State) (t : Tick) (info : DownloadInfo) :
  monitor_tick steam_path steamapps_folders st t = Some (st', Some info) ->
  last_size st = None \/ last_appid st <> Some (appid info) ->
  speed_bps info = F64.zero
  /\ zero_streak st' = S (zero_streak st)
  /\ status info
     = match detect_status_from_content_log (tick_fs t) steam_path
               (Some (appid info)) with
       | Some downloading =>
           if (1 <=? zero_streak st)%nat then paused else downloading
       | _ => paused
       end.
Proof.
  intros H Hfirst.
  destruct (tick_sample_inv _ _ _ _ _ _ H) as (m & _ & Hm & Ha).
  assert (Hz : exists size,
             m = (F64.zero, log_hint steam_path (tick_fs t) (appid info),
                  size)).
  { revert Hm. unfold measure.
    destruct (get_downloading_folder _ _ _) as [d|];
      [|intros E; inversion E; eexists; reflexivity].
    destruct (Text.is_empty d);
      [intros E; inversion E; eexists; reflexivity|].
    destruct (last_size st) as [prev|] eqn:Hsz;
      [|intros E; inversion E; eexists; reflexivity].
    destruct (same_appid (last_appid st) (appid info)) eqn:Hsame;
      [|intros E; inversion E; eexists; reflexivity].
    exfalso. destruct Hfirst as [Hn|Hn]; [discriminate|]. apply Hn.
    unfold same_appid in Hsame. destruct (last_appid st) as [b|];
      [|discriminate]. apply Z.eqb_eq in Hsame. congruence. }
  destruct Hz as [size ->].
  destruct (after_measure_inv _ _ _ _ _ _ _ _ Ha) as (Hst & Hsp & Hk).
  cbn [fst snd] in Hst, Hsp, Hk.
  change (next_streak F64.zero (zero_streak st)) with (S (zero_streak st))
    in Hst, Hk.
  split; [exact Hsp|]. split; [exact Hk|]. rewrite Hst.
  pose proof (log_hint_inv steam_path (tick_fs t) (appid info) _ eq_refl)
    as Hh.
  unfold reconcile.
  change (F64.ltb (F64.abs F64.zero) F64.one) with true.
  change (2 <=? S (zero_streak st))%nat with (1 <=? zero_streak st)%nat.
  destruct (log_hint steam_path (tick_fs t) (appid info)); rewrite Hh;
    destruct (1 <=? zero_streak st)%nat; reflexivity.
Qed.

(** X20.  While every directory measured holds fewer than 2^53 bytes, no
    iteration raises: the loop runs to its end and prints one line for
    every tick. *)
Theorem monitor_loop_completes (ticks : list Tick) (st : State) :
  size_in_range st ->
  Forall sizes_in_range ticks ->
  exists st' samples,
    monitor_loop steam_path steamapps_folders st ticks = (Some st', samples)
    /\ List.length samples = List.length ticks
    /\ size_in_range st'.
Proof.
  revert st. induction ticks as [|t rest IH]; intros st Hst Hall.
  - exists st, []. repeat split. exact Hst.
  - inversion Hall as [|? ? Ht Hrest]; subst. cbn [monitor_loop].
    assert (Htick : exists st1 sample,
               monitor_tick steam_path steamapps_folders st t
               = Some (st1, sample) /\ size_in_range st1).
    { unfold monitor_tick. cbv zeta.
      destruct (detect_appid_from_downloading_dir _ _) as [a|].
      - destruct (measure_in_range (tick_fs t) st a (tick_now t)
                    (get_downloading_folder (tick_fs t) steamapps_folders a)
                    (match detect_status_from_content_log (tick_fs t)
                             steam_path (Some a) with
                     | Some s => s
                     | None => unknown
                     end) Hst Ht) as ([[speed status0] size] & -> & Hsz).
        eexists _, _. split; [reflexivity|]. exact Hsz.
      - eexists _, _. split; [reflexivity|]. exact I. }
    destruct Htick as (st1 & sample & -> & Hst1).
    destruct (IH st1 Hst1 Hrest) as (st' & samples & -> & Hlen & Hst').
    exists st', (sample :: samples). cbn [List.length].
    repeat split; [lia|exact Hst'].
Qed.

End Samples.

(** ** Units and exact renderings *)

Lemma scale_loop_exit (fuel : nat) :
  forall (val : float) (i : nat),
    (4 <= i + fuel)%nat ->
    (F64.leb F64.f1024 (fst (scale_loop fuel val i))
     && (snd (scale_loop fuel val i) <? List.length units - 1)%nat)%bool
    = false.
Proof.
  induction fuel as [|fuel IH]; intros val i Hf; cbn [scale_loop].
  - cbn [fst snd]. replace (i <? List.length units - 1)%nat with false.
    + apply andb_false_r.
    + symmetry. apply Nat.ltb_ge. cbn. lia.
  - destruct (F64.leb F64.f1024 val && (i <? List.length units - 1)%nat)%bool
      eqn:E.
    + apply IH. lia.
    + cbn [fst snd]. exact E.
Qed.

Lemma scale_loop_index (fuel : nat) :
  forall (val : float) (i : nat),
    (i <= 3)%nat -> (snd (scale_loop fuel val i) <= 3)%nat.
Proof.
  induction fuel as [|fuel IH]; intros val i Hi; cbn [scale_loop];
    [exact Hi|].
  destruct (F64.leb F64.f1024 val) ; cbn [andb]; [|exact Hi].
  destruct (i <? List.length units - 1)%nat eqn:E; [|exact Hi].
  apply Nat.ltb_lt in E. cbn in E. apply IH. lia.
Qed.

(** X21.  For every float, the infinities and NaN included, the loop of
    [real_speed] ends on its own condition within the rounds the model
    gives it, with an index inside [units]: the rendering ends with one of
    the four units and indexing never fails. *)
Theorem real_speed_unit_in_range (x : float) :
  let val := fst (real_speed_scaled x) in
  let i := snd (real_speed_scaled x) in
  (i < List.length units)%nat
  /\ (F64.leb F64.f1024 val && (i <? List.length units - 1)%nat)%bool = false
  /\ exists u, In u units /\ real_speed x = format_2f val ++ " " ++ u.
Proof.
  cbv zeta. unfold real_speed, real_speed_scaled.
  set (y := if F64.ltb x F64.zero then F64.zero else x).
  pose proof (scale_loop_index (List.length units) y 0 (Nat.le_0_l 3)) as Hi.
  pose proof (scale_loop_exit (List.length units) y 0 (Nat.le_refl 4)) as He.
  destruct (scale_loop (List.length units) y 0) as [val i].
  cbn [fst snd] in *.
  split; [cbn; lia|]. split; [exact He|].
  exists (nth i units EmptyString). split; [|reflexivity].
  apply nth_In. cbn. lia.
Qed.

(** X22.  What is shown for a speed that is not a number of the format:
    NaN in bytes, an infinite speed in the largest unit, and a negative
    infinite one as zero. *)
Theorem real_speed_not_finite (x : float) :
  F64.is_finite x = false ->
  real_speed x
  = match x with
    | S754_nan => "nan B/s"
    | S754_infinity true => "0.00 B/s"
    | _ => "inf GB/s"
    end.
Proof.
  destruct x as [s|[|]| |s m e]; try discriminate; intros _; reflexivity.
Qed.

Lemma positive_sign (x : float) :
  F64.real x -> (0 < F64.to_Q x)%Q -> F64.sign x = false.
Proof.
  intros [_ Hf] Hp. destruct x as [s|s| |s m e]; try discriminate.
  destruct s; [|reflexivity]. exfalso.
  rewrite to_Q_finite in Hp. pose proof (mag_pos m e). lra.
Qed.

Lemma unit_factor_Z (i : nat) : unit_factor i = inject_Z (1024 ^ Z.of_nat i).
Proof. reflexivity. Qed.

(** X23.  A whole number of units below 1024 is shown exactly: for
    [1 <= n < 1024] and a unit of index [k], the speed of [n * 1024^k]
    bytes per second is rendered as [n], two zero decimals, and that
    unit. *)
Theorem real_speed_exact_multiple (n : Z) (k : nat) :
  (k <= 3)%nat -> (1 <= n < 1024)%Z ->
  real_speed (F64.of_Z (n * 1024 ^ Z.of_nat k))
  = Text.str n ++ ".00 " ++ nth k units EmptyString.
Proof.
  intros Hk Hn.
  assert (Hpow : (1 <= 1024 ^ Z.of_nat k <= 1024 ^ 3)%Z).
  { split; [pose proof (Z.pow_pos_nonneg 1024 (Z.of_nat k)); lia|].
    apply Z.pow_le_mono_r; lia. }
  assert (HN : (0 <= n * 1024 ^ Z.of_nat k < 2 ^ 53)%Z).
  { change (1024 ^ 3)%Z with 1073741824%Z in Hpow.
    change (2 ^ 53)%Z with 9007199254740992%Z. nia. }
  destruct (of_Z_small_nonneg _ HN) as [Hr Hq].
  set (x := F64.of_Z (n * 1024 ^ Z.of_nat k)) in *.
  rewrite inject_Z_mult, <- unit_factor_Z in Hq.
  pose proof (unit_factor_pos k) as Hkpos.
  assert (Hn1 : (1 <= inject_Z n)%Q)
    by (change 1%Q with (inject_Z 1); rewrite <- Zle_Qle; lia).
  assert (Hn2 : (inject_Z n < 1024)%Q)
    by (change 1024%Q with (inject_Z 1024); rewrite <- Zlt_Qlt; lia).
  assert (Hx0 : (0 < F64.to_Q x)%Q) by (rewrite Hq; nra).
  unfold real_speed.
  destruct (real_speed_scaled x) as [val i] eqn:E.
  destruct (real_speed_scaled_spec x val i Hr ltac:(lra) E)
    as (Hrv & Hi & Hqv & Hlow & Hsmall & Hsign).
  assert (Hik : i = k).
  { destruct (Nat.lt_trichotomy i k) as [Hlt|[Heq|Hgt]]; [|exact Heq|].
    - exfalso. specialize (Hlow ltac:(lia)).
      pose proof (unit_factor_pos i) as Hipos.
      pose proof (unit_factor_mono (S i) k ltac:(lia)) as Hm.
      rewrite unit_factor_S in Hm. rewrite Hq in Hqv. nra.
    - exfalso. specialize (Hsmall k Hgt). rewrite Hq in Hsmall. nra. }
  subst i.
  assert (Hval : (F64.to_Q val == inject_Z n)%Q).
  { rewrite Hq in Hqv. apply (Qmult_inj_r _ _ (unit_factor k)); [lra|exact Hqv]. }
  rewrite (format_2f_real _ Hrv), Hsign, (positive_sign _ Hr Hx0).
  rewrite hundredths_nonneg by (rewrite Hval; lra).
  rewrite (round_half_even_comp _ (inject_Z (n * 100)))
    by (rewrite Hval, inject_Z_mult; reflexivity).
  rewrite round_half_even_Z. unfold fixed2.
  rewrite Z.div_mul, Z.mod_mul by lia.
  change (two_digits 0) with "00". cbn [append].
  rewrite !append_assoc. reflexivity.
Qed.

(** ** Detected applications and their names *)

Lemma scan_downloading_In (es : list DirEntry) :
  forall (acc : list candidate) (c : candidate),
    In c (scan_downloading es acc) ->
    In c acc \/ exists e, In e es /\ names_application e (snd c).
Proof.
  induction es as [|e es IH]; intros acc c Hin; cbn [scan_downloading] in Hin;
    [left; exact Hin|].
  assert (Hnext : forall acc',
             In c (scan_downloading es acc') ->
             (In c acc' -> In c acc
                           \/ exists e', In e' (e :: es)
                                         /\ names_application e' (snd c)) ->
             In c acc \/ exists e', In e' (e :: es)
                                    /\ names_application e' (snd c)).
  { intros acc' H Hacc. destruct (IH acc' c H) as [Ha|(e' & He' & Hn)].
    - apply Hacc, Ha.
    - right. exists e'. split; [right; exact He'|exact Hn]. }
  destruct e as [n|n sz|n mt ch|n|n];
    try (apply (Hnext acc Hin); intros Ha; left; exact Ha).
  - destruct (Text.isdigit n) eqn:Hd;
      [|apply (Hnext acc Hin); intros Ha; left; exact Ha].
    destruct (Text.int_of_str n) as [a|] eqn:Hi; [|left; exact Hin].
    apply (Hnext _ Hin). intros Ha. apply in_app_or in Ha as [Ha|[<-|[]]].
    + left. exact Ha.
    + right. exists (EDir n mt ch). split; [left; reflexivity|].
      cbn [names_application snd]. split; assumption.
  - left. exact Hin.
Qed.

Lemma collect_candidates_In (fs : FileSystem) (folders : list string) :
  forall (acc : list candidate) (c : candidate),
    In c (collect_candidates fs folders acc) ->
    In c acc
    \/ exists sa es e,
         In sa folders
         /\ isdir fs (path_join sa "downloading") = true
         /\ scandir fs (path_join sa "downloading") = Some es
         /\ In e es /\ names_application e (snd c).
Proof.
  induction folders as [|sa rest IH]; intros acc c Hin;
    cbn [collect_candidates] in Hin; [left; exact Hin|].
  assert (Hrest : forall acc',
             In c (collect_candidates fs rest acc') ->
             In c acc'
             \/ exists sa' es e,
                  In sa' (sa :: rest)
                  /\ isdir fs (path_join sa' "downloading") = true
                  /\ scandir fs (path_join sa' "downloading") = Some es
                  /\ In e es /\ names_application e (snd c)).
  { intros acc' H. destruct (IH acc' c H) as [Ha|(sa' & es & e & Hs & Hr)].
    - left. exact Ha.
    - right. exists sa', es, e. split; [right; exact Hs|exact Hr]. }
  destruct (isdir fs (path_join sa "downloading")) eqn:Hd; cbn [negb] in Hin;
    [|apply Hrest, Hin].
  destruct (scandir fs (path_join sa "downloading")) as [es|] eqn:Hs;
    [|apply Hrest, Hin].
  destruct (Hrest _ Hin) as [Ha|Hr]; [|right; exact Hr].
  destruct (scan_downloading_In es acc c Ha) as [Hacc|(e & He & Hn)];
    [left; exact Hacc|].
  right. exists sa, es, e. split; [left; reflexivity|].
  split; [exact Hd|]. split; [exact Hs|]. split; assumption.
Qed.

(** X24.  An application id that is detected is the name, read as a
    number, of a directory made of digits that the listing of the
    [downloading] directory of one of the libraries yields; and none is
    detected exactly when no library yields a candidate. *)
Theorem detect_appid_names_a_directory (fs : FileSystem)
    (steamapps_folders : list string) :
  (forall a,
     detect_appid_from_downloading_dir fs steamapps_folders = Some a ->
     exists sa es e,
       In sa steamapps_folders
       /\ isdir fs (path_join sa "downloading") = true
       /\ scandir fs (path_join sa "downloading") = Some es
       /\ In e es /\ names_application e a)
  /\ (detect_appid_from_downloading_dir fs steamapps_folders = None <->
      collect_candidates fs steamapps_folders [] = []).
Proof.
  unfold detect_appid_from_downloading_dir. split.
  - intros a H. unfold select_candidate in H.
    destruct (sort_reverse (collect_candidates fs steamapps_folders []))
      as [|[t a'] rest] eqn:Es; [discriminate|].
    inversion H; subst a'.
    assert (Hin : In (t, a) (collect_candidates fs steamapps_folders [])).
    { apply (Permutation_in _ (sort_reverse_perm _)).
      rewrite Es. left. reflexivity. }
    destruct (collect_candidates_In _ _ _ _ Hin) as [[]|Hr]. exact Hr.
  - split.
    + intros H.
      destruct (collect_candidates fs steamapps_folders []) as [|c cs] eqn:E;
        [reflexivity|].
      exfalso. apply (select_candidate_nonempty (c :: cs)); [discriminate|].
      exact H.
    + intros ->. reflexivity.
Qed.

(** X25.  The display name of an application is never empty: a manifest
    with an empty name is passed over, and the fallback is not empty. *)
Theorem resolve_app_name_not_empty (fs : FileSystem) (appid : Z)
    (steamapps_folders : list string) :
  Text.is_empty (resolve_app_name fs appid steamapps_folders) = false.
Proof.
  induction steamapps_folders as [|sa rest IH]; [reflexivity|].
  cbn [resolve_app_name].
  destruct (isfile fs _); [|exact IH].
  destruct (dict_get "name" _) as [n|]; [|exact IH].
  destruct (Text.is_empty n) eqn:E; [exact IH|exact E].
Qed.

(** ** The statements above on concrete installations *)

Lemma folder_size_bytes_nonneg_witness :
  (0 <= folder_size_bytes (Scenario.downloading_570 100 None)
          "/s/steamapps/downloading/570")%Z.
Proof.
  apply (folder_size_bytes_nonneg (Scenario.downloading_570 100 None)
           "/s/steamapps/downloading/570").
  reflexivity.
Defined.

Lemma folder_size_bytes_order_witness :
  folder_size_bytes (Scenario.downloading_570 100 None)
    "/s/steamapps/downloading/570"
  = folder_size_bytes Installation.reordered_570
      "/s/steamapps/downloading/570".
Proof.
  apply (folder_size_bytes_order (Scenario.downloading_570 100 None)
           Installation.reordered_570
           "/s/steamapps/downloading/570" "/s/steamapps/downloading/570"
           [EFile "chunk" (Some 100%Z);
            EDir "sub" None (Some [EFile "empty" (Some 0%Z); ESymlink "l"])]
           [EDir "sub" None (Some [ESymlink "l"; EFile "empty" (Some 0%Z)]);
            EFile "chunk" (Some 100%Z)]).
  - reflexivity.
  - reflexivity.
  - apply (reordered_trans _
             [EDir "sub" None (Some [EFile "empty" (Some 0%Z); ESymlink "l"]);
              EFile "chunk" (Some 100%Z)]).
    + apply reordered_here, perm_swap.
    + apply reordered_below, reordered_here, perm_swap.
Defined.

Lemma parse_key_value_file_last_wins_witness :
  dict_get "name"
    (parse_key_value_file Scenario.two_manifests "/b/appmanifest_570.acf")
  = Some "Dota 2".
Proof.
  apply (parse_key_value_file_last_wins Scenario.two_manifests
           "/b/appmanifest_570.acf"
           (Scenario.quoted "AppState" ++ Scenario.nl ++ "{" ++ Scenario.nl
            ++ Scenario.manifest_line "appid" "570"
            ++ Scenario.manifest_line "name" "Dota 2" ++ "}" ++ Scenario.nl)
           [Scenario.quoted "AppState" ++ Scenario.nl; "{" ++ Scenario.nl;
            Scenario.manifest_line "appid" "570"]
           ["}" ++ Scenario.nl]
           (Scenario.manifest_line "name" "Dota 2")).
  - reflexivity.
  - vm_compute. reflexivity.
  - vm_compute. reflexivity.
  - constructor; [|constructor]. intros [v Hv]. vm_compute in Hv.
    discriminate.
Defined.

Lemma parse_libraryfolders_vdf_reads_back_witness :
  parse_libraryfolders_vdf Installation.disk Installation.lib_vdf
  = ["/lib/a"; "/lib/b"].
Proof.
  rewrite (parse_libraryfolders_vdf_reads_back Installation.disk
             Installation.lib_vdf Installation.entries).
  - vm_compute. reflexivity.
  - reflexivity.
  - reflexivity.
  - reflexivity.
Defined.

Lemma find_steam_path_is_installation_witness :
  find_steam_path Installation.linux Installation.disk
  = Some Installation.root
  /\ isdir Installation.disk Installation.root = true
  /\ isdir Installation.disk
       (join Installation.linux Installation.root "steamapps") = true.
Proof.
  split; [vm_compute; reflexivity|].
  destruct (find_steam_path_is_installation Installation.linux
              Installation.disk Installation.root) as (H1 & H2 & _).
  - vm_compute. reflexivity.
  - split; [exact H1|exact H2].
Defined.

Lemma get_all_steamapps_folders_primary_first_witness :
  exists rest,
    get_all_steamapps_folders Installation.disk Installation.root
    = "/home/u/.local/share/Steam/steamapps" :: rest.
Proof.
  apply (get_all_steamapps_folders_primary_first Installation.disk
           Installation.root).
  reflexivity.
Defined.

Lemma run_monitor_never_without_steamapps_witness :
  run_monitor Installation.linux Installation.disk (F64.of_Z 999) []
  <> SteamappsNotFound Installation.root.
Proof.
  apply (run_monitor_never_without_steamapps Installation.linux
           Installation.disk (F64.of_Z 999) [] Installation.root).
  intros a b. reflexivity.
Defined.

Lemma detect_status_most_recent_witness :
  detect_status_from_content_log
    (Scenario.downloading_570 120 Scenario.log_downloading)
    Scenario.steam_path (Some 570%Z)
  = Some downloading.
Proof.
  apply (detect_status_most_recent
           (Scenario.downloading_570 120 Scenario.log_downloading)
           Scenario.steam_path (Some 570%Z) []
           ["AppID 570 state"] "AppID 570 update started : download").
  - reflexivity.
  - vm_compute. reflexivity.
  - cbn. lia.
  - constructor; [reflexivity|constructor].
  - reflexivity.
Defined.

Lemma detect_status_window_witness :
  detect_status_from_content_log
    (Scenario.downloading_570 120 (Some Installation.long_log))
    Scenario.steam_path (Some 570%Z)
  = None.
Proof.
  destruct (detect_status_window
              (Scenario.downloading_570 120 (Some Installation.long_log))
              Scenario.steam_path (Some 570%Z)
              ["AppID 570 paused"] (repeat "AppID 570 verifying" 800))
    as [_ H].
  - reflexivity.
  - vm_compute. reflexivity.
  - apply repeat_length.
  - apply H. apply Forall_forall. intros l Hl.
    apply repeat_spec in Hl. subst l. reflexivity.
Defined.

Lemma detect_status_from_log_line_witness :
  downloading <> unknown
  /\ exists ln,
       In ln (log_lines
                (Scenario.downloading_570 120 Scenario.log_downloading)
                Scenario.steam_path (Some 570%Z))
       /\ line_status ln = Some downloading.
Proof.
  destruct (detect_status_from_log_line
              (Scenario.downloading_570 120 Scenario.log_downloading)
              Scenario.steam_path (Some 570%Z) downloading)
    as (H1 & _ & H2).
  - vm_compute. reflexivity.
  - split; [exact H1|exact H2].
Defined.

Lemma downloading_only_from_log_witness :
  status (Scenario.sample_of Installation.first_result) = downloading
  /\ detect_status_from_content_log (tick_fs Scenario.back_tick)
       Scenario.steam_path (Some 570%Z) = Some downloading.
Proof.
  split; [reflexivity|].
  destruct (downloading_only_from_log Scenario.steam_path Scenario.folders
              Scenario.fresh_after_gap
              (Scenario.state_of Installation.first_result)
              Scenario.back_tick
              (Scenario.sample_of Installation.first_result))
    as [H _].
  - vm_compute. reflexivity.
  - reflexivity.
  - exact H.
Defined.

Lemma unknown_needs_measured_change_witness :
  status (Scenario.sample_of Installation.growing_result) = unknown
  /\ last_size Scenario.seen_once = Some 100%Z
  /\ F64.ltb (F64.abs (speed_bps (Scenario.sample_of
                                    Installation.growing_result)))
       F64.one = false.
Proof.
  split; [reflexivity|]. split; [reflexivity|].
  destruct (unknown_needs_measured_change Scenario.steam_path
              Scenario.folders Scenario.seen_once
              (Scenario.state_of Installation.growing_result)
              Installation.growing_tick
              (Scenario.sample_of Installation.growing_result))
    as (_ & H & _).
  - vm_compute. reflexivity.
  - reflexivity.
  - exact H.
Defined.

Lemma first_sample_of_application_witness :
  last_size Scenario.start = None
  /\ speed_bps (Scenario.sample_of Installation.start_result) = F64.zero
  /\ status (Scenario.sample_of Installation.start_result) = paused.
Proof.
  split; [reflexivity|].
  destruct (first_sample_of_application Scenario.steam_path Scenario.folders
              Scenario.start (Scenario.state_of Installation.start_result)
              Scenario.first_tick
              (Scenario.sample_of Installation.start_result))
    as (H1 & _ & H2).
  - vm_compute. reflexivity.
  - left. reflexivity.
  - split; [exact H1|exact H2].
Defined.

Lemma monitor_loop_completes_witness :
  exists st' samples,
    monitor_loop Scenario.steam_path Scenario.folders Scenario.start
      [Scenario.first_tick; Scenario.slow_tick] = (Some st', samples)
    /\ List.length samples = 2%nat.
Proof.
  destruct (monitor_loop_completes Scenario.steam_path Scenario.folders
              [Scenario.first_tick; Scenario.slow_tick] Scenario.start)
    as (st' & samples & H & Hlen & _).
  - exact I.
  - constructor; [|constructor; [|constructor]]; intros p;
      unfold folder_size_bytes;
      cbn [tick_fs Scenario.first_tick Scenario.slow_tick Scenario.at_time
           scandir Scenario.downloading_570];
      (destruct (String.eqb p "/s/steamapps/downloading");
       [vm_compute; split; [discriminate|reflexivity]|]);
      (destruct (String.eqb p "/s/steamapps/downloading/570");
       vm_compute; split; [discriminate|reflexivity|discriminate|reflexivity]).
  - exists st', samples. split; [exact H|exact Hlen].
Defined.

Lemma real_speed_not_finite_witness :
  real_speed (S754_infinity false) = "inf GB/s".
Proof.
  apply (real_speed_not_finite (S754_infinity false)). reflexivity.
Defined.

Lemma real_speed_exact_multiple_witness :
  real_speed (F64.of_Z 5242880) = "5.00 MB/s".
Proof.
  apply (real_speed_exact_multiple 5 2); [repeat constructor|].
  split; [discriminate|reflexivity].
Defined.
